(** * The bot supervisor [worker.py]: a shallow embedding and its properties

    The supervisor reads a JSON manifest of workloads, gives each one a
    randomly prefixed name, and runs [start_bot] once per workload on a
    thread pool; a signal handler stops whatever is recorded in the
    module-level table [bot_processes].

    Python values are embedded as the inductive type [json], Python
    exceptions as the constructors of [exn], and every side effect
    (log records, [subprocess.run] calls, directory operations, random
    draws) is threaded through an explicit [state] by the monad [M].
    Whatever lives outside the repository is a parameter of the
    development: the word list imported from [phrase], the random
    source, the base environment, the rendering of floats and of quoted
    strings by the interpreter, and the behaviour of the external
    commands. *)

From Stdlib Require Import PrimFloat ZArith Ascii String.
From stdpp Require Import base gmap strings list pretty.

Set Warnings "-register-all,-clear-no-such-hyp".
Local Open Scope string_scope.
Local Open Scope list_scope.

(** ** Python values as produced by [json.load] *)

Inductive json : Type :=
| JNull
| JBool (b : bool)
| JInt (n : Z)
| JFloat (x : float)
| JStr (s : string)
| JArr (elems : list json)
| JObj (items : list (string * json)).

(** A Python [dict] with string keys, in insertion order.  A real dict
    never holds a key twice; the operations below are total all the
    same and read the first binding of a key. *)
Definition dict (V : Type) : Type := list (string * V).

Fixpoint dict_get {V} (k : string) (d : dict V) : option V :=
  match d with
  | [] => None
  | (k', v) :: d' => if String.eqb k k' then Some v else dict_get k d'
  end.

(** [d[k] = v]: overwrite in place, or append a new key at the end. *)
Fixpoint dict_set {V} (k : string) (v : V) (d : dict V) : dict V :=
  match d with
  | [] => [(k, v)]
  | (k', v') :: d' =>
      if String.eqb k k' then (k, v) :: d' else (k', v') :: dict_set k v d'
  end.

Definition dict_keys {V} (d : dict V) : list string := d.*1.

Definition dict_has {V} (k : string) (d : dict V) : bool :=
  existsb (String.eqb k) (dict_keys d).

(** ** Exceptions and results *)

Inductive oserror :=
| FileNotFoundError
| FileExistsError
| NotADirectoryError
| IsADirectoryError
| PermissionError
| DeviceBusy.

Inductive exn :=
| ValueError (msg : string)
| TypeError
| AttributeError
| KeyError (key : string)
| IndexError
| OSError (e : oserror)
| CalledProcessError (returncode : Z) (cmd : list string)
| TimeoutExpired
| SystemExit (code : Z).

(** [except Exception] catches everything but [SystemExit]. *)
Definition is_Exception (e : exn) : bool :=
  match e with SystemExit _ => false | _ => true end.

Inductive result (A : Type) :=
| Ok (a : A)
| Raise (e : exn).
Arguments Ok {A} a.
Arguments Raise {A} e.

(** ** Strings *)

Definition startswith (s pre : string) : bool := String.prefix pre s.

(** [needle in haystack] on two strings. *)
Fixpoint str_contains (needle hay : string) : bool :=
  String.prefix needle hay
  || match hay with
     | EmptyString => false
     | String _ hay' => str_contains needle hay'
     end.

(** [s.replace(old, new)] for one-character [old] and [new]. *)
Fixpoint replace_char (old new : ascii) (s : string) : string :=
  match s with
  | EmptyString => EmptyString
  | String c s' =>
      String (if Ascii.eqb c old then new else c) (replace_char old new s')
  end.

(** [s.split(sep)] for a one-character separator. *)
Fixpoint split_on (sep : ascii) (s : string) : list string :=
  match s with
  | EmptyString => [EmptyString]
  | String c s' =>
      if Ascii.eqb c sep then EmptyString :: split_on sep s'
      else match split_on sep s' with
           | [] => [String c EmptyString]
           | w :: ws => String c w :: ws
           end
  end.

(** [s.rfind(c)], [None] standing for [-1]. *)
Fixpoint rfind (c : ascii) (s : string) : option nat :=
  match s with
  | EmptyString => None
  | String a s' =>
      match rfind c s' with
      | Some i => Some (S i)
      | None => if Ascii.eqb a c then Some 0 else None
      end
  end.

(** [s[i:]]. *)
Fixpoint drop_str (i : nat) (s : string) : string :=
  match i, s with
  | 0, _ => s
  | S i', String _ s' => drop_str i' s'
  | S _, EmptyString => EmptyString
  end.

(** ** Rendering of values: [repr] and [str] *)

Section Rendering.
(** [repr] of a float and of a string are the interpreter's own. *)
Variable float_repr : float → string.
Variable str_repr : string → string.

Fixpoint py_repr (v : json) : string :=
  match v with
  | JNull => "None"
  | JBool true => "True"
  | JBool false => "False"
  | JInt n => pretty n
  | JFloat x => float_repr x
  | JStr s => str_repr s
  | JArr l => "[" +:+ String.concat ", " (map py_repr l) +:+ "]"
  | JObj d =>
      "{" +:+ String.concat ", "
                (map (λ kv, match kv with
                            | (k, w) => str_repr k +:+ ": " +:+ py_repr w
                            end) d) +:+ "}"
  end.

Definition py_str (v : json) : string :=
  match v with
  | JStr s => s
  | _ => py_repr v
  end.
End Rendering.

(** ** Paths ([pathlib.PurePosixPath]) *)

Record Path := mkPath { root : string; parts : list string }.

Definition is_component (c : string) : bool :=
  negb (String.eqb c "") && negb (String.eqb c ".").

(** [Path(s)]: the root is kept apart, empty and [.] components are
    dropped, [..] is kept as it is. *)
Definition parse_path (s : string) : Path :=
  {| root := if startswith s "/"
             then (if startswith s "//" && negb (startswith s "///")
                   then "//" else "/")
             else "";
     parts := List.filter is_component (split_on "/" s) |}.

(** [a / s]: an absolute right operand replaces the left one. *)
Definition path_join (a : Path) (s : string) : Path :=
  let b := parse_path s in
  if String.eqb (root b) "" then
    {| root := root a; parts := parts a ++ parts b |}
  else b.

Definition path_str (p : Path) : string :=
  match root p, parts p with
  | EmptyString, [] => "."
  | r, ps => r +:+ String.concat "/" ps
  end.

(** [p.name]: the final component, or the empty string. *)
Definition path_name (p : Path) : string := List.last (parts p) "".

(** [p.suffix]: from the last dot of the name on, unless that dot is
    the first or the last character of the name. *)
Definition path_suffix (p : Path) : string :=
  let name := path_name p in
  match rfind "." name with
  | Some i =>
      if Nat.ltb 0 i && Nat.ltb i (String.length name - 1)
      then drop_str i name else ""
  | None => ""
  end.

(** ** The file system: a tree of directories and files

    A path denotes the node reached from the root directory through its
    components; there are no symbolic links, no permissions and no
    limits on names, and a component is an ordinary name: the
    operating system resolves [..] and refuses a NUL character, the
    tree does neither, and the statements on what the operations do to
    the tree are made for paths of [ordinary] components. *)

Inductive node :=
| File
| Dir (children : gmap string node).

Fixpoint lookup_path (t : node) (p : list string) : option node :=
  match p with
  | [] => Some t
  | c :: p' =>
      match t with
      | File => None
      | Dir ch =>
          match ch !! c with
          | Some t' => lookup_path t' p'
          | None => None
          end
      end
  end.

(** [Path.exists()]. *)
Definition path_exists (t : node) (p : list string) : bool :=
  match lookup_path t p with Some _ => true | None => false end.

(** [Path.mkdir(parents=True, exist_ok=True)]: every missing directory
    on the way is created; a file on the way, or at the end, is an
    error. *)
Fixpoint mkdir_parents (t : node) (p : list string) : result node :=
  match p with
  | [] =>
      match t with
      | Dir _ => Ok t
      | File => Raise (OSError FileExistsError)
      end
  | c :: p' =>
      match t with
      | File => Raise (OSError NotADirectoryError)
      | Dir ch =>
          match mkdir_parents (default (Dir ∅) (ch !! c)) p' with
          | Ok t' => Ok (Dir (<[c := t']> ch))
          | Raise e => Raise e
          end
      end
  end.

(** [shutil.rmtree] below the root directory: the directory at [p] goes
    with all it contains. *)
Fixpoint rmtree_below (t : node) (p : list string) : result node :=
  match p with
  | [] => Ok t
  | c :: p' =>
      match t with
      | File => Raise (OSError NotADirectoryError)
      | Dir ch =>
          match ch !! c with
          | None => Raise (OSError FileNotFoundError)
          | Some t' =>
              match p' with
              | [] =>
                  match t' with
                  | Dir _ => Ok (Dir (delete c ch))
                  | File => Raise (OSError NotADirectoryError)
                  end
              | _ :: _ =>
                  match rmtree_below t' p' with
                  | Ok t'' => Ok (Dir (<[c := t'']> ch))
                  | Raise e => Raise e
                  end
              end
          end
      end
  end.

(** [shutil.rmtree(p)]: outcome and resulting tree.  The root directory
    itself cannot be removed: its content goes and the call fails. *)
Definition rmtree (t : node) (p : list string) : result unit * node :=
  match p with
  | [] =>
      match t with
      | Dir _ => (Raise (OSError DeviceBusy), Dir ∅)
      | File => (Raise (OSError NotADirectoryError), t)
      end
  | _ :: _ =>
      match rmtree_below t p with
      | Ok t' => (Ok (), t')
      | Raise e => (Raise e, t)
      end
  end.

(** [open(p, 'w')]: creates or truncates the file at [p]. *)
Fixpoint open_w (t : node) (p : list string) : result node :=
  match p with
  | [] => Raise (OSError IsADirectoryError)
  | c :: p' =>
      match t with
      | File => Raise (OSError NotADirectoryError)
      | Dir ch =>
          match p' with
          | [] =>
              match ch !! c with
              | Some (Dir _) => Raise (OSError IsADirectoryError)
              | _ => Ok (Dir (<[c := File]> ch))
              end
          | _ :: _ =>
              match ch !! c with
              | None => Raise (OSError FileNotFoundError)
              | Some t' =>
                  match open_w t' p' with
                  | Ok t'' => Ok (Dir (<[c := t'']> ch))
                  | Raise e => Raise e
                  end
              end
          end
      end
  end.

(** ** Observable actions and the supervisor's state *)

Inductive level := INFO | WARNING | ERROR.

(** The arguments of one [subprocess.run] call. *)
Record run_args := mkRun {
  argv : list string;
  cwd : option string;                 (* [None]: the supervisor's own *)
  env : option (gmap string string);   (* [None]: inherit [os.environ] *)
  capture_output : bool;
  stdout : option string;              (* the open file it is sent to *)
  stderr : option string
}.

(** What an external command does: it cannot be started, or it runs to
    its end, leaving an exit status, its captured error output and a
    file system. *)
Inductive proc_outcome :=
| SpawnFailed (e : oserror)
| Completed (returncode : Z) (err : string) (after : node).

Definition handle := nat.

Inductive event :=
| Log (lvl : level) (msg : string)
| Sleep (secs : nat)
| Run (a : run_args) (outcome : proc_outcome)
| Terminate (h : handle)
| Wait (h : handle) (timeout : nat)
| Kill (h : handle).

(** A child process as [Popen] sees it: whether it still runs, and how
    long it takes to exit once asked to terminate ([None]: it ignores
    the request). *)
Record process := mkProcess {
  alive : bool;
  asked : bool;
  grace : option nat
}.

Record state := mkState {
  trace : list event;              (* oldest first *)
  draws : nat;                     (* random draws made so far *)
  fs : node;                       (* the root directory *)
  bot_processes : dict handle;     (* the module-level tracking table *)
  procs : gmap handle process;
  clock : nat                      (* time spent in blocking waits *)
}.

Definition set_trace (f : list event → list event) (s : state) : state :=
  mkState (f (trace s)) (draws s) (fs s) (bot_processes s) (procs s) (clock s).
Definition set_draws (n : nat) (s : state) : state :=
  mkState (trace s) n (fs s) (bot_processes s) (procs s) (clock s).
Definition set_fs (t : node) (s : state) : state :=
  mkState (trace s) (draws s) t (bot_processes s) (procs s) (clock s).
Definition set_bot_processes (d : dict handle) (s : state) : state :=
  mkState (trace s) (draws s) (fs s) d (procs s) (clock s).
Definition set_procs (m : gmap handle process) (s : state) : state :=
  mkState (trace s) (draws s) (fs s) (bot_processes s) m (clock s).
Definition set_clock (n : nat) (s : state) : state :=
  mkState (trace s) (draws s) (fs s) (bot_processes s) (procs s) n.

(** ** The monad of effectful code: state passing with exceptions *)

Definition M (A : Type) : Type := state → result A * state.

#[global] Instance M_ret : MRet M := λ A a s, (Ok a, s).

#[global] Instance M_bind : MBind M := λ A B f m s,
  match m s with
  | (Ok a, s') => f a s'
  | (Raise e, s') => (Raise e, s')
  end.

Definition raise {A} (e : exn) : M A := λ s, (Raise e, s).

Definition lift {A} (r : result A) : M A := λ s, (r, s).

Definition get_state : M state := λ s, (Ok s, s).

(** [try: body except <catches> as e: handler e]. *)
Definition try_except {A} (body : M A) (catches : exn → bool)
    (handler : exn → M A) : M A := λ s,
  match body s with
  | (Raise e, s') => if catches e then handler e s' else (Raise e, s')
  | r => r
  end.

(** [if b: body]. *)
Definition when_ (b : bool) (body : M unit) : M unit :=
  if b then body else mret ().

Definition emit (e : event) : M unit := λ s,
  (Ok (), set_trace (λ t, t ++ [e]) s).

Definition logging_info (msg : string) : M unit := emit (Log INFO msg).
Definition logging_warning (msg : string) : M unit := emit (Log WARNING msg).
Definition logging_error (msg : string) : M unit := emit (Log ERROR msg).

(** [time.sleep(secs)]. *)
Definition time_sleep (secs : nat) : M unit := λ s,
  (Ok (), set_clock (clock s + secs) (set_trace (λ t, t ++ [Sleep secs]) s)).

(** The records of the supervisor's log, in order. *)
Definition log_of (t : list event) : list (level * string) :=
  omap (λ e, match e with Log l m => Some (l, m) | _ => None end) t.

(** The external commands run, in order. *)
Definition runs_of (t : list event) : list run_args :=
  omap (λ e, match e with Run a _ => Some a | _ => None end) t.

(** ** Dynamic operations on values *)

(** [key in container]. *)
Definition py_in (key : string) (container : json) : result bool :=
  match container with
  | JObj d => Ok (dict_has key d)
  | JStr s => Ok (str_contains key s)
  | JArr l =>
      Ok (existsb (λ v, match v with
                        | JStr s => String.eqb s key
                        | _ => false
                        end) l)
  | _ => Raise TypeError
  end.

(** [all(key in container for key in keys)], stopping at the first
    key that is not there. *)
Fixpoint all_in (keys : list string) (container : json) : result bool :=
  match keys with
  | [] => Ok true
  | k :: ks =>
      match py_in k container with
      | Ok true => all_in ks container
      | r => r
      end
  end.

(** [container[key]] for a string key. *)
Definition py_getitem (container : json) (key : string) : result json :=
  match container with
  | JObj d =>
      match dict_get key d with
      | Some v => Ok v
      | None => Raise (KeyError key)
      end
  | _ => Raise TypeError
  end.

(** [container.get(key, default)]. *)
Definition py_get (container : json) (key : string) (dflt : json)
    : result json :=
  match container with
  | JObj d => Ok (default dflt (dict_get key d))
  | _ => Raise AttributeError
  end.

(** [v.startswith(pre)]. *)
Definition py_startswith (v : json) (pre : string) : result bool :=
  match v with
  | JStr s => Ok (startswith s pre)
  | _ => Raise AttributeError
  end.

(** [v.items()]. *)
Definition py_items (v : json) : result (dict json) :=
  match v with
  | JObj d => Ok d
  | _ => Raise AttributeError
  end.

(** A value used where the interpreter demands a string (a path
    component, a command-line argument). *)
Definition as_str (v : json) : result string :=
  match v with
  | JStr s => Ok s
  | _ => Raise TypeError
  end.

(** ** The program *)

Section Worker.

(** What the program takes from outside the repository. *)
Variable WORD_LIST : list string.               (* [phrase.WORD_LIST] *)
Variable rng : nat → nat.                       (* the n-th raw random draw *)
Variable os_environ : gmap string string.       (* [os.environ] *)
Variable float_repr : float → string.
Variable str_repr : string → string.
Variable exn_str : exn → string.                (* [str(e)] *)
(** The external commands: outcome of a call given what happened so
    far and the file system it finds. *)
Variable run_process : list event → run_args → node → proc_outcome.

Local Abbreviation str := (py_str float_repr str_repr).

(** [random.choice(seq)]. *)
Definition random_choice (seq : list string) : M string := λ s,
  match seq with
  | [] => (Raise IndexError, s)
  | _ :: _ =>
      match seq !! (rng (draws s) mod length seq) with
      | Some w => (Ok w, set_draws (S (draws s)) s)
      | None => (Raise IndexError, s)
      end
  end.

Definition generate_prefix : M string :=
  word1 ← random_choice WORD_LIST;
  word2 ← random_choice WORD_LIST;
  let prefix := word1 +:+ " " +:+ word2 in
  logging_info ("Generated prefix: " +:+ prefix);;
  mret prefix.

(** Lines 41-50: the checks on one entry, under its prefixed name. *)
Definition check_entry (prefixed_bot_name : string) (bot_config : json)
    (new_bots : dict json) : M (dict json) :=
  present ← lift (all_in ["source"; "run"; "env"] bot_config);
  if negb present then
    logging_error ("Configuration for " +:+ prefixed_bot_name +:+
                   " is missing required fields.");;
    raise (ValueError ("Invalid configuration for " +:+ prefixed_bot_name
                       +:+ "."))
  else
    source ← lift (py_getitem bot_config "source");
    http ← lift (py_startswith source "http");
    if negb http then
      logging_error ("Invalid source URL for " +:+ prefixed_bot_name +:+ ".");;
      raise (ValueError ("Invalid source URL for " +:+ prefixed_bot_name
                         +:+ "."))
    else
      logging_info ("Loaded configuration for " +:+ prefixed_bot_name);;
      mret (dict_set prefixed_bot_name bot_config new_bots).

(** The body of the loop of [load_config] for one entry. *)
Definition load_entry (bot_name : string) (bot_config : json)
    (new_bots : dict json) : M (dict json) :=
  prefix ← generate_prefix;
  check_entry (prefix +:+ " " +:+ bot_name) bot_config new_bots.

Fixpoint load_loop (items : dict json) (new_bots : dict json)
    : M (dict json) :=
  match items with
  | [] => mret new_bots
  | (bot_name, bot_config) :: rest =>
      new_bots' ← load_entry bot_name bot_config new_bots;
      load_loop rest new_bots'
  end.

(** [load_config(file_path)], where [bots] is what [json.load] read from
    the file. *)
Definition load_config (file_path : string) (bots : json)
    : M (dict json) :=
  logging_info ("Loading configuration from " +:+ file_path);;
  items ← lift (py_items bots);
  new_bots ← load_loop items [];
  logging_info "Configuration loading complete.";;
  mret new_bots.

(** The loop of [start_bot] over [bot_config['env'].items()]. *)
Fixpoint set_env (bot_name : string) (items : dict json)
    (bot_env : gmap string string) : M (gmap string string) :=
  match items with
  | [] => mret bot_env
  | (env_name, env_value) :: rest =>
      match env_value with
      | JNull => set_env bot_name rest bot_env
      | _ =>
          logging_info ("Setting environment variable " +:+ env_name +:+
                        " for " +:+ bot_name +:+ ".");;
          set_env bot_name rest (<[env_name := str env_value]> bot_env)
      end
  end.

(** [subprocess.run(argv, check=check, ...)]: exit status and captured
    error output. *)
Definition subprocess_run (a : run_args) (check : bool) : M (Z * string) :=
  λ s,
  let outcome := run_process (trace s) a (fs s) in
  let s1 := set_trace (λ t, t ++ [Run a outcome]) s in
  match outcome with
  | SpawnFailed e => (Raise (OSError e), s1)
  | Completed rc err t' =>
      if check && negb (rc =? 0)%Z
      then (Raise (CalledProcessError rc (argv a)), set_fs t' s1)
      else (Ok (rc, err), set_fs t' s1)
  end.

Definition fs_exists (p : Path) : M bool := λ s,
  (Ok (path_exists (fs s) (parts p)), s).

Definition fs_mkdir (p : Path) : M unit := λ s,
  match mkdir_parents (fs s) (parts p) with
  | Ok t => (Ok (), set_fs t s)
  | Raise e => (Raise e, s)
  end.

Definition fs_rmtree (p : Path) : M unit := λ s,
  let (r, t) := rmtree (fs s) (parts p) in (r, set_fs t s).

Definition fs_open_w (file : string) : M unit := λ s,
  match open_w (fs s) (parts (parse_path file)) with
  | Ok t => (Ok (), set_fs t s)
  | Raise e => (Raise e, s)
  end.

(** [open(p, 'a')], as the log handler does on its file: the file is
    created if it is missing and kept otherwise.  The tree holds no
    contents, so on the tree this is [open_w]. *)
Definition fs_open_a (p : Path) : M unit := λ s,
  match open_w (fs s) (parts p) with
  | Ok t => (Ok (), set_fs t s)
  | Raise e => (Raise e, s)
  end.

(** Lines 76-82: create the directory if it is missing, then remove it
    if it exists. *)
Definition prepare_dir (bot_name : string) (bot_dir : Path) : M unit :=
  found ← fs_exists bot_dir;
  when_ (negb found)
    (logging_info ("Creating directory for " +:+ bot_name +:+ ": " +:+
                   path_str bot_dir);;
     fs_mkdir bot_dir);;
  found' ← fs_exists bot_dir;
  when_ found'
    (logging_info ("Removing existing directory: " +:+ path_str bot_dir);;
     fs_rmtree bot_dir).

(** The two [except] clauses of [start_bot]. *)
Definition start_bot_catches (e : exn) : bool :=
  match e with
  | CalledProcessError _ _ | OSError _ => true
  | _ => false
  end.

Definition start_bot_handler (bot_name : string) (e : exn)
    : M (option string) :=
  match e with
  | CalledProcessError _ _ =>
      logging_error ("Error while processing " +:+ bot_name +:+ ": " +:+
                     exn_str e);;
      mret None
  | _ =>
      logging_error ("Unexpected error while starting " +:+ bot_name +:+
                     ": " +:+ exn_str e);;
      mret None
  end.

(** Lines 98-104: the entry point is run by [bash] when its suffix is
    [.sh] and by [python3] otherwise. *)
Definition launch (bot_name : string) (bot_dir bot_file : Path)
    (bot_env : gmap string string) (log_file : string) : M unit :=
  fs_open_w log_file;;
  (if String.eqb (path_suffix bot_file) ".sh" then
     logging_info ("Starting " +:+ bot_name +:+ " bot with bash script: "
                   +:+ path_str bot_file);;
     subprocess_run
       (mkRun ["bash"; path_str bot_file] (Some (path_str bot_dir))
              (Some bot_env) false (Some log_file) (Some log_file)) false
   else
     logging_info ("Starting " +:+ bot_name +:+ " bot with Python script: "
                   +:+ path_str bot_file);;
     subprocess_run
       (mkRun ["python3"; path_str bot_file] (Some (path_str bot_dir))
              (Some bot_env) false (Some log_file) (Some log_file)) false);;
  mret ().

(** Lines 75-107: the body of the [try] block. *)
Definition start_bot_try (bot_name : string) (bot_config : json)
    (bot_env : gmap string string) (bot_dir requirements_file bot_file : Path)
    (branch : json) : M (option string) :=
  prepare_dir bot_name bot_dir;;
  source ← lift (py_getitem bot_config "source");
  logging_info ("Cloning " +:+ bot_name +:+ " from " +:+ str source +:+
                " (branch: " +:+ str branch +:+ ")");;
  branch_arg ← lift (as_str branch);
  source_arg ← lift (as_str source);
  result ← subprocess_run
             (mkRun ["git"; "clone"; "-b"; branch_arg; "--single-branch";
                     source_arg; path_str bot_dir]
                    None None true None None) false;
  if negb (result.1 =? 0)%Z then
    logging_error ("Error while cloning " +:+ bot_name +:+ ": " +:+
                   result.2);;
    mret None
  else
    has_requirements ← fs_exists requirements_file;
    when_ has_requirements
      (logging_info ("Installing requirements for " +:+ bot_name);;
       subprocess_run
         (mkRun ["pip"; "install"; "--no-cache-dir"; "-r";
                 path_str requirements_file]
                None None false None None) true;;
       mret ());;
    let log_file := "/app/logs/" +:+ bot_name +:+ ".log" in
    launch bot_name bot_dir bot_file bot_env log_file;;
    logging_info (bot_name +:+ " started successfully. Logs can be found in "
                  +:+ log_file);;
    mret (Some log_file).

(** The working directory of a workload. *)
Definition bot_dir_of (bot_name : string) : Path :=
  path_join (parse_path "/app") (replace_char " " "_" bot_name).

Definition start_bot (bot_name : string) (bot_config : json)
    : M (option string) :=
  logging_info ("Starting bot: " +:+ bot_name);;
  time_sleep 5;;
  env_value ← lift (py_getitem bot_config "env");
  items ← lift (py_items env_value);
  bot_env ← set_env bot_name items os_environ;
  let bot_dir := bot_dir_of bot_name in
  let requirements_file := path_join bot_dir "requirements.txt" in
  run ← lift (py_getitem bot_config "run");
  run_arg ← lift (as_str run);
  let bot_file := path_join bot_dir run_arg in
  branch ← lift (py_get bot_config "branch" (JStr "main"));
  try_except
    (start_bot_try bot_name bot_config bot_env bot_dir requirements_file
                   bot_file branch)
    start_bot_catches
    (start_bot_handler bot_name).

(** ** A workload while its commands run

    [subprocess.run] blocks the thread of the workload until the
    command has ended.  The rest of the supervisor goes on meanwhile:
    the main thread, and with it the signal handlers of lines 137-138.
    [subprocess_run_meanwhile meanwhile] is [subprocess_run] with
    [meanwhile] standing for what the rest of the supervisor does
    between the start of the command and its end; what [meanwhile]
    returns or raises stays in its own thread.  [launch_with],
    [start_bot_try_with] and [start_bot_with] are [launch],
    [start_bot_try] and [start_bot] with the primitive that runs a
    command as a parameter: at [subprocess_run] they are those
    functions, word for word. *)
Definition subprocess_run_meanwhile (meanwhile : M unit) (a : run_args)
    (check : bool) : M (Z * string) := λ s,
  let outcome := run_process (trace s) a (fs s) in
  match outcome with
  | SpawnFailed e =>
      (Raise (OSError e), set_trace (λ t, t ++ [Run a outcome]) s)
  | Completed rc err t' =>
      let s1 := set_trace (λ t, t ++ [Run a outcome]) (meanwhile s).2 in
      if check && negb (rc =? 0)%Z
      then (Raise (CalledProcessError rc (argv a)), set_fs t' s1)
      else (Ok (rc, err), set_fs t' s1)
  end.

Definition launch_with (run_cmd : run_args → bool → M (Z * string))
    (bot_name : string) (bot_dir bot_file : Path)
    (bot_env : gmap string string) (log_file : string) : M unit :=
  fs_open_w log_file;;
  (if String.eqb (path_suffix bot_file) ".sh" then
     logging_info ("Starting " +:+ bot_name +:+ " bot with bash script: "
                   +:+ path_str bot_file);;
     run_cmd
       (mkRun ["bash"; path_str bot_file] (Some (path_str bot_dir))
              (Some bot_env) false (Some log_file) (Some log_file)) false
   else
     logging_info ("Starting " +:+ bot_name +:+ " bot with Python script: "
                   +:+ path_str bot_file);;
     run_cmd
       (mkRun ["python3"; path_str bot_file] (Some (path_str bot_dir))
              (Some bot_env) false (Some log_file) (Some log_file)) false);;
  mret ().

Definition start_bot_try_with (run_cmd : run_args → bool → M (Z * string))
    (bot_name : string) (bot_config : json)
    (bot_env : gmap string string) (bot_dir requirements_file bot_file : Path)
    (branch : json) : M (option string) :=
  prepare_dir bot_name bot_dir;;
  source ← lift (py_getitem bot_config "source");
  logging_info ("Cloning " +:+ bot_name +:+ " from " +:+ str source +:+
                " (branch: " +:+ str branch +:+ ")");;
  branch_arg ← lift (as_str branch);
  source_arg ← lift (as_str source);
  result ← run_cmd
             (mkRun ["git"; "clone"; "-b"; branch_arg; "--single-branch";
                     source_arg; path_str bot_dir]
                    None None true None None) false;
  if negb (result.1 =? 0)%Z then
    logging_error ("Error while cloning " +:+ bot_name +:+ ": " +:+
                   result.2);;
    mret None
  else
    has_requirements ← fs_exists requirements_file;
    when_ has_requirements
      (logging_info ("Installing requirements for " +:+ bot_name);;
       run_cmd
         (mkRun ["pip"; "install"; "--no-cache-dir"; "-r";
                 path_str requirements_file]
                None None false None None) true;;
       mret ());;
    let log_file := "/app/logs/" +:+ bot_name +:+ ".log" in
    launch_with run_cmd bot_name bot_dir bot_file bot_env log_file;;
    logging_info (bot_name +:+ " started successfully. Logs can be found in "
                  +:+ log_file);;
    mret (Some log_file).

Definition start_bot_with (run_cmd : run_args → bool → M (Z * string))
    (bot_name : string) (bot_config : json) : M (option string) :=
  logging_info ("Starting bot: " +:+ bot_name);;
  time_sleep 5;;
  env_value ← lift (py_getitem bot_config "env");
  items ← lift (py_items env_value);
  bot_env ← set_env bot_name items os_environ;
  let bot_dir := bot_dir_of bot_name in
  let requirements_file := path_join bot_dir "requirements.txt" in
  run ← lift (py_getitem bot_config "run");
  run_arg ← lift (as_str run);
  let bot_file := path_join bot_dir run_arg in
  branch ← lift (py_get bot_config "branch" (JStr "main"));
  try_except
    (start_bot_try_with run_cmd bot_name bot_config bot_env bot_dir
                        requirements_file bot_file branch)
    start_bot_catches
    (start_bot_handler bot_name).

(** ** Stopping *)

(** [Popen.terminate()]. *)
Definition proc_terminate (h : handle) : M unit := λ s,
  (Ok (),
   set_procs (alter (λ p, if alive p then mkProcess true true (grace p)
                          else p) h (procs s))
             (set_trace (λ t, t ++ [Terminate h]) s)).

(** [Popen.wait(timeout)]: returns once the process has exited, raises
    [TimeoutExpired] when the timeout runs out first. *)
Definition proc_wait (h : handle) (timeout : nat) : M unit := λ s,
  let s1 := set_trace (λ t, t ++ [Wait h timeout]) s in
  match procs s !! h with
  | Some p =>
      if alive p then
        match (if asked p then grace p else None) with
        | Some g =>
            if Nat.leb g timeout then
              (Ok (), set_clock (clock s + g)
                        (set_procs (<[h := mkProcess false true (grace p)]>
                                      (procs s)) s1))
            else (Raise TimeoutExpired, set_clock (clock s + timeout) s1)
        | None => (Raise TimeoutExpired, set_clock (clock s + timeout) s1)
        end
      else (Ok (), s1)
  | None => (Ok (), s1)
  end.

(** [Popen.kill()]. *)
Definition proc_kill (h : handle) : M unit := λ s,
  (Ok (),
   set_procs (alter (λ p, mkProcess false (asked p) (grace p)) h (procs s))
             (set_trace (λ t, t ++ [Kill h]) s)).

Definition is_TimeoutExpired (e : exn) : bool :=
  match e with TimeoutExpired => true | _ => false end.

Definition stop_bot (bot_name : string) : M unit :=
  logging_info ("Stopping bot: " +:+ bot_name);;
  s ← get_state;
  match dict_get bot_name (bot_processes s) with
  | Some bot_process =>
      try_except
        (proc_terminate bot_process;;
         proc_wait bot_process 5;;
         logging_info ("Bot " +:+ bot_name +:+ " stopped successfully."))
        is_TimeoutExpired
        (λ _,
           logging_warning ("Bot " +:+ bot_name +:+
                            " did not terminate in time; force killing...");;
           proc_kill bot_process)
  | None =>
      logging_warning ("No running process found for bot: " +:+ bot_name)
  end.

Fixpoint for_each {A} (l : list A) (body : A → M unit) : M unit :=
  match l with
  | [] => mret ()
  | x :: l' => body x;; for_each l' body
  end.

Definition signal_handler : M unit :=
  logging_info "Shutting down...";;
  s ← get_state;
  for_each (dict_keys (bot_processes s)) stop_bot;;
  logging_info "All bots stopped.";;
  raise (SystemExit 0).

(** ** The fan-out *)

(** [executor.submit(task)]: the task runs and its outcome, a value or
    an exception, is kept in the future.  The tasks of the pool are run
    one after the other in submission order. *)
Definition submit {A} (task : M A) : M (result A) := λ s,
  let (r, s') := task s in (Ok r, s').

Fixpoint submit_all (bots : dict json)
    : M (list (result (option string) * string)) :=
  match bots with
  | [] => mret []
  | (name, config) :: rest =>
      future ← submit (start_bot name config);
      futures ← submit_all rest;
      mret ((future, name) :: futures)
  end.

(** Lines 147-151: [future.result()] under [except Exception]. *)
Definition collect (future : result (option string) * string) : M unit :=
  try_except (lift future.1;; mret ())
    is_Exception
    (λ e, logging_error ("Error in executing bot: " +:+ exn_str e)).

Definition main (bots : dict json) : M unit :=
  logging_info "Starting bot manager...";;
  when_ (Nat.eqb (length bots) 0)
    (raise (ValueError "max_workers must be greater than 0"));;
  futures ← submit_all bots;
  for_each futures collect;;
  logging_info "Bot manager has completed its tasks.".

(** ** The module as a script *)

Variable cwd : Path.          (* the directory the supervisor is started in *)

Definition LOG_FILE : string := "bot_manager.log".

Definition logs_dir : Path := parse_path "/app/logs".

(** Lines 14-22, run when the module is loaded: the rotating handler
    opens [bot_manager.log] in the working directory, then the log
    directory is created if it is missing.  An [OSError] here ends the
    interpreter before anything else is done.  The rotation of the log
    file is not modelled. *)
Definition startup : M unit :=
  fs_open_a (path_join cwd LOG_FILE);;
  found ← fs_exists logs_dir;
  when_ (negb found) (fs_mkdir logs_dir).

(** The module run as a script: lines 14-22, lines 55-56 on the
    document read from [config.json], then [main()]. *)
Definition script (document : json) : M unit :=
  startup;;
  bots ← load_config "config.json" document;
  (λ s, (Ok (), set_bot_processes [] s));;
  main bots.

(** The exit status of the interpreter for an outcome of the script. *)
Definition exit_status {A} (r : result A) : Z :=
  match r with
  | Ok _ => 0
  | Raise (SystemExit code) => code
  | Raise _ => 1
  end.

End Worker.

Definition initial_state (t : node) : state := mkState [] 0 t [] ∅ 0.

(** ** Sample data *)

Definition sample_words : list string := ["brave"; "otter"].

Definition sample_rng (n : nat) : nat := n.

Definition sample_environ : gmap string string := {["HOME" := "/root"]}.

Definition sample_float_repr (x : float) : string :=
  if PrimFloat.eqb x 0.5%float then "0.5" else "nan".

Definition sample_str_repr (s : string) : string := "'" +:+ s +:+ "'".

Definition sample_exn_str (e : exn) : string :=
  match e with
  | ValueError msg => msg
  | CalledProcessError _ _ => "Command returned non-zero exit status."
  | OSError _ => "[Errno]"
  | _ => ""
  end.

(** A host with the log directory in place. *)
Definition sample_fs : node := Dir {["app" := Dir {["logs" := Dir ∅]}]}.

(** Commands that all succeed; the fetch creates its target. *)
Definition all_succeed (history : list event) (a : run_args) (t : node)
    : proc_outcome :=
  match argv a with
  | ["git"; _; _; _; _; _; target] =>
      match mkdir_parents t (parts (parse_path target)) with
      | Ok t' => Completed 0 "" t'
      | Raise _ => Completed 128 "fatal: could not create work tree" t
      end
  | _ => Completed 0 "" t
  end.

(** Commands of a host where the fetch fails. *)
Definition fetch_fails (history : list event) (a : run_args) (t : node)
    : proc_outcome :=
  match argv a with
  | "git" :: _ => Completed 128 "fatal: repository not found" t
  | _ => Completed 0 "" t
  end.

Definition sample_env : dict json := [("A", JStr "1"); ("B", JNull)].

Definition sample_config : dict json :=
  [("source", JStr "https://example.test/repo.git");
   ("run", JStr "echo.py");
   ("env", JObj sample_env)].

Definition sample_document : dict json := [("echo", JObj sample_config)].

(** An entry without its [env], and one whose source is a local path. *)
Definition incomplete_config : dict json :=
  [("source", JStr "https://example.test/repo.git"); ("run", JStr "echo.py")].

Definition local_config : dict json :=
  [("source", JStr "/srv/repos/echo.git");
   ("run", JStr "echo.py");
   ("env", JObj [])].

(** A manifest whose second entry is incomplete, and one whose only
    entry has a local path for source. *)
Definition two_entries : dict json :=
  [("a", JObj sample_config); ("b", JObj incomplete_config)].

Definition local_document : dict json := [("files", JObj local_config)].

(** A workload started by a shell script, with values of several types
    in its environment. *)
Definition mixed_env : dict json :=
  [("PORT", JInt 8080); ("DEBUG", JBool true); ("NAME", JStr "echo");
   ("UNUSED", JNull)].

Definition shell_config : dict json :=
  [("source", JStr "https://example.test/repo.git");
   ("run", JStr "start.sh");
   ("env", JObj mixed_env)].

(** Entries that [load_config] accepts and [start_bot] cannot use as
    they are: one whose [env] is null, one whose [branch] is null. *)
Definition null_env_config : dict json :=
  [("source", JStr "https://example.test/repo.git");
   ("run", JStr "echo.py");
   ("env", JNull)].

Definition null_env_document : dict json :=
  [("echo", JObj sample_config); ("void", JObj null_env_config)].

Definition null_branch_config : dict json :=
  [("source", JStr "https://example.test/repo.git");
   ("run", JStr "echo.py");
   ("env", JObj sample_env);
   ("branch", JNull)].

(** Entries whose source tells apart the network schemes from the
    prefix [http]. *)
Definition ssh_config : dict json :=
  [("source", JStr "ssh://git@example.test/repo.git");
   ("run", JStr "echo.py");
   ("env", JObj [])].

Definition httpd_config : dict json :=
  [("source", JStr "httpd-data/repo");
   ("run", JStr "echo.py");
   ("env", JObj [])].

(** The directory the sample supervisor is started in. *)
Definition sample_cwd : Path := parse_path "/app".

(** A host where [/app] is a file; the supervisor is started in [/srv]. *)
Definition blocked_fs : node := Dir {["srv" := Dir ∅; "app" := File]}.

(** A host on which an earlier run has left its working directory. *)
Definition stale_fs : node :=
  Dir {["app" :=
          Dir {["logs" := Dir ∅;
                "brave_otter_echo" :=
                  Dir {["old.txt" := File; "cache" := Dir ∅]}]}]}.

(** A state with one tracked process that ignores requests to
    terminate. *)
Definition stubborn_state : state :=
  mkState [] 0 sample_fs [("brave otter echo", 7)]
          {[7 := mkProcess true false None]} 0.

(** ** Vocabulary of the statements *)

(** An entry holds the three required keys. *)
Definition has_required (d : dict json) : bool :=
  dict_has "source" d && dict_has "run" d && dict_has "env" d.

(** An entry that [load_config] accepts. *)
Definition valid_entry (bot_config : json) : bool :=
  match bot_config with
  | JObj d =>
      has_required d &&
      match dict_get "source" d with
      | Some (JStr src) => startswith src "http"
      | _ => false
      end
  | _ => false
  end.

(** An entry of the shape the manifest format prescribes: an object
    whose [source], when it is there, is a string. *)
Definition typed_entry (bot_config : json) : bool :=
  match bot_config with
  | JObj d =>
      match dict_get "source" d with
      | Some (JStr _) | None => true
      | Some _ => false
      end
  | _ => false
  end.

(** The two messages of the [ValueError] of [load_config]. *)
Definition missing_fields_msg (prefixed_bot_name : string) : string :=
  "Invalid configuration for " +:+ prefixed_bot_name +:+ ".".
Definition bad_source_msg (prefixed_bot_name : string) : string :=
  "Invalid source URL for " +:+ prefixed_bot_name +:+ ".".

(** The name a workload gets from a two-word prefix. *)
Definition prefixed (word1 word2 bot_name : string) : string :=
  (word1 +:+ " " +:+ word2) +:+ " " +:+ bot_name.

(** The events a computation adds to the trace. *)
Definition emitted (s s' : state) (evs : list event) : Prop :=
  trace s' = trace s ++ evs.

(** The environment loop of [start_bot] without its log records. *)
Definition bot_env_of (render : json → string) (items : dict json)
    (base : gmap string string) : gmap string string :=
  foldl (λ bot_env kv,
           match kv.2 with
           | JNull => bot_env
           | v => <[kv.1 := render v]> bot_env
           end) base items.

(** The variables a specification sets: its entries that are not null,
    each rendered as a string. *)
Definition env_overrides (render : json → string) (items : dict json)
    : gmap string string :=
  list_to_map (omap (λ kv, match kv.2 with
                           | JNull => None
                           | v => Some (kv.1, render v)
                           end) items).

(** The base environment extended and overridden by the variables a
    specification sets. *)
Definition merged_env (render : json → string) (items : dict json)
    (base : gmap string string) : gmap string string :=
  env_overrides render items ∪ base.

(** The three external commands of a workload. *)
Definition clone_cmd (branch source : string) (bot_dir : Path) : run_args :=
  mkRun ["git"; "clone"; "-b"; branch; "--single-branch"; source;
         path_str bot_dir] None None true None None.

Definition install_cmd (requirements_file : Path) : run_args :=
  mkRun ["pip"; "install"; "--no-cache-dir"; "-r";
         path_str requirements_file] None None false None None.

Definition launch_cmd (interpreter : string) (bot_dir bot_file : Path)
    (bot_env : gmap string string) (log_file : string) : run_args :=
  mkRun [interpreter; path_str bot_file] (Some (path_str bot_dir))
        (Some bot_env) false (Some log_file) (Some log_file).

(** The interpreter [start_bot] picks for an entry point. *)
Definition interpreter_of (bot_file : Path) : string :=
  if String.eqb (path_suffix bot_file) ".sh" then "bash" else "python3".

(** The log file of a workload. *)
Definition log_file_of (bot_name : string) : string :=
  "/app/logs/" +:+ bot_name +:+ ".log".

(** What one run of the [try] block of [start_bot] and of its handlers
    leaves behind: the result [r] and the events [evs], for a workload
    with the given branch, working directory, entry point and
    environment. *)
Definition start_bot_post (exn_str : exn → string) (bot_name : string)
    (bot_config branch : json) (bot_dir requirements_file bot_file : Path)
    (bot_env : gmap string string)
    (r : result (option string)) (evs : list event) : Prop :=
  let launch := launch_cmd (interpreter_of bot_file) bot_dir bot_file bot_env
                           (log_file_of bot_name) in
  let install := install_cmd requirements_file in
  (* the commands that are run *)
  (∀ a o, Run a o ∈ evs →
     (∃ b src, branch = JStr b ∧
               py_getitem bot_config "source" = Ok (JStr src) ∧
               a = clone_cmd b src bot_dir) ∨
     a = install ∨ a = launch)
  (* the fetch exits with a status other than zero *)
  ∧ (∀ a rc err t,
       Run a (Completed rc err t) ∈ evs → capture_output a = true →
       rc ≠ 0%Z →
       r = Ok None ∧ runs_of evs = [a] ∧
       last evs = Some (Log ERROR ("Error while cloning " +:+ bot_name +:+
                                   ": " +:+ err)))
  (* the installation exits with a status other than zero *)
  ∧ (∀ rc err t,
       Run install (Completed rc err t) ∈ evs → rc ≠ 0%Z →
       r = Ok None ∧ last (runs_of evs) = Some install ∧
       last evs = Some (Log ERROR
                          ("Error while processing " +:+ bot_name +:+ ": " +:+
                           exn_str (CalledProcessError rc (argv install)))))
  (* a command cannot be started *)
  ∧ (∀ a e,
       Run a (SpawnFailed e) ∈ evs →
       r = Ok None ∧ last (runs_of evs) = Some a ∧
       last evs = Some (Log ERROR
                          ("Unexpected error while starting " +:+ bot_name +:+
                           ": " +:+ exn_str (OSError e))))
  (* the result *)
  ∧ match r with
    | Ok (Some log_file) =>
        log_file = log_file_of bot_name ∧
        last (runs_of evs) = Some launch ∧
        last evs = Some (Log INFO
                           (bot_name +:+
                            " started successfully. Logs can be found in " +:+
                            log_file_of bot_name))
    | Ok None => ∃ msg, last evs = Some (Log ERROR msg)
    | Raise e => e = TypeError ∨ e = KeyError "source"
    end.

(** A future that [except Exception] can empty: it never holds
    [SystemExit]. *)
Definition catchable (future : result (option string) * string) : Prop :=
  ∀ e, future.1 = Raise e → is_Exception e = true.

(** The effect of lines 76-82 on the file system: outcome and tree. *)
Definition prepare_fs (t : node) (p : list string) : result unit * node :=
  match (if path_exists t p then Ok t else mkdir_parents t p) with
  | Raise e => (Raise e, t)
  | Ok t1 => if path_exists t1 p then rmtree t1 p else (Ok (), t1)
  end.

(** A process that is still running when a wait of [timeout] after a
    request to terminate runs out. *)
Definition outlives (p : process) (timeout : nat) : bool :=
  alive p &&
  match grace p with
  | Some g => negb (Nat.leb g timeout)
  | None => true
  end.

(** Weakest precondition: [Q] holds of the outcome of [m] from [s]. *)
Definition wp {A} (m : M A) (s : state) (Q : result A → state → Prop)
    : Prop :=
  Q (m s).1 (m s).2.

(** ** Further vocabulary *)

(** The commands run, each with its outcome, in order. *)
Definition outcomes_of (t : list event) : list (run_args * proc_outcome) :=
  omap (λ e, match e with Run a o => Some (a, o) | _ => None end) t.

Definition is_log (e : event) : bool :=
  match e with Log _ _ => true | _ => false end.

(** From [s] to [s'] nothing happened but log records and random
    draws. *)
Definition only_logs (s s' : state) : Prop :=
  fs s' = fs s ∧ bot_processes s' = bot_processes s ∧
  procs s' = procs s ∧ clock s' = clock s ∧
  ∃ evs, emitted s s' evs ∧ Forall (λ e, is_log e = true) evs.

(** [c in s] for a character [c]. *)
Fixpoint has_char (c : ascii) (s : string) : bool :=
  match s with
  | EmptyString => false
  | String a s' => Ascii.eqb a c || has_char c s'
  end.

(** Two paths neither of which leads to the other. *)
Definition apart (p q : list string) : Prop :=
  ¬ p `prefix_of` q ∧ ¬ q `prefix_of` p.

(** The events of a trace that act on a process, with the handle. *)
Definition signalled (t : list event) : list handle :=
  omap (λ e, match e with
             | Terminate h | Wait h _ | Kill h => Some h
             | _ => None
             end) t.

(** The keys of [nb] are prefixed forms of [names], one by one, with
    words that hold no space. *)
Definition named (nb : dict json) (names : list string) : Prop :=
  Forall2 (λ kc n, ∃ w1 w2, has_char " " w1 = false ∧
                            has_char " " w2 = false ∧
                            kc.1 = prefixed w1 w2 n) nb names.

(** The order in which the [try] block of [start_bot] runs its
    commands, with what each one must have given for the next to be
    run, what the opening of the log file gave in the tree the last
    command left, and what the result owes to them. *)
Definition start_bot_order (exn_str : exn → string) (bot_name : string)
    (bot_config branch : json) (bot_dir requirements_file bot_file : Path)
    (bot_env : gmap string string)
    (r : result (option string)) (evs : list event) : Prop :=
  let launch := launch_cmd (interpreter_of bot_file) bot_dir bot_file bot_env
                           (log_file_of bot_name) in
  let install := install_cmd requirements_file in
  let required t := path_exists t (parts requirements_file) in
  let log_path := parts (parse_path (log_file_of bot_name)) in
  let opened t := ∃ t1, open_w t log_path = Ok t1 in
  let unopened t :=
    ∃ e, open_w t log_path = Raise (OSError e) ∧ r = Ok None ∧
         last evs = Some (Log ERROR
                            ("Unexpected error while starting " +:+
                             bot_name +:+ ": " +:+ exn_str (OSError e))) in
  (outcomes_of evs = [] ∨
   ∃ b src,
     branch = JStr b ∧ py_getitem bot_config "source" = Ok (JStr src) ∧
     ((∃ o, outcomes_of evs = [(clone_cmd b src bot_dir, o)] ∧
            ∀ err t, o = Completed 0 err t →
                     required t = false ∧ unopened t) ∨
      (∃ err t o,
         outcomes_of evs = [(clone_cmd b src bot_dir, Completed 0 err t);
                            (install, o)] ∧
         required t = true ∧
         ∀ err' t', o = Completed 0 err' t' → unopened t') ∨
      (∃ err t o,
         outcomes_of evs = [(clone_cmd b src bot_dir, Completed 0 err t);
                            (launch, o)] ∧
         required t = false ∧ opened t) ∨
      (∃ err t err' t' o,
         outcomes_of evs = [(clone_cmd b src bot_dir, Completed 0 err t);
                            (install, Completed 0 err' t');
                            (launch, o)] ∧
         required t = true ∧ opened t')))
  ∧ (∀ rc err t,
       Run launch (Completed rc err t) ∈ evs →
       r = Ok (Some (log_file_of bot_name)))
  ∧ (∀ k, r = Raise (KeyError k) →
          py_getitem bot_config "source" = Raise (KeyError k))
  ∧ (r = Raise TypeError →
     (∀ b, branch ≠ JStr b) ∨
     (∀ src, py_getitem bot_config "source" ≠ Ok (JStr src))).

(** ** Vocabulary on failures, the file system and the tracking table *)

(** In the words of the specification: the source begins with a network
    scheme prefix, that is with the name of a scheme over which a
    repository is fetched from another host, followed by [://]. *)
Definition network_schemes : list string :=
  ["http"; "https"; "ftp"; "ftps"; "ssh"; "git"].

Definition has_network_scheme (source : string) : bool :=
  existsb (λ scheme, startswith source (scheme +:+ "://")) network_schemes.

(** A component that names a child of a directory and nothing else: a
    component as [pathlib] keeps them (not empty, not [.], without a
    slash), not [..], and without a NUL character. *)
Definition ordinary (c : string) : bool :=
  is_component c && negb (has_char "/" c) &&
  negb (String.eqb c "..") && negb (has_char Ascii.zero c).

Definition ordinary_path (p : list string) : Prop :=
  Forall (λ c, ordinary c = true) p.

(** The way to [p] is free: [p] is not the root, and whatever exists on
    the way to [p], [p] included, is a directory. *)
Definition preparable (t : node) (p : list string) : Prop :=
  p ≠ [] ∧
  ∀ q rest n, p = q ++ rest → lookup_path t q = Some n → ∃ ch, n = Dir ch.

(** The start of the module succeeds on the tree [t]: the log file of
    the supervisor can be opened in the working directory, and after
    that the log directory exists or can be created. *)
Definition startup_ok (cwd : Path) (t : node) : Prop :=
  ∃ t1, open_w t (parts (path_join cwd LOG_FILE)) = Ok t1 ∧
        (path_exists t1 (parts logs_dir) = true ∨
         ∃ t2, mkdir_parents t1 (parts logs_dir) = Ok t2).

(** What [start_bot] leaves of the state it was given, and what is left
    after a fetch that exited with a status other than zero: the tree
    the fetch left, and after the fetch the error record only. *)
Definition start_bot_frame (bot_name : string) (s s' : state)
    (evs : list event) : Prop :=
  bot_processes s' = bot_processes s ∧ procs s' = procs s ∧
  draws s' = draws s ∧
  ∀ a rc err t,
    Run a (Completed rc err t) ∈ evs → capture_output a = true →
    rc ≠ 0%Z →
    fs s' = t ∧
    ∃ pre, evs = pre ++ [Run a (Completed rc err t);
                         Log ERROR ("Error while cloning " +:+ bot_name +:+
                                    ": " +:+ err)] ∧
           runs_of pre = [].

(** The two records of a stop request that finds no process. *)
Definition stopped_in_vain (bot_name : string) : list event :=
  [Log INFO ("Stopping bot: " +:+ bot_name);
   Log WARNING ("No running process found for bot: " +:+ bot_name)].

(** No process was signalled, and while each command that ran to its
    end was running, a request to stop the workload found nothing. *)
Definition found_nothing (bot_name : string) (evs : list event) : Prop :=
  signalled evs = [] ∧
  ∀ a rc err t, Run a (Completed rc err t) ∈ evs →
    ∃ pre post, evs = pre ++ stopped_in_vain bot_name ++
                      [Run a (Completed rc err t)] ++ post.

(** * Properties *)

(** ** The monad *)

Lemma bind_run {A B} (m : M A) (f : A → M B) (s : state) :
  (m ≫= f) s = match m s with
               | (Ok a, s') => f a s'
               | (Raise e, s') => (Raise e, s')
               end.
Proof. reflexivity. Qed.

Lemma emitted_refl s : emitted s s [].
Proof. unfold emitted. by rewrite app_nil_r. Qed.

Lemma emitted_trans s1 s2 s3 evs evs' :
  emitted s1 s2 evs → emitted s2 s3 evs' → emitted s1 s3 (evs ++ evs').
Proof. unfold emitted. intros H1 H2. by rewrite H2, H1, app_assoc. Qed.

(** ** Loading the configuration *)

Section Loading.
Variable WORD_LIST : list string.
Variable rng : nat → nat.
Hypothesis words : WORD_LIST ≠ [].


Lemma random_choice_ok s :
  ∃ w, w ∈ WORD_LIST ∧
       random_choice rng WORD_LIST s = (Ok w, set_draws (S (draws s)) s).
Proof using words.
  unfold random_choice.
  destruct WORD_LIST as [|w0 ws] eqn:E; [done|]. rewrite <- E.
  assert (Hlt : rng (draws s) mod length WORD_LIST < length WORD_LIST).
  { apply Nat.mod_upper_bound. rewrite E. simpl. lia. }
  apply lookup_lt_is_Some in Hlt as [w Hw]. rewrite Hw.
  exists w. split; [|done]. by eapply list_elem_of_lookup_2.
Qed.

Lemma generate_prefix_ok s :
  ∃ w1 w2 s',
    w1 ∈ WORD_LIST ∧ w2 ∈ WORD_LIST ∧
    generate_prefix WORD_LIST rng s = (Ok (w1 +:+ " " +:+ w2), s') ∧
    emitted s s' [Log INFO ("Generated prefix: " +:+ w1 +:+ " " +:+ w2)].
Proof using words.
  destruct (random_choice_ok s) as (w1 & Hw1 & E1).
  destruct (random_choice_ok (set_draws (S (draws s)) s)) as (w2 & Hw2 & E2).
  exists w1, w2. eexists. split; [done|]. split; [done|].
  unfold generate_prefix. rewrite bind_run, E1, bind_run, E2.
  split; [reflexivity|]. reflexivity.
Qed.

Lemma dict_has_get {V} k (d : dict V) :
  dict_has k d = true ↔ is_Some (dict_get k d).
Proof.
  unfold dict_has, dict_keys. induction d as [|[k' v] d IH]; simpl.
  - split; [done|]. by intros [? ?].
  - destruct (String.eqb k k'); simpl; [by split; eauto|done].
Qed.

Lemma all_in_required d :
  all_in ["source"; "run"; "env"] (JObj d) = Ok (has_required d).
Proof.
  unfold has_required. simpl.
  destruct (dict_has "source" d); [|done].
  destruct (dict_has "run" d); [|done].
  by destruct (dict_has "env" d).
Qed.

Lemma check_entry_valid p cfg nb s :
  valid_entry cfg = true →
  check_entry p cfg nb s =
    (Ok (dict_set p cfg nb),
     set_trace (λ t, t ++ [Log INFO ("Loaded configuration for " +:+ p)]) s).
Proof.
  destruct cfg as [| | | | |?|d]; try done. simpl.
  intros [Hreq Hsrc]%andb_true_iff.
  unfold check_entry. rewrite all_in_required, Hreq.
  destruct (dict_get "source" d) as [[| | | |src| |]|] eqn:E; try done.
  unfold mbind, M_bind, lift, py_getitem. simpl. rewrite E. simpl.
  by rewrite Hsrc.
Qed.

Lemma check_entry_missing p d nb s :
  has_required d = false →
  check_entry p (JObj d) nb s =
    (Raise (ValueError (missing_fields_msg p)),
     set_trace (λ t, t ++ [Log ERROR ("Configuration for " +:+ p +:+
                                      " is missing required fields.")]) s).
Proof.
  intros Hreq. unfold check_entry. by rewrite all_in_required, Hreq.
Qed.

Lemma check_entry_bad_source p d src nb s :
  has_required d = true →
  dict_get "source" d = Some (JStr src) →
  startswith src "http" = false →
  check_entry p (JObj d) nb s =
    (Raise (ValueError (bad_source_msg p)),
     set_trace (λ t, t ++ [Log ERROR ("Invalid source URL for " +:+ p +:+
                                      ".")]) s).
Proof.
  intros Hreq E Hsrc. unfold check_entry. rewrite all_in_required, Hreq.
  unfold mbind, M_bind, lift, py_getitem. simpl. rewrite E. simpl.
  by rewrite Hsrc.
Qed.

Lemma last_log_snoc t l m :
  last (log_of (t ++ [Log l m])) = Some (l, m).
Proof. unfold log_of. rewrite omap_app. simpl. apply last_snoc. Qed.

Lemma load_entry_valid name cfg nb s :
  valid_entry cfg = true →
  ∃ w1 w2 s', w1 ∈ WORD_LIST ∧ w2 ∈ WORD_LIST ∧
    load_entry WORD_LIST rng name cfg nb s =
      (Ok (dict_set (prefixed w1 w2 name) cfg nb), s').
Proof using words.
  intros Hv. destruct (generate_prefix_ok s) as (w1 & w2 & s1 & ? & ? & E & _).
  exists w1, w2. eexists. split; [done|]. split; [done|].
  unfold load_entry. rewrite bind_run, E. by apply check_entry_valid.
Qed.

Lemma load_entry_missing name d nb s :
  has_required d = false →
  ∃ w1 w2 s', w1 ∈ WORD_LIST ∧ w2 ∈ WORD_LIST ∧
    load_entry WORD_LIST rng name (JObj d) nb s =
      (Raise (ValueError (missing_fields_msg (prefixed w1 w2 name))), s') ∧
    last (log_of (trace s')) =
      Some (ERROR, "Configuration for " +:+ prefixed w1 w2 name +:+
                   " is missing required fields.").
Proof using words.
  intros Hm. destruct (generate_prefix_ok s) as (w1 & w2 & s1 & ? & ? & E & _).
  exists w1, w2. eexists. split; [done|]. split; [done|].
  unfold load_entry. rewrite bind_run, E. split.
  - by apply check_entry_missing.
  - apply last_log_snoc.
Qed.

Lemma load_entry_bad_source name d src nb s :
  has_required d = true →
  dict_get "source" d = Some (JStr src) →
  startswith src "http" = false →
  ∃ w1 w2 s', w1 ∈ WORD_LIST ∧ w2 ∈ WORD_LIST ∧
    load_entry WORD_LIST rng name (JObj d) nb s =
      (Raise (ValueError (bad_source_msg (prefixed w1 w2 name))), s') ∧
    last (log_of (trace s')) =
      Some (ERROR, "Invalid source URL for " +:+ prefixed w1 w2 name +:+ ".").
Proof using words.
  intros Hr Hs Hp.
  destruct (generate_prefix_ok s) as (w1 & w2 & s1 & ? & ? & E & _).
  exists w1, w2. eexists. split; [done|]. split; [done|].
  unfold load_entry. rewrite bind_run, E. split.
  - by eapply check_entry_bad_source.
  - apply last_log_snoc.
Qed.

(** A typed entry that is not accepted is refused with one of the two
    [ValueError]s, under its own name. *)
Lemma load_entry_refused name cfg nb s :
  typed_entry cfg = true → valid_entry cfg = false →
  ∃ w1 w2 s', w1 ∈ WORD_LIST ∧ w2 ∈ WORD_LIST ∧
    (load_entry WORD_LIST rng name cfg nb s =
       (Raise (ValueError (missing_fields_msg (prefixed w1 w2 name))), s') ∨
     load_entry WORD_LIST rng name cfg nb s =
       (Raise (ValueError (bad_source_msg (prefixed w1 w2 name))), s')).
Proof using words.
  destruct cfg as [| | | | |?|d]; try done. simpl. intros Ht Hv.
  destruct (has_required d) eqn:Hr.
  - destruct (dict_get "source" d) as [[| | | |src| |]|] eqn:E; try done.
    + destruct (load_entry_bad_source name d src nb s) as
        (w1 & w2 & s' & ? & ? & El & _); [done..|]. eauto 10.
    + apply andb_true_iff in Hr as [[Hr _]%andb_true_iff _].
      apply dict_has_get in Hr as [? Hr]. congruence.
  - destruct (load_entry_missing name d nb s) as
      (w1 & w2 & s' & ? & ? & El & _); [done|]. eauto 10.
Qed.

Lemma load_loop_cons n c rest nb s :
  load_loop WORD_LIST rng ((n, c) :: rest) nb s =
    match load_entry WORD_LIST rng n c nb s with
    | (Ok nb', s') => load_loop WORD_LIST rng rest nb' s'
    | (Raise e, s') => (Raise e, s')
    end.
Proof. reflexivity. Qed.

(** The loop runs through accepted entries. *)
Lemma load_loop_through pre rest nb s :
  Forall (λ nc, valid_entry nc.2 = true) pre →
  ∃ nb' s', load_loop WORD_LIST rng (pre ++ rest) nb s =
            load_loop WORD_LIST rng rest nb' s'.
Proof using words.
  intros Hpre. revert nb s.
  induction Hpre as [|[n c] pre Hc _ IH]; intros nb s; [by eauto|].
  destruct (load_entry_valid n c nb s Hc) as (w1 & w2 & s' & _ & _ & E).
  rewrite <- app_comm_cons, load_loop_cons, E. apply IH.
Qed.

(** An entry that is refused in every state makes the loop fail. *)
Lemma load_loop_fails items n c nb s :
  (n, c) ∈ items →
  (∀ nb s, ∃ e s', load_entry WORD_LIST rng n c nb s = (Raise e, s')) →
  ∃ e s', load_loop WORD_LIST rng items nb s = (Raise e, s').
Proof.
  intros Hin Hfail. revert nb s.
  induction items as [|[n' c'] items IH]; intros nb s.
  { by apply elem_of_nil in Hin. }
  rewrite load_loop_cons.
  destruct (load_entry WORD_LIST rng n' c' nb s) as [[nb'|e] s'] eqn:E.
  - apply elem_of_cons in Hin as [Heq|Hin]; [|by apply IH].
    simplify_eq. destruct (Hfail nb s) as (? & ? & ?). congruence.
  - eauto.
Qed.

(** In a manifest of typed entries the loop fails at the first entry
    that is not accepted, with a [ValueError] that names it. *)
Lemma load_loop_first_refused items nb s :
  Forall (λ nc, typed_entry nc.2 = true) items →
  Exists (λ nc, valid_entry nc.2 = false) items →
  ∃ n c w1 w2 s',
    (n, c) ∈ items ∧ valid_entry c = false ∧
    w1 ∈ WORD_LIST ∧ w2 ∈ WORD_LIST ∧
    (load_loop WORD_LIST rng items nb s =
       (Raise (ValueError (missing_fields_msg (prefixed w1 w2 n))), s') ∨
     load_loop WORD_LIST rng items nb s =
       (Raise (ValueError (bad_source_msg (prefixed w1 w2 n))), s')).
Proof using words.
  intros Hty. revert nb s.
  induction Hty as [|[n c] items Ht _ IH]; intros nb s Hex.
  { by apply Exists_nil in Hex. }
  rewrite load_loop_cons. simpl in Ht.
  destruct (valid_entry c) eqn:Hv.
  - destruct (load_entry_valid n c nb s Hv) as (v1 & v2 & s1 & _ & _ & E).
    rewrite E. apply Exists_cons in Hex as [Hex|Hex]; [simpl in Hex; congruence|].
    destruct (IH (dict_set (prefixed v1 v2 n) c nb) s1 Hex)
      as (n' & c' & w1 & w2 & s' & ? & ? & ? & ? & Hl).
    exists n', c', w1, w2, s'. split; [by apply elem_of_cons; right|]. done.
  - destruct (load_entry_refused n c nb s Ht Hv)
      as (w1 & w2 & s' & ? & ? & [E|E]); rewrite E;
      exists n, c, w1, w2, s'; (split; [by apply elem_of_cons; left|]); eauto.
Qed.

Lemma load_config_run file items s :
  load_config WORD_LIST rng file (JObj items) s =
    match load_loop WORD_LIST rng items []
            (set_trace (λ t, t ++ [Log INFO ("Loading configuration from "
                                              +:+ file)]) s) with
    | (Ok nb, s') =>
        (Ok nb,
         set_trace (λ t, t ++ [Log INFO "Configuration loading complete."]) s')
    | (Raise e, s') => (Raise e, s')
    end.
Proof.
  unfold load_config. rewrite bind_run. simpl. rewrite bind_run. simpl.
  rewrite bind_run.
  by destruct (load_loop _ _ _ _ _) as [[?|?] ?].
Qed.

(** C3. A manifest with an entry that lacks one of [source], [run] and
    [env] is refused as a whole: [load_config] raises and returns no
    workload, whatever precedes the entry.  When the entries before it
    are accepted, the exception is the [ValueError] that names this
    entry under its prefixed name, and the last record logged is the
    error about its missing fields.  In a manifest whose entries all
    have the prescribed shape the exception is always a [ValueError]
    that names an entry of the manifest that is not acceptable, the
    first one in document order. *)
Theorem load_config_missing_field file items name d s :
  (name, JObj d) ∈ items →
  has_required d = false →
  (∃ e s', load_config WORD_LIST rng file (JObj items) s = (Raise e, s'))
  ∧ (∀ pre post,
       items = pre ++ (name, JObj d) :: post →
       Forall (λ nc, valid_entry nc.2 = true) pre →
       ∃ w1 w2 s', w1 ∈ WORD_LIST ∧ w2 ∈ WORD_LIST ∧
         load_config WORD_LIST rng file (JObj items) s =
           (Raise (ValueError (missing_fields_msg (prefixed w1 w2 name))), s')
         ∧ last (log_of (trace s')) =
             Some (ERROR, "Configuration for " +:+ prefixed w1 w2 name +:+
                          " is missing required fields."))
  ∧ (Forall (λ nc, typed_entry nc.2 = true) items →
     ∃ n c w1 w2 s',
       (n, c) ∈ items ∧ valid_entry c = false ∧
       w1 ∈ WORD_LIST ∧ w2 ∈ WORD_LIST ∧
       (load_config WORD_LIST rng file (JObj items) s =
          (Raise (ValueError (missing_fields_msg (prefixed w1 w2 n))), s') ∨
        load_config WORD_LIST rng file (JObj items) s =
          (Raise (ValueError (bad_source_msg (prefixed w1 w2 n))), s'))).
Proof using words.
  intros Hin Hmiss. split; [|split].
  - rewrite load_config_run.
    edestruct (load_loop_fails items name (JObj d)) as (e & s' & E); [done| |].
    { intros nb s0.
      destruct (load_entry_missing name d nb s0 Hmiss)
        as (? & ? & ? & _ & _ & E & _). eauto. }
    rewrite E. eauto.
  - intros pre post -> Hpre. rewrite load_config_run.
    edestruct (load_loop_through pre ((name, JObj d) :: post)) as (nb & s1 & E);
      [done|].
    rewrite E, load_loop_cons.
    destruct (load_entry_missing name d nb s1 Hmiss)
      as (w1 & w2 & s' & ? & ? & El & Hlog).
    rewrite El. eauto 10.
  - intros Hty. rewrite load_config_run.
    edestruct (load_loop_first_refused items) as
      (n & c & w1 & w2 & s' & ? & ? & ? & ? & [E|E]); [done| | |].
    + apply Exists_exists. exists (name, JObj d). split; [done|]. simpl.
      by rewrite Hmiss.
    + rewrite E. eauto 12.
    + rewrite E. eauto 12.
Qed.

(** C4. An entry whose [source] is a string that does not start with
    [http] makes [load_config] fail: it raises whatever precedes the
    entry; when the entries before it are accepted the exception is a
    [ValueError] under the entry's prefixed name (the one about the
    source URL when [run] and [env] are there too); and in a manifest of
    the prescribed shape it is always a [ValueError] naming the first
    entry that is not acceptable.  An entry whose [source] starts with
    [http] is never refused for its source, and is stored under its
    prefixed name once the three keys are present. *)
Theorem load_config_source_scheme file items name d src s :
  (name, JObj d) ∈ items →
  dict_get "source" d = Some (JStr src) →
  (startswith src "http" = false →
     (∃ e s', load_config WORD_LIST rng file (JObj items) s = (Raise e, s'))
     ∧ (∀ pre post,
          items = pre ++ (name, JObj d) :: post →
          Forall (λ nc, valid_entry nc.2 = true) pre →
          ∃ w1 w2 s', w1 ∈ WORD_LIST ∧ w2 ∈ WORD_LIST ∧
            load_config WORD_LIST rng file (JObj items) s =
              (Raise (ValueError
                        (if has_required d
                         then bad_source_msg (prefixed w1 w2 name)
                         else missing_fields_msg (prefixed w1 w2 name))), s'))
     ∧ (Forall (λ nc, typed_entry nc.2 = true) items →
        ∃ n c w1 w2 s',
          (n, c) ∈ items ∧ valid_entry c = false ∧
          w1 ∈ WORD_LIST ∧ w2 ∈ WORD_LIST ∧
          (load_config WORD_LIST rng file (JObj items) s =
             (Raise (ValueError (missing_fields_msg (prefixed w1 w2 n))), s') ∨
           load_config WORD_LIST rng file (JObj items) s =
             (Raise (ValueError (bad_source_msg (prefixed w1 w2 n))), s'))))
  ∧ (startswith src "http" = true →
     (∀ nb s0 w1 w2 s',
        load_entry WORD_LIST rng name (JObj d) nb s0 ≠
          (Raise (ValueError (bad_source_msg (prefixed w1 w2 name))), s'))
     ∧ (has_required d = true →
        ∀ nb s0, ∃ w1 w2 s', w1 ∈ WORD_LIST ∧ w2 ∈ WORD_LIST ∧
          load_entry WORD_LIST rng name (JObj d) nb s0 =
            (Ok (dict_set (prefixed w1 w2 name) (JObj d) nb), s'))).
Proof using words.
  intros Hin Hsrc. split.
  - intros Hbad.
    assert (Hinv : valid_entry (JObj d) = false).
    { simpl. rewrite Hsrc, Hbad. apply andb_false_r. }
    assert (Hfail : ∀ nb s0, ∃ w1 w2 s',
               w1 ∈ WORD_LIST ∧ w2 ∈ WORD_LIST ∧
               load_entry WORD_LIST rng name (JObj d) nb s0 =
                 (Raise (ValueError
                           (if has_required d
                            then bad_source_msg (prefixed w1 w2 name)
                            else missing_fields_msg (prefixed w1 w2 name))),
                  s')).
    { intros nb s0. destruct (has_required d) eqn:Hr.
      - destruct (load_entry_bad_source name d src nb s0)
          as (w1 & w2 & s' & ? & ? & E & _); eauto 10.
      - destruct (load_entry_missing name d nb s0)
          as (w1 & w2 & s' & ? & ? & E & _); eauto 10. }
    split; [|split].
    + rewrite load_config_run.
      edestruct (load_loop_fails items name (JObj d)) as (e & s' & E);
        [done| |].
      { intros nb s0. destruct (Hfail nb s0) as (? & ? & ? & _ & _ & E).
        eauto. }
      rewrite E. eauto.
    + intros pre post -> Hpre. rewrite load_config_run.
      edestruct (load_loop_through pre ((name, JObj d) :: post))
        as (nb & s1 & E); [done|].
      rewrite E, load_loop_cons.
      destruct (Hfail nb s1) as (w1 & w2 & s' & ? & ? & El).
      rewrite El. eauto 10.
    + intros Hty. rewrite load_config_run.
      edestruct (load_loop_first_refused items) as
        (n & c & w1 & w2 & s' & ? & ? & ? & ? & [E|E]); [done| | |].
      * apply Exists_exists. by exists (name, JObj d).
      * rewrite E. eauto 12.
      * rewrite E. eauto 12.
  - intros Hgood. split.
    + intros nb s0 w1 w2 s' E.
      destruct (has_required d) eqn:Hr.
      * destruct (load_entry_valid name (JObj d) nb s0)
          as (? & ? & ? & _ & _ & E'); [|congruence].
        simpl. by rewrite Hr, Hsrc.
      * destruct (load_entry_missing name d nb s0 Hr)
          as (v1 & v2 & ? & _ & _ & E' & _).
        rewrite E' in E. by injection E.
    + intros Hr nb s0. apply load_entry_valid. simpl. by rewrite Hr, Hsrc.
Qed.

End Loading.

(** ** A weakest-precondition calculus for [M] *)

Lemma wp_ret {A} (a : A) s Q : Q (Ok a) s → wp (mret a) s Q.
Proof. done. Qed.

Lemma wp_raise {A} e s (Q : result A → state → Prop) :
  Q (Raise e) s → wp (raise e) s Q.
Proof. done. Qed.

Lemma wp_lift {A} (r : result A) s Q : Q r s → wp (lift r) s Q.
Proof. done. Qed.

Lemma wp_get_state s Q : Q (Ok s) s → wp get_state s Q.
Proof. done. Qed.

Lemma wp_bind {A B} (m : M A) (f : A → M B) s Q :
  wp m s (λ r s', match r with
                  | Ok a => wp (f a) s' Q
                  | Raise e => Q (Raise e) s'
                  end) →
  wp (m ≫= f) s Q.
Proof. unfold wp. rewrite bind_run. by destruct (m s) as [[a|e] s']. Qed.

Lemma wp_try {A} (body : M A) (catches : exn → bool) (handler : exn → M A)
    s (Q : result A → state → Prop) :
  wp body s (λ r s', match r with
                     | Ok a => Q (Ok a) s'
                     | Raise e => if catches e then wp (handler e) s' Q
                                  else Q (Raise e) s'
                     end) →
  wp (try_except body catches handler) s Q.
Proof.
  unfold wp, try_except. destruct (body s) as [[a|e] s']; [done|].
  simpl. by destruct (catches e).
Qed.

Lemma wp_emit e s Q :
  Q (Ok ()) (set_trace (λ t, t ++ [e]) s) → wp (emit e) s Q.
Proof. done. Qed.

Lemma wp_sleep n s Q :
  Q (Ok ()) (set_clock (clock s + n) (set_trace (λ t, t ++ [Sleep n]) s)) →
  wp (time_sleep n) s Q.
Proof. done. Qed.

Lemma wp_when (b : bool) body s (Q : result unit → state → Prop) :
  (if b then wp body s Q else Q (Ok ()) s) → wp (when_ b body) s Q.
Proof. by destruct b. Qed.

Lemma wp_mono {A} (m : M A) s (Q Q' : result A → state → Prop) :
  wp m s Q → (∀ r s', Q r s' → Q' r s') → wp m s Q'.
Proof. unfold wp. eauto. Qed.

Lemma wp_fs_exists p s Q :
  Q (Ok (path_exists (fs s) (parts p))) s → wp (fs_exists p) s Q.
Proof. done. Qed.

Lemma mkdir_parents_raises t p e :
  mkdir_parents t p = Raise e → ∃ o, e = OSError o.
Proof.
  revert t. induction p as [|c p IH]; intros [|ch]; simpl; try naive_solver.
  destruct (mkdir_parents _ p) eqn:E; naive_solver.
Qed.

Lemma rmtree_below_raises t p e :
  rmtree_below t p = Raise e → ∃ o, e = OSError o.
Proof.
  revert t. induction p as [|c p IH]; intros [|ch]; simpl; try naive_solver.
  destruct (ch !! c) as [t'|]; [|naive_solver].
  destruct p as [|c' p]; [destruct t'; naive_solver|].
  destruct (rmtree_below t' (c' :: p)) eqn:E; naive_solver.
Qed.

Lemma rmtree_raises t p e t' :
  rmtree t p = (Raise e, t') → ∃ o, e = OSError o.
Proof.
  unfold rmtree. destruct p as [|c p]; [destruct t; naive_solver|].
  destruct (rmtree_below t (c :: p)) eqn:E; [naive_solver|].
  intros [= <- <-]. by eapply rmtree_below_raises.
Qed.

Lemma open_w_raises t p e :
  open_w t p = Raise e → ∃ o, e = OSError o.
Proof.
  revert t. induction p as [|c p IH]; intros [|ch]; simpl; try naive_solver.
  destruct p as [|c' p].
  - destruct (ch !! c) as [[|?]|]; naive_solver.
  - destruct (ch !! c) as [t'|]; [|naive_solver].
    destruct (open_w t' (c' :: p)) eqn:E; naive_solver.
Qed.

(** The directory operations: an arbitrary tree afterwards, or an
    [OSError]. *)
Lemma wp_fs_mkdir p s (Q : result unit → state → Prop) :
  (∀ t, Q (Ok ()) (set_fs t s)) →
  (∀ o, Q (Raise (OSError o)) s) →
  wp (fs_mkdir p) s Q.
Proof.
  intros HOk HRaise. unfold wp, fs_mkdir.
  destruct (mkdir_parents _ _) as [t|e] eqn:E; [apply HOk|].
  apply mkdir_parents_raises in E as [o ->]. apply HRaise.
Qed.

Lemma wp_fs_rmtree p s (Q : result unit → state → Prop) :
  (∀ t, Q (Ok ()) (set_fs t s)) →
  (∀ o t, Q (Raise (OSError o)) (set_fs t s)) →
  wp (fs_rmtree p) s Q.
Proof.
  intros HOk HRaise. unfold wp, fs_rmtree.
  destruct (rmtree _ _) as [[[]|e] t] eqn:E; [apply HOk|].
  apply rmtree_raises in E as [o ->]. apply HRaise.
Qed.

Lemma wp_fs_open_w file s (Q : result unit → state → Prop) :
  (∀ t, Q (Ok ()) (set_fs t s)) →
  (∀ o, Q (Raise (OSError o)) s) →
  wp (fs_open_w file) s Q.
Proof.
  intros HOk HRaise. unfold wp, fs_open_w.
  destruct (open_w _ _) as [t|e] eqn:E; [apply HOk|].
  apply open_w_raises in E as [o ->]. apply HRaise.
Qed.

Lemma wp_subprocess_run run_process a check s
    (Q : result (Z * string) → state → Prop) :
  (∀ o,
     let s1 := set_trace (λ t, t ++ [Run a o]) s in
     match o with
     | SpawnFailed e => Q (Raise (OSError e)) s1
     | Completed rc err t' =>
         if check && negb (rc =? 0)%Z
         then Q (Raise (CalledProcessError rc (argv a))) (set_fs t' s1)
         else Q (Ok (rc, err)) (set_fs t' s1)
     end) →
  wp (subprocess_run run_process a check) s Q.
Proof.
  intros H. unfold wp, subprocess_run.
  specialize (H (run_process (trace s) a (fs s))). simpl in H.
  destruct (run_process _ _ _) as [e|rc err t']; [done|].
  by destruct (check && negb (rc =? 0)%Z).
Qed.

Arguments path_str : simpl never.
Arguments path_suffix : simpl never.
Arguments path_join : simpl never.
Arguments String.append : simpl never.
Arguments exit_status : simpl nomatch.

Lemma emitted_set_trace s s' evs e :
  emitted s s' evs → emitted s (set_trace (λ t, t ++ [e]) s') (evs ++ [e]).
Proof. unfold emitted. simpl. intros ->. by rewrite app_assoc. Qed.

Lemma emitted_set_fs s s' evs t :
  emitted s s' evs → emitted s (set_fs t s') evs.
Proof. done. Qed.

Lemma emitted_set_clock s s' evs n :
  emitted s s' evs → emitted s (set_clock n s') evs.
Proof. done. Qed.

Lemma emitted_set_procs s s' evs m :
  emitted s s' evs → emitted s (set_procs m s') evs.
Proof. done. Qed.

Ltac solve_emitted :=
  repeat first
    [ apply emitted_set_fs | apply emitted_set_clock | apply emitted_set_procs
    | apply emitted_set_trace ];
  apply emitted_refl.

Ltac wp_step :=
  lazymatch goal with
  | |- wp (mret _) _ _ => apply wp_ret
  | |- wp (mbind _ _) _ _ => apply wp_bind
  | |- wp (raise _) _ _ => apply wp_raise
  | |- wp (lift _) _ _ => apply wp_lift
  | |- wp get_state _ _ => apply wp_get_state
  | |- wp (try_except _ _ _) _ _ => apply wp_try
  | |- wp (emit _) _ _ => apply wp_emit
  | |- wp (logging_info _) _ _ => apply wp_emit
  | |- wp (logging_warning _) _ _ => apply wp_emit
  | |- wp (logging_error _) _ _ => apply wp_emit
  | |- wp (time_sleep _) _ _ => apply wp_sleep
  | |- wp (when_ _ _) _ _ => apply wp_when
  | |- wp (fs_exists _) _ _ => apply wp_fs_exists
  | |- wp (fs_mkdir _) _ _ => apply wp_fs_mkdir; [intros ?t|intros ?o]
  | |- wp (fs_rmtree _) _ _ => apply wp_fs_rmtree; [intros ?t|intros ?o ?t]
  | |- wp (fs_open_w _) _ _ => apply wp_fs_open_w; [intros ?t|intros ?o]
  | |- wp (subprocess_run _ _ _) _ _ =>
      apply wp_subprocess_run; intros [?e|?rc ?err ?t]
  | |- wp (prepare_dir _ _) _ _ => unfold prepare_dir
  | |- wp (launch _ _ _ _ _ _) _ _ => unfold launch
  | |- wp (start_bot_handler _ _ _) _ _ => unfold start_bot_handler
  | |- wp (if ?b then _ else _) _ _ => destruct b eqn:?
  | |- wp (match ?x with _ => _ end) _ _ => destruct x eqn:?
  | |- (if ?b then _ else _) => destruct b eqn:?
  | |- match ?x with _ => _ end => destruct x eqn:?
  end; cbv beta iota zeta; try done.

Ltac wp_run := repeat wp_step.

Lemma as_str_raises v e : as_str v = Raise e → e = TypeError.
Proof. destruct v; naive_solver. Qed.

Lemma as_str_ok v x : as_str v = Ok x → v = JStr x.
Proof. destruct v; naive_solver. Qed.

Lemma py_getitem_raises c k e :
  py_getitem c k = Raise e → e = TypeError ∨ e = KeyError k.
Proof. destruct c; simpl; try naive_solver. destruct (dict_get k _); naive_solver. Qed.

Ltac pure_facts :=
  repeat match goal with
    | H : context [true && _] |- _ => rewrite andb_true_l in H
    | H : context [false && _] |- _ => rewrite andb_false_l in H
    | H : context [(_, _).1] |- _ => cbn [fst] in H
    | H : context [(_, _).2] |- _ => cbn [snd] in H
    | H : as_str _ = Raise _ |- _ => apply as_str_raises in H
    | H : as_str _ = Ok _ |- _ => apply as_str_ok in H
    | H : py_getitem _ _ = Raise _ |- _ => apply py_getitem_raises in H
    | H : negb _ = true |- _ => apply negb_true_iff in H
    | H : negb _ = false |- _ => apply negb_false_iff in H
    | H : (_ =? _)%Z = true |- _ => apply Z.eqb_eq in H
    | H : (_ =? _)%Z = false |- _ => apply Z.eqb_neq in H
    end.

Ltac in_cases :=
  repeat match goal with
    | H : _ ∈ _ :: _ |- _ => apply elem_of_cons in H as [H|H]
    | H : _ ∈ [] |- _ => apply elem_of_nil in H; destruct H
    end.

Ltac leaf_solve :=
  repeat split; intros; in_cases; simplify_eq;
  try done; try (by eauto 10).

(** ** The [try] block of [start_bot] *)

Section TryBlock.
Variable os_environ : gmap string string.
Variable float_repr : float → string.
Variable str_repr : string → string.
Variable exn_str : exn → string.
Variable run_process : list event → run_args → node → proc_outcome.

Lemma start_bot_try_post bot_name bot_config bot_env bot_dir bot_file branch s :
  wp (try_except
        (start_bot_try float_repr str_repr run_process bot_name bot_config
           bot_env bot_dir (path_join bot_dir "requirements.txt") bot_file
           branch)
        start_bot_catches (start_bot_handler exn_str bot_name)) s
     (λ r s', ∃ evs, emitted s s' evs ∧
        bot_processes s' = bot_processes s ∧
        start_bot_post exn_str bot_name bot_config branch bot_dir
          (path_join bot_dir "requirements.txt") bot_file bot_env r evs).
Proof.
  unfold start_bot_try.
  wp_run.
  all: (eexists; split; [solve_emitted|]); cbn [app].
  all: (split; [reflexivity|]).
  all: pure_facts; subst.
  all: unfold start_bot_post, launch_cmd, install_cmd, clone_cmd, interpreter_of, log_file_of.
  all: repeat match goal with H : String.eqb _ _ = _ |- _ => rewrite H end.
  all: leaf_solve.
Qed.

End TryBlock.

(** ** Starting a workload *)

Section Starting.
Variable os_environ : gmap string string.
Variable float_repr : float → string.
Variable str_repr : string → string.
Variable exn_str : exn → string.
Variable run_process : list event → run_args → node → proc_outcome.

Lemma py_items_raises v e : py_items v = Raise e → e = AttributeError.
Proof. destruct v; naive_solver. Qed.

Lemma py_get_raises c k d e : py_get c k d = Raise e → e = AttributeError.
Proof. destruct c; naive_solver. Qed.

Lemma runs_of_app t1 t2 : runs_of (t1 ++ t2) = runs_of t1 ++ runs_of t2.
Proof. apply omap_app. Qed.

Lemma run_in_runs_of a o t : Run a o ∈ t → a ∈ runs_of t.
Proof.
  intros Hin. unfold runs_of. apply list_elem_of_omap.
  by exists (Run a o).
Qed.

Lemma last_app_Some {A} (l1 l2 : list A) x :
  last l2 = Some x → last (l1 ++ l2) = Some x.
Proof. intros H. rewrite last_app. by rewrite H. Qed.

(** The environment loop never fails; it leaves the merged environment
    and log records only. *)
Lemma set_env_run bot_name items base s :
  ∃ s' logs,
    set_env float_repr str_repr bot_name items base s =
      (Ok (bot_env_of (py_str float_repr str_repr) items base), s') ∧
    emitted s s' logs ∧ runs_of logs = [] ∧
    bot_processes s' = bot_processes s.
Proof.
  revert base s. induction items as [|[k v] items IH]; intros base s.
  { exists s, []. split; [done|]. split; [apply emitted_refl|done]. }
  assert (Hstep : v ≠ JNull →
            set_env float_repr str_repr bot_name ((k, v) :: items) base s =
            set_env float_repr str_repr bot_name items
              (<[k := py_str float_repr str_repr v]> base)
              (set_trace (λ t, t ++ [Log INFO ("Setting environment variable "
                  +:+ k +:+ " for " +:+ bot_name +:+ ".")]) s)).
  { intros Hv. by destruct v. }
  assert (Hnull : v = JNull ∨ v ≠ JNull) by (destruct v; naive_solver).
  destruct Hnull as [->|Hv].
  - simpl. apply IH.
  - rewrite (Hstep Hv).
    destruct (IH (<[k := py_str float_repr str_repr v]> base)
                 (set_trace (λ t, t ++ [Log INFO
                    ("Setting environment variable " +:+ k +:+ " for " +:+
                     bot_name +:+ ".")]) s))
      as (s' & logs & E & Hem & Hruns & Hbp).
    exists s', ([Log INFO ("Setting environment variable " +:+ k +:+ " for "
                            +:+ bot_name +:+ ".")] ++ logs).
    split; [|split; [|split]].
    + rewrite E. f_equal. f_equal. unfold bot_env_of. simpl. by destruct v.
    + eapply emitted_trans; [|done]. apply (emitted_set_trace s s []).
      apply emitted_refl.
    + by rewrite runs_of_app, Hruns.
    + by rewrite Hbp.
Qed.

Lemma wp_set_env bot_name items base s
    (Q : result (gmap string string) → state → Prop) :
  (∀ s' logs,
     emitted s s' logs → runs_of logs = [] →
     bot_processes s' = bot_processes s →
     Q (Ok (bot_env_of (py_str float_repr str_repr) items base)) s') →
  wp (set_env float_repr str_repr bot_name items base) s Q.
Proof.
  intros H. unfold wp.
  destruct (set_env_run bot_name items base s) as (s' & logs & -> & ? & ? & ?).
  simpl. eauto.
Qed.

(** Events that are not commands in front of a run of the [try] block
    change nothing to what it leaves behind. *)
Lemma start_bot_post_prefix bot_name cfg branch dir req file bot_env r
    pre evs :
  runs_of pre = [] →
  start_bot_post exn_str bot_name cfg branch dir req file bot_env r evs →
  start_bot_post exn_str bot_name cfg branch dir req file bot_env r
    (pre ++ evs).
Proof.
  intros Hpre (Hcmd & Hfetch & Hinst & Hspawn & Hres).
  assert (Hin : ∀ a o, Run a o ∈ pre ++ evs → Run a o ∈ evs).
  { intros a o [Hin|Hin]%elem_of_app; [|done].
    apply run_in_runs_of in Hin. rewrite Hpre in Hin.
    by apply elem_of_nil in Hin. }
  unfold start_bot_post. rewrite runs_of_app, Hpre. simpl.
  split; [|split; [|split; [|split]]].
  - intros a o Ha. apply (Hcmd a o). by apply Hin.
  - intros a rc err t Ha Hc Hrc.
    destruct (Hfetch a rc err t) as (? & ? & ?); [by apply Hin|done..|].
    split; [done|]. split; [done|]. by apply last_app_Some.
  - intros rc err t Ha Hrc.
    destruct (Hinst rc err t) as (? & ? & ?); [by apply Hin|done|].
    split; [done|]. split; [done|]. by apply last_app_Some.
  - intros a e Ha.
    destruct (Hspawn a e) as (? & ? & ?); [by apply Hin|].
    split; [done|]. split; [done|]. by apply last_app_Some.
  - destruct r as [[lf|]|e]; [| |done].
    + destruct Hres as (? & ? & ?). split; [done|]. split; [done|].
      by apply last_app_Some.
    + destruct Hres as [msg ?]. exists msg. by apply last_app_Some.
Qed.

(** What [start_bot] leaves behind for a workload whose [env] is an
    object and whose [run] is a string. *)
Lemma start_bot_outcome bot_name d items run s :
  dict_get "env" d = Some (JObj items) →
  dict_get "run" d = Some (JStr run) →
  wp (start_bot os_environ float_repr str_repr exn_str run_process bot_name
        (JObj d)) s
     (λ r s', ∃ evs, emitted s s' evs ∧
        bot_processes s' = bot_processes s ∧
        start_bot_post exn_str bot_name (JObj d)
          (default (JStr "main") (dict_get "branch" d))
          (bot_dir_of bot_name)
          (path_join (bot_dir_of bot_name) "requirements.txt")
          (path_join (bot_dir_of bot_name) run)
          (bot_env_of (py_str float_repr str_repr) items os_environ) r evs).
Proof.
  intros Henv Hrun. unfold start_bot. simpl py_getitem. simpl py_get.
  rewrite Henv, Hrun.
  do 6 wp_step. simpl py_items. do 3 wp_step.
  apply wp_set_env. intros s1 logs Hem Hruns Hbp.
  do 7 wp_step. injection Heqr as <-.
  eapply wp_mono; [apply start_bot_try_post|].
  intros r s' (evs & Hem' & Hbp' & Hpost).
  exists (([Log INFO ("Starting bot: " +:+ bot_name); Sleep 5] ++ logs)
          ++ evs).
  split; [|split].
  - eapply emitted_trans; [|done]. eapply emitted_trans; [|done].
    unfold emitted. simpl. by rewrite <- app_assoc.
  - by rewrite Hbp', Hbp.
  - apply start_bot_post_prefix; [|done].
    by rewrite runs_of_app, Hruns.
Qed.

Ltac wp_pre :=
  repeat lazymatch goal with
    | |- wp (try_except _ _ _) _ _ => fail
    | _ => wp_step
    end.

(** Whatever the workload, [start_bot] yields the log file, or [None]
    after an error record, or one of the exceptions of an ill-formed
    value; it leaves the tracking table as it found it. *)
Lemma start_bot_result bot_name bot_config s :
  wp (start_bot os_environ float_repr str_repr exn_str run_process bot_name
        bot_config) s
     (λ r s',
        bot_processes s' = bot_processes s ∧
        ∃ evs, emitted s s' evs ∧
          head evs = Some (Log INFO ("Starting bot: " +:+ bot_name)) ∧
          match r with
          | Ok (Some log_file) => log_file = log_file_of bot_name
          | Ok None => ∃ msg, last evs = Some (Log ERROR msg)
          | Raise e =>
              e = TypeError ∨ e = AttributeError ∨ ∃ k, e = KeyError k
          end).
Proof.
  unfold start_bot. wp_pre.
  2-3: split; [done|]; eexists; (split; [solve_emitted|]); split; [done|];
       pure_facts; try apply py_items_raises in Heqr0; naive_solver.
  apply wp_set_env. intros s1 logs Hem Hruns Hbp. wp_pre.
  2-4: split; [done|]; (eexists; split;
         [eapply emitted_trans; [|done]; solve_emitted|]);
       (split; [done|]);
       pure_facts; try apply py_get_raises in Heqr3; naive_solver.
  eapply wp_mono; [apply start_bot_try_post|].
  intros r s' (evs & Hem' & Hbp' & Hpost).
  split; [by rewrite Hbp', Hbp|].
  eexists. split.
  { eapply emitted_trans; [|done]. eapply emitted_trans; [|done].
    solve_emitted. }
  split; [done|].
  destruct Hpost as (_ & _ & _ & _ & Hres).
  destruct r as [[lf|]|e].
  - by destruct Hres.
  - destruct Hres as [msg ?]. exists msg. by apply last_app_Some.
  - naive_solver.
Qed.

End Starting.

(** ** The merged environment *)

Section Environment.
Variable render : json → string.

Lemma bot_env_of_cons k v items base :
  bot_env_of render ((k, v) :: items) base =
    bot_env_of render items
      (match v with JNull => base | _ => <[k := render v]> base end).
Proof. by destruct v. Qed.

Lemma dict_get_cons {V} k k' (v : V) d :
  dict_get k ((k', v) :: d) = if String.eqb k k' then Some v else dict_get k d.
Proof. reflexivity. Qed.

Lemma dict_get_None {V} k (d : dict V) :
  k ∉ dict_keys d → dict_get k d = None.
Proof.
  unfold dict_keys. induction d as [|[k' v] d IH]; [done|].
  rewrite fmap_cons, not_elem_of_cons, dict_get_cons. simpl.
  intros [Hne Hnin]. destruct (String.eqb_spec k k'); [done|]. by apply IH.
Qed.

Lemma bot_env_of_skip k items base :
  k ∉ dict_keys items → bot_env_of render items base !! k = base !! k.
Proof.
  unfold dict_keys. revert base.
  induction items as [|[k' v] items IH]; intros base; [done|].
  rewrite fmap_cons, not_elem_of_cons, bot_env_of_cons. simpl.
  intros [Hne Hnin]. rewrite IH by done.
  destruct v; try done; by rewrite lookup_insert_ne.
Qed.

(** The loop, read pointwise: a variable the specification sets to a
    value other than null holds the rendering of that value; any other
    variable is as in the base environment. *)
Lemma bot_env_of_lookup items base k :
  NoDup (dict_keys items) →
  bot_env_of render items base !! k =
    match dict_get k items with
    | Some JNull | None => base !! k
    | Some v => Some (render v)
    end.
Proof.
  unfold dict_keys. revert base.
  induction items as [|[k' v] items IH]; intros base; [done|].
  rewrite fmap_cons, NoDup_cons, bot_env_of_cons, dict_get_cons. simpl.
  intros [Hnin Hnd]. destruct (String.eqb_spec k k') as [->|Hne].
  - rewrite bot_env_of_skip by done.
    destruct v; try done; by rewrite lookup_insert_eq.
  - rewrite IH by done.
    destruct (dict_get k items) as [[]|]; destruct v; try done;
      by rewrite lookup_insert_ne.
Qed.

Lemma env_overrides_lookup items k :
  NoDup (dict_keys items) →
  env_overrides render items !! k =
    match dict_get k items with
    | Some JNull | None => None
    | Some v => Some (render v)
    end.
Proof.
  unfold dict_keys, env_overrides.
  induction items as [|[k' v] items IH]; [done|].
  rewrite fmap_cons, NoDup_cons, dict_get_cons. simpl.
  intros [Hnin Hnd]. specialize (IH Hnd).
  destruct (String.eqb_spec k k') as [->|Hne].
  - rewrite (dict_get_None k' items) in IH by done.
    destruct v; simpl; rewrite ?lookup_insert_eq; done.
  - destruct v; simpl; rewrite ?lookup_insert_ne; done.
Qed.

(** The loop computes the base environment overridden by the
    variables the specification sets. *)
Lemma bot_env_of_merged items base :
  NoDup (dict_keys items) →
  bot_env_of render items base = merged_env render items base.
Proof.
  intros Hnd. apply map_eq. intros k. unfold merged_env.
  rewrite bot_env_of_lookup, lookup_union, env_overrides_lookup by done.
  destruct (dict_get k items) as [[]|]; simpl;
    by rewrite ?union_Some_l, ?(left_id_L None _).
Qed.

End Environment.

(** ** The fan-out *)

Section FanOut.
Variable os_environ : gmap string string.
Variable float_repr : float → string.
Variable str_repr : string → string.
Variable exn_str : exn → string.
Variable run_process : list event → run_args → node → proc_outcome.

Lemma submit_all_spec bots s :
  wp (submit_all os_environ float_repr str_repr exn_str run_process bots) s
     (λ r s',
        bot_processes s' = bot_processes s ∧
        ∃ futures evs,
          r = Ok futures ∧ emitted s s' evs ∧
          futures.*2 = bots.*1 ∧ Forall catchable futures ∧
          ∀ n c, (n, c) ∈ bots → Log INFO ("Starting bot: " +:+ n) ∈ evs).
Proof.
  revert s. induction bots as [|[n c] bots IH]; intros s.
  { split; [done|]. exists [], []. split; [done|]. split; [apply emitted_refl|].
    split; [done|]. split; [done|]. intros ?? []%elem_of_nil. }
  simpl. apply wp_bind.
  pose proof (start_bot_result os_environ float_repr str_repr exn_str
                run_process n c s) as Hs.
  unfold wp, submit in *.
  destruct (start_bot _ _ _ _ _ n c s) as [r s1]. simpl in *.
  destruct Hs as (Hbp & evs1 & Hem1 & Hhd & Hr).
  rewrite bind_run. specialize (IH s1).
  destruct (submit_all _ _ _ _ _ bots s1) as [rf s2]. simpl in *.
  destruct IH as (Hbp2 & futures & evs2 & -> & Hem2 & Hnames & Hcatch & Hstart).
  simpl. split; [by rewrite Hbp2|].
  exists ((r, n) :: futures), (evs1 ++ evs2).
  split; [done|]. split; [by eapply emitted_trans|].
  split; [by rewrite !fmap_cons, Hnames|]. split.
  - constructor; [|done]. intros e He. simpl in He. subst r.
    destruct Hr as [->|[->|[k ->]]]; done.
  - intros n' c' [Heq|Hin]%elem_of_cons; apply elem_of_app.
    + injection Heq as -> ->. left.
      destruct evs1 as [|ev evs1]; [done|]. injection Hhd as ->.
      apply elem_of_cons. by left.
    + right. by eapply Hstart.
Qed.

Lemma collect_all_spec futures s :
  Forall catchable futures →
  wp (for_each futures (collect exn_str)) s
     (λ r s',
        r = Ok () ∧ bot_processes s' = bot_processes s ∧
        ∃ evs, emitted s s' evs ∧ runs_of evs = [] ∧
          ∀ f e, f ∈ futures → f.1 = Raise e →
            Log ERROR ("Error in executing bot: " +:+ exn_str e) ∈ evs).
Proof.
  intros Hc. revert s. induction Hc as [|f futures Hf _ IH]; intros s.
  { split; [done|]. split; [done|]. exists []. split; [apply emitted_refl|].
    split; [done|]. intros ?? []%elem_of_nil. }
  simpl. apply wp_bind. unfold collect at 1.
  assert (Hstep : ∃ s1 evs1,
            (try_except (lift f.1;; mret ()) is_Exception
               (λ e, logging_error ("Error in executing bot: " +:+ exn_str e))
               s) = (Ok (), s1) ∧
            emitted s s1 evs1 ∧ runs_of evs1 = [] ∧
            bot_processes s1 = bot_processes s ∧
            ∀ e, f.1 = Raise e →
              Log ERROR ("Error in executing bot: " +:+ exn_str e) ∈ evs1).
  { unfold try_except. rewrite bind_run. unfold lift.
    destruct f.1 as [v|e] eqn:Ef; simpl.
    - exists s, []. split; [done|]. split; [apply emitted_refl|]. done.
    - rewrite (Hf e Ef).
      eexists _, [Log ERROR ("Error in executing bot: " +:+ exn_str e)].
      split; [reflexivity|]. split; [done|]. split; [done|]. split; [done|].
      intros e' [= <-]. apply elem_of_cons. by left. }
  destruct Hstep as (s1 & evs1 & E & Hem1 & Hr1 & Hbp1 & Hlog1).
  unfold wp at 1. rewrite E. simpl.
  eapply wp_mono; [apply IH|].
  intros r s' (-> & Hbp & evs2 & Hem2 & Hr2 & Hlog2).
  split; [done|]. split; [by rewrite Hbp|].
  exists (evs1 ++ evs2). split; [by eapply emitted_trans|].
  split; [by rewrite runs_of_app, Hr1, Hr2|].
  intros f' e [->|Hin]%elem_of_cons Hf'; apply elem_of_app.
  - left. by apply Hlog1.
  - right. by eapply Hlog2.
Qed.

(** With at least one workload, [main] returns normally whatever the
    workloads do: each one is started, and the tracking table is left
    as it was. *)
Lemma main_spec bots s :
  bots ≠ [] →
  wp (main os_environ float_repr str_repr exn_str run_process bots) s
     (λ r s',
        r = Ok () ∧ bot_processes s' = bot_processes s ∧
        ∃ evs, emitted s s' evs ∧
          ∀ n c, (n, c) ∈ bots → Log INFO ("Starting bot: " +:+ n) ∈ evs).
Proof.
  intros Hne. unfold main. do 3 wp_step.
  assert (Nat.eqb (length bots) 0 = false) as ->.
  { destruct bots; [done|]. done. }
  wp_step. cbv beta iota. wp_step.
  eapply wp_mono; [apply submit_all_spec|].
  intros r s1 (Hbp1 & futures & evs1 & -> & Hem1 & _ & Hcatch & Hstart).
  wp_step.
  eapply wp_mono; [by apply collect_all_spec|].
  intros r s2 (-> & Hbp2 & evs2 & Hem2 & _ & _).
  wp_step. split; [done|]. split; [simpl in *; congruence|].
  eexists. split.
  - apply emitted_set_trace. eapply emitted_trans; [|done].
    eapply emitted_trans; [|done]. solve_emitted.
  - intros n c Hin. rewrite !elem_of_app. left. left. right. by eapply Hstart.
Qed.

End FanOut.

(** ** Workloads *)

Lemma dict_get_in {V} k (v : V) (d : dict V) :
  NoDup (dict_keys d) → (k, v) ∈ d → dict_get k d = Some v.
Proof.
  unfold dict_keys. induction d as [|[k' v'] d IH]; [by intros _ ?%elem_of_nil|].
  rewrite fmap_cons, NoDup_cons, dict_get_cons. simpl.
  intros [Hnin Hnd] [Heq|Hin]%elem_of_cons.
  - injection Heq as -> ->. by rewrite String.eqb_refl.
  - destruct (String.eqb_spec k k') as [->|_]; [|by apply IH].
    destruct Hnin. apply list_elem_of_fmap. by exists (k', v).
Qed.


Section Workloads.
Variable os_environ : gmap string string.
Variable float_repr : float → string.
Variable str_repr : string → string.
Variable exn_str : exn → string.
Variable run_process : list event → run_args → node → proc_outcome.

Local Abbreviation run_bot :=
  (start_bot os_environ float_repr str_repr exn_str run_process).
Local Abbreviation str := (py_str float_repr str_repr).

(** C5. Environment merge law.  For a workload whose [env] is an object
    (a dict: no key twice), every command [start_bot] runs is the
    fetch, the installation, or the launch of the entry point, and the
    launch is given as its environment the base environment
    overridden by the entries of [env] that are not null; when
    [start_bot] returns the log file the launch is the last command
    run.  Pointwise: a variable set to a non-null value holds that
    value's rendering, a variable set to null or not named is as in
    the base environment.  For [env = {"A": "1", "B": null}] the
    result is the base environment with [A] set to ["1"] and nothing
    else changed. *)
Theorem environment_merge_law bot_name d items run s :
  dict_get "env" d = Some (JObj items) →
  dict_get "run" d = Some (JStr run) →
  NoDup (dict_keys items) →
  let bot_dir := bot_dir_of bot_name in
  let bot_file := path_join bot_dir run in
  let merged := merged_env str items os_environ in
  (∃ evs, emitted s (run_bot bot_name (JObj d) s).2 evs ∧
     (∀ a o, Run a o ∈ evs →
        (∃ b src, a = clone_cmd b src bot_dir) ∨
        a = install_cmd (path_join bot_dir "requirements.txt") ∨
        (a = launch_cmd (interpreter_of bot_file) bot_dir bot_file merged
               (log_file_of bot_name) ∧ env a = Some merged)) ∧
     (∀ log_file, (run_bot bot_name (JObj d) s).1 = Ok (Some log_file) →
        ∃ a, last (runs_of evs) = Some a ∧ env a = Some merged))
  ∧ (∀ k, merged !! k = match dict_get k items with
                        | Some JNull | None => os_environ !! k
                        | Some v => Some (str v)
                        end)
  ∧ merged_env str [("A", JStr "1"); ("B", JNull)] os_environ =
      <["A" := "1"]> os_environ.
Proof.
  intros Henv Hrun Hnd bot_dir bot_file merged. split; [|split].
  - pose proof (start_bot_outcome os_environ float_repr str_repr exn_str
                  run_process bot_name d items run s Henv Hrun) as H.
    unfold wp in H. destruct H as (evs & Hem & _ & Hpost).
    rewrite bot_env_of_merged in Hpost by done.
    destruct Hpost as (Hcmd & _ & _ & _ & Hres).
    exists evs. split; [done|]. split.
    + intros a o Ha. destruct (Hcmd a o Ha) as [(b & src & _ & _ & ->)|[->| ->]];
        eauto 10.
    + intros lf Hr. rewrite Hr in Hres. destruct Hres as (_ & Hlast & _).
      eexists. split; [exact Hlast|done].
  - intros k. unfold merged. rewrite <- bot_env_of_merged by done.
    by apply bot_env_of_lookup.
  - unfold merged_env, env_overrides. simpl.
    by rewrite <- insert_union_l, (left_id_L ∅ _).
Qed.

(** C10. Every entry of [env] whose value is not null, whatever the
    type of the value, is taken by the environment loop: the loop does
    not fail, and the variable holds [str] of the value, both in the
    environment the loop returns and in the environment of any command
    [start_bot] runs with an environment of its own.  [str] renders an
    integer in decimal, a boolean as [True] or [False], a float as the
    interpreter prints it, and leaves a string as it is. *)
Theorem env_values_are_stringified bot_name d items run s k v :
  dict_get "env" d = Some (JObj items) →
  dict_get "run" d = Some (JStr run) →
  NoDup (dict_keys items) →
  (k, v) ∈ items → v ≠ JNull →
  (∃ bot_env s',
     set_env float_repr str_repr bot_name items os_environ s =
       (Ok bot_env, s') ∧
     bot_env !! k = Some (str v))
  ∧ (∃ evs, emitted s (run_bot bot_name (JObj d) s).2 evs ∧
       ∀ a o bot_env, Run a o ∈ evs → env a = Some bot_env →
         bot_env !! k = Some (str v))
  ∧ (∀ n, str (JInt n) = pretty n)
  ∧ str (JBool true) = "True" ∧ str (JBool false) = "False"
  ∧ (∀ x, str (JFloat x) = float_repr x)
  ∧ (∀ x, str (JStr x) = x).
Proof.
  intros Henv Hrun Hnd Hin Hv.
  assert (Hk : bot_env_of str items os_environ !! k = Some (str v)).
  { rewrite bot_env_of_lookup, (dict_get_in k v items) by done.
    by destruct v. }
  split; [|split; [|done]].
  - destruct (set_env_run float_repr str_repr bot_name items os_environ s)
      as (s' & logs & E & _). eauto.
  - pose proof (start_bot_outcome os_environ float_repr str_repr exn_str
                  run_process bot_name d items run s Henv Hrun) as H.
    unfold wp in H. destruct H as (evs & Hem & _ & Hcmd & _).
    exists evs. split; [done|]. intros a o bot_env Ha Ea.
    destruct (Hcmd a o Ha) as [(b & src & _ & _ & ->)|[->| ->]]; try done.
    by injection Ea as <-.
Qed.


End Workloads.

(** ** The script as a whole *)

Lemma wp_random_choice rng seq s (Q : result string → state → Prop) :
  (∀ w, Q (Ok w) (set_draws (S (draws s)) s)) →
  Q (Raise IndexError) s →
  wp (random_choice rng seq) s Q.
Proof.
  intros HOk HRaise. unfold wp, random_choice.
  destruct seq as [|w0 ws]; [done|].
  destruct ((w0 :: ws) !! _); [apply HOk|done].
Qed.

Section Script.
Variable WORD_LIST : list string.
Variable rng : nat → nat.
Variable os_environ : gmap string string.
Variable float_repr : float → string.
Variable str_repr : string → string.
Variable exn_str : exn → string.
Variable run_process : list event → run_args → node → proc_outcome.

Lemma load_entry_table name cfg nb s :
  bot_processes (load_entry WORD_LIST rng name cfg nb s).2 = bot_processes s.
Proof.
  change (wp (load_entry WORD_LIST rng name cfg nb) s
            (λ _ s', bot_processes s' = bot_processes s)).
  unfold load_entry, generate_prefix, check_entry.
  repeat first [ apply wp_random_choice; [intros ?w|] | wp_step ];
    cbv beta iota; try done.
Qed.

Lemma load_loop_table items nb s :
  bot_processes (load_loop WORD_LIST rng items nb s).2 = bot_processes s.
Proof.
  revert nb s. induction items as [|[n c] items IH]; intros nb s; [done|].
  rewrite load_loop_cons.
  pose proof (load_entry_table n c nb s) as H.
  destruct (load_entry WORD_LIST rng n c nb s) as [[nb'|e] s']; simpl in H.
  - by rewrite IH.
  - done.
Qed.

Lemma load_config_table file document s :
  bot_processes (load_config WORD_LIST rng file document s).2 =
  bot_processes s.
Proof.
  unfold load_config. rewrite bind_run. simpl. rewrite bind_run.
  unfold lift at 1. destruct (py_items document) as [items|e]; [|done].
  rewrite bind_run.
  pose proof (load_loop_table items []
    (set_trace (λ t, t ++ [Log INFO ("Loading configuration from " +:+ file)])
               s)) as H.
  destruct (load_loop _ _ _ _ _) as [[nb|e] s']; simpl in *; done.
Qed.

End Script.

(** ** Preparing the working directory *)

Lemma lookup_path_app_None t p q :
  lookup_path t p = None → lookup_path t (p ++ q) = None.
Proof.
  revert t. induction p as [|c p IH]; intros t; [done|]. simpl.
  destruct t as [|ch]; [done|]. destruct (ch !! c); [apply IH|done].
Qed.

Lemma mkdir_parents_exists t p t' :
  mkdir_parents t p = Ok t' → path_exists t' p = true.
Proof.
  unfold path_exists. revert t t'.
  induction p as [|c p IH]; intros t t'; [done|]. simpl.
  destruct t as [|ch]; [done|].
  destruct (mkdir_parents _ p) as [x|] eqn:E; [|done].
  intros [= <-]. rewrite lookup_insert_eq. by eapply IH.
Qed.

(** Once a directory has been removed, creating it again and removing
    it once more gives the same tree. *)
Lemma rmtree_below_clean t p t1 :
  p ≠ [] →
  rmtree_below t p = Ok t1 →
  lookup_path t1 p = None ∧
  ∃ t2, mkdir_parents t1 p = Ok t2 ∧ rmtree_below t2 p = Ok t1.
Proof.
  revert t t1. induction p as [|c p IH]; intros t t1 Hne; [done|].
  simpl. destruct t as [|ch]; [done|].
  destruct (ch !! c) as [x|] eqn:Ec; [|done].
  destruct p as [|c' p].
  - destruct x as [|chx]; [done|]. intros [= <-]. simpl.
    rewrite lookup_delete_eq. split; [done|]. simpl.
    eexists. split; [reflexivity|]. simpl.
    rewrite lookup_insert_eq. by rewrite delete_insert_eq, delete_delete_eq.
  - destruct (rmtree_below x (c' :: p)) as [x1|] eqn:Ex; [|done].
    intros [= <-].
    destruct (IH x x1) as (Hnone & x2 & Hmk & Hrm); [done..|].
    split.
    + change (lookup_path (Dir (<[c:=x1]> ch)) (c :: c' :: p))
        with (match <[c:=x1]> ch !! c with
              | Some t' => lookup_path t' (c' :: p)
              | None => None
              end).
      by rewrite lookup_insert_eq.
    + exists (Dir (<[c:=x2]> ch)). split.
      * change (mkdir_parents (Dir (<[c:=x1]> ch)) (c :: c' :: p))
          with (match mkdir_parents (default (Dir ∅) (<[c:=x1]> ch !! c))
                        (c' :: p) with
                | Ok t' => Ok (Dir (<[c:=t']> (<[c:=x1]> ch)))
                | Raise e => Raise e
                end).
        rewrite lookup_insert_eq. simpl default. rewrite Hmk.
        by rewrite insert_insert_eq.
      * change (rmtree_below (Dir (<[c:=x2]> ch)) (c :: c' :: p))
          with (match <[c:=x2]> ch !! c with
                | None => Raise (OSError FileNotFoundError)
                | Some t' =>
                    match rmtree_below t' (c' :: p) with
                    | Ok t'' => Ok (Dir (<[c:=t'']> (<[c:=x2]> ch)))
                    | Raise e => Raise e
                    end
                end).
        rewrite lookup_insert_eq, Hrm. by rewrite insert_insert_eq.
Qed.

Lemma rmtree_cons t c p :
  rmtree t (c :: p) = match rmtree_below t (c :: p) with
                      | Ok t' => (Ok (), t')
                      | Raise e => (Raise e, t)
                      end.
Proof. reflexivity. Qed.

Lemma prepare_fs_there t p :
  path_exists t p = true → prepare_fs t p = rmtree t p.
Proof. intros H. unfold prepare_fs. by rewrite H, H. Qed.

Lemma prepare_fs_missing t p :
  path_exists t p = false →
  prepare_fs t p = match mkdir_parents t p with
                   | Ok t' => rmtree t' p
                   | Raise e => (Raise e, t)
                   end.
Proof.
  intros H. unfold prepare_fs. rewrite H.
  destruct (mkdir_parents t p) as [t'|e] eqn:Hmk; [|done].
  by rewrite (mkdir_parents_exists _ _ _ Hmk).
Qed.

Lemma prepare_fs_after_rmtree t c p t1 :
  rmtree_below t (c :: p) = Ok t1 →
  prepare_fs t1 (c :: p) = (Ok (), t1).
Proof.
  intros Hrm.
  destruct (rmtree_below_clean t (c :: p) t1) as (Hnone & t2 & Hmk & Hrm2);
    [done..|].
  rewrite prepare_fs_missing by (unfold path_exists; by rewrite Hnone).
  by rewrite Hmk, rmtree_cons, Hrm2.
Qed.

(** Preparing twice is preparing once. *)
Lemma prepare_fs_idempotent t p :
  prepare_fs (prepare_fs t p).2 p = prepare_fs t p.
Proof.
  destruct p as [|c p].
  { unfold prepare_fs. simpl. by destruct t. }
  destruct (path_exists t (c :: p)) eqn:Hex.
  - rewrite (prepare_fs_there t) by done. rewrite rmtree_cons.
    destruct (rmtree_below t (c :: p)) as [t1|e] eqn:Hrm; cbn [snd].
    + by eapply prepare_fs_after_rmtree.
    + rewrite prepare_fs_there by done. by rewrite rmtree_cons, Hrm.
  - rewrite (prepare_fs_missing t) by done.
    destruct (mkdir_parents t (c :: p)) as [t'|e] eqn:Hmk; cbn [snd].
    + rewrite rmtree_cons.
      destruct (rmtree_below t' (c :: p)) as [t1|e] eqn:Hrm; cbn [snd].
      * by eapply prepare_fs_after_rmtree.
      * rewrite prepare_fs_there by (by eapply mkdir_parents_exists).
        by rewrite rmtree_cons, Hrm.
    + rewrite prepare_fs_missing by done. by rewrite Hmk.
Qed.

(** When the preparation succeeds the directory is gone. *)
Lemma prepare_fs_clean t p t1 :
  prepare_fs t p = (Ok (), t1) → lookup_path t1 p = None.
Proof.
  unfold prepare_fs.
  destruct (if path_exists t p then Ok t else mkdir_parents t p)
    as [t'|e] eqn:E; [|done].
  destruct (path_exists t' p) eqn:Hex.
  - unfold rmtree. destruct p as [|c p]; [by destruct t'|].
    destruct (rmtree_below t' (c :: p)) as [t2|] eqn:Hrm; [|done].
    intros [= <-]. by eapply rmtree_below_clean.
  - intros [= <-]. unfold path_exists in Hex.
    by destruct (lookup_path t' p).
Qed.

Lemma prepare_dir_fs bot_name bot_dir s :
  ((prepare_dir bot_name bot_dir s).1, fs (prepare_dir bot_name bot_dir s).2)
  = prepare_fs (fs s) (parts bot_dir).
Proof.
  unfold prepare_dir, prepare_fs.
  rewrite bind_run. simpl. rewrite bind_run.
  destruct (path_exists (fs s) (parts bot_dir)) eqn:Hex; simpl.
  - rewrite bind_run. simpl. rewrite Hex. simpl. rewrite bind_run. simpl.
    unfold fs_rmtree. simpl. by destruct (rmtree _ _).
  - rewrite bind_run. simpl. unfold fs_mkdir. simpl.
    destruct (mkdir_parents (fs s) (parts bot_dir)) as [t'|e] eqn:Hmk;
      [|done]. simpl.
    rewrite bind_run. simpl.
    destruct (path_exists t' (parts bot_dir)); simpl; [|done].
    rewrite bind_run. simpl. unfold fs_rmtree. simpl.
    by destruct (rmtree _ _).
Qed.

(** ** Stopping *)

Lemma proc_wait_after_terminate h s :
  proc_wait h 5 (proc_terminate h s).2 =
    match procs s !! h with
    | Some p =>
        if outlives p 5 then
          (Raise TimeoutExpired,
           set_clock (clock s + 5)
             (set_trace (λ t, t ++ [Wait h 5]) (proc_terminate h s).2))
        else if alive p then
          (Ok (),
           set_clock (clock s + default 0 (grace p))
             (set_procs (<[h := mkProcess false true (grace p)]>
                           (procs (proc_terminate h s).2))
                (set_trace (λ t, t ++ [Wait h 5]) (proc_terminate h s).2)))
        else
          (Ok (), set_trace (λ t, t ++ [Wait h 5]) (proc_terminate h s).2)
    | None => (Ok (), set_trace (λ t, t ++ [Wait h 5]) (proc_terminate h s).2)
    end.
Proof.
  unfold proc_wait, proc_terminate, outlives. simpl.
  rewrite lookup_alter_eq.
  destruct (procs s !! h) as [[al ak [g|]]|]; simpl; [| |done].
  - destruct al; simpl; [|done]. by destruct (Nat.leb g 5).
  - by destruct al.
Qed.

Lemma stop_bot_tracked bot_name h s :
  dict_get bot_name (bot_processes s) = Some h →
  stop_bot bot_name s =
    let s0 := set_trace (λ t, t ++ [Log INFO ("Stopping bot: " +:+ bot_name)])
                        s in
    match proc_wait h 5 (proc_terminate h s0).2 with
    | (Ok _, s1) =>
        (Ok (), set_trace (λ t, t ++ [Log INFO ("Bot " +:+ bot_name +:+
                                               " stopped successfully.")]) s1)
    | (Raise e, s1) =>
        if is_TimeoutExpired e then
          proc_kill h
            (set_trace (λ t, t ++ [Log WARNING
                          ("Bot " +:+ bot_name +:+
                           " did not terminate in time; force killing...")])
                       s1)
        else (Raise e, s1)
    end.
Proof.
  intros E. unfold stop_bot. rewrite bind_run. simpl. rewrite bind_run. simpl.
  rewrite E. unfold try_except. rewrite bind_run. simpl. rewrite bind_run.
  destruct (proc_wait h 5 _) as [[[]|e] s1]; simpl; [done|].
  by destruct (is_TimeoutExpired e).
Qed.

(** What [stop_bot] does for a tracked handle. *)
Lemma stop_bot_spec bot_name h s :
  dict_get bot_name (bot_processes s) = Some h →
  let out := stop_bot bot_name s in
  let hangs := match procs s !! h with
               | Some p => outlives p 5
               | None => false
               end in
  out.1 = Ok ()
  ∧ (clock out.2 ≤ clock s + 5)%nat
  ∧ emitted s out.2
      ([Log INFO ("Stopping bot: " +:+ bot_name); Terminate h; Wait h 5] ++
       (if hangs
        then [Log WARNING ("Bot " +:+ bot_name +:+
                           " did not terminate in time; force killing...");
              Kill h]
        else [Log INFO ("Bot " +:+ bot_name +:+ " stopped successfully.")]))
  ∧ (hangs = true →
     clock out.2 = clock s + 5 ∧ alive <$> procs out.2 !! h = Some false)
  ∧ (∀ msg, Log ERROR msg ∉ drop (length (trace s)) (trace out.2))
  ∧ bot_processes out.2 = bot_processes s.
Proof.
  intros E out hangs. unfold out, hangs.
  rewrite (stop_bot_tracked bot_name h s E). cbv zeta.
  rewrite proc_wait_after_terminate. simpl procs. simpl clock.
  destruct (procs s !! h) as [p|] eqn:Ep.
  - destruct (outlives p 5) eqn:Ho.
    + simpl. unfold emitted. simpl. rewrite <- !app_assoc. simpl.
      split; [done|]. split; [lia|]. split; [done|]. split.
      * intros _. split; [done|].
        rewrite lookup_alter_eq, lookup_alter_eq, Ep. done.
      * split; [|done]. intros msg. rewrite drop_app_length.
        intros Hin. repeat (apply elem_of_cons in Hin as [Hin|Hin]; [done|]).
        by apply elem_of_nil in Hin.
    + unfold outlives in Ho. destruct (alive p) eqn:Hal.
      * simpl. unfold emitted. simpl. rewrite <- !app_assoc. simpl.
        split; [done|]. split.
        { destruct (grace p) as [g|]; simpl in *; [|done].
          apply negb_false_iff, Nat.leb_le in Ho. lia. }
        split; [done|]. split; [done|]. split; [|done].
        intros msg. rewrite drop_app_length.
        intros Hin. repeat (apply elem_of_cons in Hin as [Hin|Hin]; [done|]).
        by apply elem_of_nil in Hin.
      * simpl. unfold emitted. simpl. rewrite <- !app_assoc. simpl.
        split; [done|]. split; [lia|]. split; [done|]. split; [done|].
        split; [|done]. intros msg. rewrite drop_app_length.
        intros Hin. repeat (apply elem_of_cons in Hin as [Hin|Hin]; [done|]).
        by apply elem_of_nil in Hin.
  - simpl. unfold emitted. simpl. rewrite <- !app_assoc. simpl.
    split; [done|]. split; [lia|]. split; [done|]. split; [done|].
    split; [|done]. intros msg. rewrite drop_app_length.
    intros Hin. repeat (apply elem_of_cons in Hin as [Hin|Hin]; [done|]).
    by apply elem_of_nil in Hin.
Qed.

Lemma stop_bot_untracked bot_name s :
  dict_get bot_name (bot_processes s) = None →
  stop_bot bot_name s =
    (Ok (),
     set_trace (λ t, t ++ [Log WARNING ("No running process found for bot: "
                                        +:+ bot_name)])
       (set_trace (λ t, t ++ [Log INFO ("Stopping bot: " +:+ bot_name)]) s)).
Proof.
  intros E. unfold stop_bot. rewrite bind_run. simpl. rewrite bind_run. simpl.
  by rewrite E.
Qed.

Lemma stop_all_spec names s :
  wp (for_each names stop_bot) s
     (λ r s',
        r = Ok () ∧ bot_processes s' = bot_processes s ∧
        (clock s' ≤ clock s + 5 * length names)%nat ∧
        ∃ evs, emitted s s' evs ∧
          ∀ n h, n ∈ names → dict_get n (bot_processes s) = Some h →
            Terminate h ∈ evs ∧ Wait h 5 ∈ evs).
Proof.
  revert s. induction names as [|n names IH]; intros s.
  { split; [done|]. split; [done|]. split; [simpl; lia|].
    exists []. split; [apply emitted_refl|]. intros ?? []%elem_of_nil. }
  simpl. apply wp_bind.
  assert (Hstep : ∃ s1 evs1,
            stop_bot n s = (Ok (), s1) ∧ bot_processes s1 = bot_processes s ∧
            (clock s1 ≤ clock s + 5)%nat ∧ emitted s s1 evs1 ∧
            ∀ h, dict_get n (bot_processes s) = Some h →
              Terminate h ∈ evs1 ∧ Wait h 5 ∈ evs1).
  { destruct (dict_get n (bot_processes s)) as [h|] eqn:E.
    - destruct (stop_bot_spec n h s E) as (Hr & Hc & Hem & _ & _ & Hbp).
      destruct (stop_bot n s) as [r s1]. cbn [fst snd] in *. subst r.
      eexists _, _. split; [done|]. split; [done|]. split; [done|].
      split; [exact Hem|]. intros ? [= <-].
      cbn [app]. rewrite !elem_of_cons. auto.
    - rewrite (stop_bot_untracked n s E). eexists _, _.
      split; [done|]. split; [done|]. split; [simpl; lia|].
      split; [solve_emitted|]. done. }
  destruct Hstep as (s1 & evs1 & E & Hbp1 & Hc1 & Hem1 & Hev1).
  unfold wp at 1. rewrite E. simpl.
  eapply wp_mono; [apply IH|].
  intros r s' (-> & Hbp & Hc & evs & Hem & Hev).
  split; [done|]. split; [congruence|]. split; [simpl length; lia|].
  exists (evs1 ++ evs). split; [by eapply emitted_trans|].
  intros n' h [->|Hin]%elem_of_cons Hget.
  - destruct (Hev1 h Hget). split; apply elem_of_app; by left.
  - rewrite <- Hbp1 in Hget. destruct (Hev n' h Hin Hget).
    split; apply elem_of_app; by right.
Qed.

(** C6. Stopping a workload that has a tracked handle: [stop_bot] asks
    the process to terminate, then waits for it with a timeout of 5,
    and only then, when the process is still running as the timeout
    runs out, kills it.  In that case it logs a warning, no error; in
    every case it returns normally, has spent at most 5 in the wait,
    and leaves the tracking table as it was.  A process that outlives
    the wait is not running any more afterwards.  The signal handler
    does this for every identity of the tracking table, one after the
    other, and then exits with status 0. *)
Theorem stop_bot_bounded bot_name h s :
  dict_get bot_name (bot_processes s) = Some h →
  let out := stop_bot bot_name s in
  let hangs := match procs s !! h with
               | Some p => outlives p 5
               | None => false
               end in
  (out.1 = Ok ()
   ∧ (clock out.2 ≤ clock s + 5)%nat
   ∧ emitted s out.2
       ([Log INFO ("Stopping bot: " +:+ bot_name); Terminate h; Wait h 5] ++
        (if hangs
         then [Log WARNING ("Bot " +:+ bot_name +:+
                            " did not terminate in time; force killing...");
               Kill h]
         else [Log INFO ("Bot " +:+ bot_name +:+ " stopped successfully.")]))
   ∧ (hangs = true →
      clock out.2 = clock s + 5 ∧ alive <$> procs out.2 !! h = Some false)
   ∧ (∀ msg, Log ERROR msg ∉ drop (length (trace s)) (trace out.2))
   ∧ bot_processes out.2 = bot_processes s)
  ∧ (let all := signal_handler s in
     all.1 = Raise (SystemExit 0) ∧ exit_status all.1 = 0%Z ∧
     (clock all.2 ≤ clock s + 5 * length (bot_processes s))%nat ∧
     ∃ evs, emitted s all.2 evs ∧ Terminate h ∈ evs ∧ Wait h 5 ∈ evs).
Proof.
  intros E out hangs. split; [by apply stop_bot_spec|].
  intros all. unfold all, signal_handler.
  pose proof (stop_all_spec (dict_keys (bot_processes s))
    (set_trace (λ t, t ++ [Log INFO "Shutting down..."]) s)) as H.
  unfold wp in H. rewrite bind_run. simpl. rewrite bind_run. simpl.
  rewrite bind_run.
  destruct (for_each _ stop_bot _) as [r s1]. simpl in H.
  destruct H as (-> & _ & Hc & evs & Hem & Hev).
  simpl. split; [done|]. split; [done|]. split.
  { unfold dict_keys in Hc. rewrite length_fmap in Hc. done. }
  eexists. split.
  { apply emitted_set_trace. eapply emitted_trans; [|done].
    apply (emitted_set_trace s s []). apply emitted_refl. }
  destruct (Hev bot_name h) as [Ht Hw]; [|done|].
  { unfold dict_keys. apply list_elem_of_fmap.
    clear -E. induction (bot_processes s) as [|[k v] l IH]; [done|].
    rewrite dict_get_cons in E.
    destruct (String.eqb_spec bot_name k) as [->|_].
    - exists (k, v). split; [done|]. by left.
    - destruct (IH E) as (y & ? & ?). exists y. split; [done|]. by right. }
  split; apply elem_of_app; left; apply elem_of_app; by right.
Qed.

(** ** The program on the sample data *)

Example path_suffix_examples :
  path_suffix (parse_path "/app/bot/start.sh") = ".sh"
  ∧ path_suffix (parse_path "/app/bot/main.py") = ".py"
  ∧ path_suffix (parse_path "/app/bot/.sh") = ""
  ∧ path_suffix (parse_path "/app/bot.sh/run") = ""
  ∧ path_suffix (parse_path "/app/bot/archive.tar.sh") = ".sh"
  ∧ path_suffix (parse_path "/app/bot/START.SH") = ".SH".
Proof. repeat split; reflexivity. Qed.

Example path_join_examples :
  path_str (path_join (parse_path "/app") "brave_otter_echo")
    = "/app/brave_otter_echo"
  ∧ path_str (path_join (bot_dir_of "brave otter echo") "echo.py")
    = "/app/brave_otter_echo/echo.py"
  ∧ path_str (path_join (bot_dir_of "brave otter echo") "/opt/run.sh")
    = "/opt/run.sh"
  ∧ path_str (path_join (bot_dir_of "brave otter echo") "") =
    "/app/brave_otter_echo".
Proof. repeat split; reflexivity. Qed.

Example load_config_sample :
  (load_config sample_words sample_rng "config.json" (JObj sample_document)
     (initial_state sample_fs)).1
  = Ok [("brave otter echo", JObj sample_config)].
Proof. reflexivity. Qed.

Example load_config_two_entries :
  (load_config sample_words sample_rng "config.json" (JObj two_entries)
     (initial_state sample_fs)).1
  = Raise (ValueError "Invalid configuration for brave otter b.").
Proof. reflexivity. Qed.

(** ** The theorems at the sample data *)

Lemma load_config_missing_field_witness :
  sample_words ≠ []
  ∧ ("b", JObj incomplete_config) ∈ two_entries
  ∧ has_required incomplete_config = false
  ∧ ∃ e s', load_config sample_words sample_rng "config.json"
              (JObj two_entries) (initial_state sample_fs) = (Raise e, s').
Proof.
  assert (Hw : sample_words ≠ []) by discriminate.
  assert (Hin : ("b", JObj incomplete_config) ∈ two_entries).
  { apply list_elem_of_further, list_elem_of_here. }
  assert (Hm : has_required incomplete_config = false) by reflexivity.
  split; [exact Hw|]. split; [exact Hin|]. split; [exact Hm|].
  exact (proj1 (load_config_missing_field sample_words sample_rng Hw
                  "config.json" two_entries "b" incomplete_config
                  (initial_state sample_fs) Hin Hm)).
Defined.

Lemma load_config_source_scheme_witness :
  sample_words ≠ []
  ∧ ("files", JObj local_config) ∈ local_document
  ∧ dict_get "source" local_config = Some (JStr "/srv/repos/echo.git")
  ∧ startswith "/srv/repos/echo.git" "http" = false
  ∧ ∃ e s', load_config sample_words sample_rng "config.json"
              (JObj local_document) (initial_state sample_fs) = (Raise e, s').
Proof.
  assert (Hw : sample_words ≠ []) by discriminate.
  assert (Hin : ("files", JObj local_config) ∈ local_document).
  { apply list_elem_of_here. }
  assert (Hs : dict_get "source" local_config =
               Some (JStr "/srv/repos/echo.git")) by reflexivity.
  split; [exact Hw|]. split; [exact Hin|]. split; [exact Hs|].
  split; [reflexivity|].
  exact (proj1 (proj1 (load_config_source_scheme sample_words sample_rng Hw
                         "config.json" local_document "files" local_config
                         "/srv/repos/echo.git"
                         (initial_state sample_fs) Hin Hs) eq_refl)).
Defined.

Lemma environment_merge_law_witness :
  dict_get "env" sample_config = Some (JObj sample_env)
  ∧ dict_get "run" sample_config = Some (JStr "echo.py")
  ∧ NoDup (dict_keys sample_env)
  ∧ merged_env (py_str sample_float_repr sample_str_repr) sample_env
      sample_environ !! "A" = Some "1"
  ∧ merged_env (py_str sample_float_repr sample_str_repr) sample_env
      sample_environ !! "B" = None
  ∧ merged_env (py_str sample_float_repr sample_str_repr) sample_env
      sample_environ !! "HOME" = Some "/root"
  ∧ ∃ a, last (runs_of (trace (start_bot sample_environ sample_float_repr
                                 sample_str_repr sample_exn_str all_succeed
                                 "brave otter echo" (JObj sample_config)
                                 (initial_state sample_fs)).2)) = Some a
         ∧ env a = Some (merged_env (py_str sample_float_repr sample_str_repr)
                           sample_env sample_environ).
Proof.
  assert (He : dict_get "env" sample_config = Some (JObj sample_env))
    by reflexivity.
  assert (Hr : dict_get "run" sample_config = Some (JStr "echo.py"))
    by reflexivity.
  assert (Hnd : NoDup (dict_keys sample_env)).
  { apply NoDup_cons. split; [|apply NoDup_cons; split; [|apply NoDup_nil_2]].
    - intros [H|H]%elem_of_cons; [discriminate H|]. by apply elem_of_nil in H.
    - intros H. by apply elem_of_nil in H. }
  pose proof (environment_merge_law sample_environ sample_float_repr
                sample_str_repr sample_exn_str all_succeed "brave otter echo"
                sample_config sample_env "echo.py" (initial_state sample_fs)
                He Hr Hnd) as (Hrun & Hpoint & _).
  split; [exact He|]. split; [exact Hr|]. split; [exact Hnd|].
  split; [exact (Hpoint "A")|]. split; [exact (Hpoint "B")|].
  split; [exact (Hpoint "HOME")|].
  destruct Hrun as (evs & Hem & _ & Hlast).
  change (trace (start_bot sample_environ sample_float_repr sample_str_repr
                   sample_exn_str all_succeed "brave otter echo"
                   (JObj sample_config) (initial_state sample_fs)).2 = evs)
    in Hem.
  rewrite Hem. apply (Hlast "/app/logs/brave otter echo.log").
  vm_compute. reflexivity.
Defined.

Lemma env_values_are_stringified_witness :
  dict_get "env" shell_config = Some (JObj mixed_env)
  ∧ dict_get "run" shell_config = Some (JStr "start.sh")
  ∧ NoDup (dict_keys mixed_env)
  ∧ ("PORT", JInt 8080) ∈ mixed_env
  ∧ JInt 8080 ≠ JNull
  ∧ ∃ bot_env s',
      set_env sample_float_repr sample_str_repr "brave otter echo" mixed_env
        sample_environ (initial_state sample_fs) = (Ok bot_env, s')
      ∧ bot_env !! "PORT" = Some "8080".
Proof.
  assert (He : dict_get "env" shell_config = Some (JObj mixed_env))
    by reflexivity.
  assert (Hr : dict_get "run" shell_config = Some (JStr "start.sh"))
    by reflexivity.
  assert (Hnd : NoDup (dict_keys mixed_env)).
  { apply (bool_decide_unpack _). vm_compute. exact I. }
  assert (Hin : ("PORT", JInt 8080) ∈ mixed_env) by apply list_elem_of_here.
  assert (Hv : JInt 8080 ≠ JNull) by discriminate.
  split; [exact He|]. split; [exact Hr|]. split; [exact Hnd|].
  split; [exact Hin|]. split; [exact Hv|].
  exact (proj1 (env_values_are_stringified sample_environ sample_float_repr
                  sample_str_repr sample_exn_str all_succeed
                  "brave otter echo" shell_config mixed_env "start.sh"
                  (initial_state sample_fs) "PORT" (JInt 8080)
                  He Hr Hnd Hin Hv)).
Defined.


Lemma stop_bot_bounded_witness :
  dict_get "brave otter echo" (bot_processes stubborn_state) = Some 7
  ∧ (stop_bot "brave otter echo" stubborn_state).1 = Ok ()
  ∧ clock (stop_bot "brave otter echo" stubborn_state).2 = 5
  ∧ alive <$> procs (stop_bot "brave otter echo" stubborn_state).2 !! 7
    = Some false.
Proof.
  assert (Ht : dict_get "brave otter echo" (bot_processes stubborn_state)
               = Some 7) by reflexivity.
  split; [exact Ht|].
  pose proof (stop_bot_bounded "brave otter echo" 7 stubborn_state Ht)
    as ((Hok & _ & _ & Hhang & _) & _).
  split; [exact Hok|]. exact (Hhang eq_refl).
Defined.

(** * Further properties *)

(** ** Python dicts *)

Lemma dict_has_elem {V} k (d : dict V) :
  dict_has k d = true ↔ k ∈ dict_keys d.
Proof.
  unfold dict_has, dict_keys. induction d as [|[k' v] d IH]; simpl.
  - split; [done|]. by intros ?%elem_of_nil.
  - rewrite elem_of_cons, orb_true_iff, IH.
    destruct (String.eqb_spec k k'); naive_solver.
Qed.

Lemma dict_set_keys {V} k (v : V) d :
  dict_keys (dict_set k v d) =
    if dict_has k d then dict_keys d else dict_keys d ++ [k].
Proof.
  unfold dict_has, dict_keys. induction d as [|[k' v'] d IH]; [done|].
  cbn [dict_set]. rewrite fmap_cons. cbn [existsb fst].
  destruct (String.eqb_spec k k') as [->|Hne]; [by rewrite fmap_cons|].
  rewrite fmap_cons. cbn [fst orb]. rewrite IH.
  by destruct (existsb _ _).
Qed.

Lemma dict_set_NoDup {V} k (v : V) d :
  NoDup (dict_keys d) → NoDup (dict_keys (dict_set k v d)).
Proof.
  intros Hnd. rewrite dict_set_keys.
  destruct (dict_has k d) eqn:E; [done|].
  apply NoDup_app. split; [done|]. split; [|apply NoDup_singleton].
  intros x Hx ->%list_elem_of_singleton.
  apply dict_has_elem in Hx. congruence.
Qed.

Lemma dict_set_elem {V} k (v : V) k' v' d :
  (k', v') ∈ dict_set k v d → (k', v') = (k, v) ∨ (k', v') ∈ d.
Proof.
  induction d as [|[k0 v0] d IH]; simpl.
  - intros ->%list_elem_of_singleton. by left.
  - destruct (String.eqb k k0).
    + intros [->|?]%elem_of_cons; [by left|]. right. by right.
    + intros [->|?]%elem_of_cons; [right; by left|].
      destruct IH as [?|?]; [done|by left|]. right. by right.
Qed.

Lemma dict_set_length {V} k (v : V) d :
  length (dict_set k v d) =
    if dict_has k d then length d else S (length d).
Proof.
  rewrite <- !(length_fmap fst). fold (dict_keys (dict_set k v d)).
  fold (dict_keys d). rewrite dict_set_keys.
  destruct (dict_has k d); [done|]. rewrite length_app. simpl. lia.
Qed.

(** ** More on loading *)

Lemma only_logs_refl s : only_logs s s.
Proof.
  do 4 (split; [done|]). exists []. split; [apply emitted_refl|done].
Qed.

Lemma only_logs_trans s1 s2 s3 :
  only_logs s1 s2 → only_logs s2 s3 → only_logs s1 s3.
Proof.
  intros (? & ? & ? & ? & evs & ? & ?) (? & ? & ? & ? & evs' & ? & ?).
  split; [congruence|]. split; [congruence|]. split; [congruence|].
  split; [congruence|]. exists (evs ++ evs').
  split; [by eapply emitted_trans|]. by apply Forall_app.
Qed.

Lemma only_logs_log s s' l m :
  only_logs s s' → only_logs s (set_trace (λ t, t ++ [Log l m]) s').
Proof.
  intros H. eapply only_logs_trans; [exact H|].
  do 4 (split; [done|]). exists [Log l m]. split; [done|].
  by constructor.
Qed.

Lemma only_logs_draws s s' n :
  only_logs s s' → only_logs s (set_draws n s').
Proof.
  intros H. eapply only_logs_trans; [exact H|].
  do 4 (split; [done|]). exists []. split; [|done].
  unfold emitted. simpl. by rewrite app_nil_r.
Qed.

Ltac solve_only_logs :=
  repeat first [ apply only_logs_log | apply only_logs_draws ];
  apply only_logs_refl.

Lemma all_in_raises keys c e : all_in keys c = Raise e → e = TypeError.
Proof.
  induction keys as [|k keys IH]; [done|]. simpl.
  destruct (py_in k c) as [[|]|e'] eqn:E; try done.
  intros [= <-]. destruct c; simpl in E; congruence.
Qed.

Lemma py_startswith_raises v p e :
  py_startswith v p = Raise e → e = AttributeError.
Proof. destruct v; naive_solver. Qed.

Section MoreLoading.
Variable WORD_LIST : list string.
Variable rng : nat → nat.

Lemma load_entry_only_logs name cfg nb s :
  only_logs s (load_entry WORD_LIST rng name cfg nb s).2.
Proof.
  change (wp (load_entry WORD_LIST rng name cfg nb) s
            (λ _ s', only_logs s s')).
  unfold load_entry, generate_prefix, check_entry.
  repeat first [ apply wp_random_choice; [intros ?w|] | wp_step ];
    cbv beta iota; solve_only_logs.
Qed.

Lemma load_loop_only_logs items nb s :
  only_logs s (load_loop WORD_LIST rng items nb s).2.
Proof.
  revert nb s. induction items as [|[n c] items IH]; intros nb s.
  { apply only_logs_refl. }
  rewrite load_loop_cons.
  pose proof (load_entry_only_logs n c nb s) as H.
  destruct (load_entry WORD_LIST rng n c nb s) as [[nb'|e] s']; simpl in H.
  - eapply only_logs_trans; [exact H|apply IH].
  - done.
Qed.

Lemma load_config_quiet file bots s :
  only_logs s (load_config WORD_LIST rng file bots s).2.
Proof.
  unfold load_config. rewrite bind_run. simpl. rewrite bind_run.
  unfold lift at 1. destruct (py_items bots) as [items|e]; simpl.
  - rewrite bind_run.
    pose proof (load_loop_only_logs items []
      (set_trace (λ t, t ++ [Log INFO ("Loading configuration from "
                                        +:+ file)]) s)) as H.
    destruct (load_loop _ _ _ _ _) as [[nb|e] s']; simpl in *.
    + apply only_logs_log. eapply only_logs_trans; [|exact H].
      solve_only_logs.
    + eapply only_logs_trans; [|exact H]. solve_only_logs.
  - solve_only_logs.
Qed.

(** X5. Loading the configuration does nothing but write log records
    and draw random words: whatever the manifest and however the load
    ends, the file system, the tracking table, the processes and the
    clock are as before, and no command has been run. *)
Theorem load_config_only_logs file bots s :
  let out := load_config WORD_LIST rng file bots s in
  only_logs s out.2 ∧ runs_of (drop (length (trace s)) (trace out.2)) = [].
Proof.
  intros out. pose proof (load_config_quiet file bots s) as H.
  split; [done|].
  destruct H as (_ & _ & _ & _ & evs & Hem & Hlogs).
  unfold out. rewrite Hem, drop_app_length.
  clear Hem. induction Hlogs as [|e evs He _ IH]; [done|].
  destruct e; try done.
Qed.

End MoreLoading.

Lemma str_app_assoc a b c : (a +:+ b) +:+ c = a +:+ (b +:+ c).
Proof.
  induction a as [|x a IH]; [done|].
  change (String x ((a +:+ b) +:+ c) = String x (a +:+ (b +:+ c))).
  by rewrite IH.
Qed.

(** A string is cut in one way only at the first occurrence of a
    character. *)
Lemma str_cut_unique c a a' b b' :
  has_char c a = false → has_char c a' = false →
  a +:+ String c b = a' +:+ String c b' → a = a' ∧ b = b'.
Proof.
  revert a'. induction a as [|x a IH]; intros [|x' a']; simpl.
  - intros _ _ [= ->]. done.
  - intros _ [Hx _]%orb_false_iff [= <- _].
    by rewrite Ascii.eqb_refl in Hx.
  - intros [Hx _]%orb_false_iff _ [= -> _].
    by rewrite Ascii.eqb_refl in Hx.
  - intros [_ Ha]%orb_false_iff [_ Ha']%orb_false_iff [= -> Heq].
    destruct (IH a' Ha Ha' Heq) as [-> ->]. done.
Qed.

Lemma prefixed_inj w1 w2 n w1' w2' n' :
  has_char " " w1 = false → has_char " " w2 = false →
  has_char " " w1' = false → has_char " " w2' = false →
  prefixed w1 w2 n = prefixed w1' w2' n' → n = n'.
Proof.
  intros H1 H2 H1' H2'. unfold prefixed. rewrite !str_app_assoc.
  change (" " +:+ ?x) with (String " " x).
  intros Heq.
  apply (str_cut_unique " " w1 w1') in Heq as [_ Heq]; [|done..].
  apply (str_cut_unique " " w2 w2') in Heq as [_ Heq]; done.
Qed.

Lemma dict_set_fresh {V} k (v : V) d :
  dict_has k d = false → dict_set k v d = d ++ [(k, v)].
Proof.
  unfold dict_has, dict_keys. induction d as [|[k' v'] d IH]; [done|].
  rewrite fmap_cons. cbn [existsb fst dict_set].
  intros [Hk Hd]%orb_false_iff. rewrite Hk. simpl. by rewrite IH.
Qed.

Section Loaded.
Variable WORD_LIST : list string.
Variable rng : nat → nat.

Lemma random_choice_at w s :
  WORD_LIST !! (rng (draws s) mod length WORD_LIST) = Some w →
  random_choice rng WORD_LIST s = (Ok w, set_draws (S (draws s)) s).
Proof.
  intros H. unfold random_choice. destruct WORD_LIST; [done|]. by rewrite H.
Qed.

Lemma random_choice_inv w s s' :
  random_choice rng WORD_LIST s = (Ok w, s') →
  WORD_LIST !! (rng (draws s) mod length WORD_LIST) = Some w ∧
  s' = set_draws (S (draws s)) s.
Proof.
  unfold random_choice. destruct WORD_LIST as [|w0 ws] eqn:E; [done|].
  destruct ((w0 :: ws) !! _) eqn:El; [|done]. by intros [= <- <-].
Qed.

(** X1. With a non-empty word list [generate_prefix] returns two words
    of the list joined by one space: the words at the positions given
    by the next two random draws, taken independently (the same word
    may come twice).  It makes exactly two draws and writes one log
    record that shows the prefix. *)
Theorem generate_prefix_two_words s :
  WORD_LIST ≠ [] →
  ∃ w1 w2 s',
    WORD_LIST !! (rng (draws s) mod length WORD_LIST) = Some w1 ∧
    WORD_LIST !! (rng (S (draws s)) mod length WORD_LIST) = Some w2 ∧
    generate_prefix WORD_LIST rng s = (Ok (w1 +:+ " " +:+ w2), s') ∧
    draws s' = S (S (draws s)) ∧
    trace s' = trace s ++
               [Log INFO ("Generated prefix: " +:+ w1 +:+ " " +:+ w2)] ∧
    only_logs s s'.
Proof.
  intros Hne.
  assert (Hlt : ∀ n, n mod length WORD_LIST < length WORD_LIST).
  { intros n. apply Nat.mod_upper_bound. by destruct WORD_LIST. }
  destruct (lookup_lt_is_Some_2 WORD_LIST _ (Hlt (rng (draws s)))) as [w1 H1].
  destruct (lookup_lt_is_Some_2 WORD_LIST _ (Hlt (rng (S (draws s)))))
    as [w2 H2].
  exists w1, w2. eexists. split; [done|]. split; [done|].
  unfold generate_prefix.
  rewrite bind_run, (random_choice_at w1 s H1).
  rewrite bind_run, (random_choice_at w2 (set_draws (S (draws s)) s) H2).
  split; [reflexivity|]. split; [done|]. split; [done|]. solve_only_logs.
Qed.

Lemma generate_prefix_inv p s s' :
  generate_prefix WORD_LIST rng s = (Ok p, s') →
  ∃ w1 w2, w1 ∈ WORD_LIST ∧ w2 ∈ WORD_LIST ∧ p = w1 +:+ " " +:+ w2 ∧
           draws s' = S (S (draws s)).
Proof.
  unfold generate_prefix. rewrite bind_run.
  destruct (random_choice rng WORD_LIST s) as [[w1|] s1] eqn:E1; [|done].
  apply random_choice_inv in E1 as [H1 ->].
  rewrite bind_run.
  destruct (random_choice rng WORD_LIST _) as [[w2|] s2] eqn:E2; [|done].
  apply random_choice_inv in E2 as [H2 ->].
  intros [= <- <-]. exists w1, w2.
  split; [by eapply list_elem_of_lookup_2|].
  split; [by eapply list_elem_of_lookup_2|]. done.
Qed.

Lemma check_entry_inv p cfg nb s nb' s' :
  check_entry p cfg nb s = (Ok nb', s') →
  valid_entry cfg = true ∧ nb' = dict_set p cfg nb ∧ draws s' = draws s.
Proof.
  unfold check_entry. rewrite bind_run. unfold lift at 1.
  destruct (all_in _ cfg) as [[|]|] eqn:Ea; simpl; try done.
  rewrite bind_run. unfold lift at 1.
  destruct cfg as [| | | | | |d]; simpl; try done.
  rewrite all_in_required in Ea. injection Ea as Ea.
  destruct (dict_get "source" d) as [src|] eqn:Es; simpl; [|done].
  rewrite bind_run. unfold lift at 1.
  destruct src as [| | | |u| |]; simpl; try done.
  destruct (startswith u "http") eqn:Eh; simpl; [|done].
  intros [= <- <-]. by rewrite Ea.
Qed.

Lemma load_entry_inv n cfg nb s nb' s' :
  load_entry WORD_LIST rng n cfg nb s = (Ok nb', s') →
  valid_entry cfg = true ∧ draws s' = S (S (draws s)) ∧
  ∃ w1 w2, w1 ∈ WORD_LIST ∧ w2 ∈ WORD_LIST ∧
           nb' = dict_set (prefixed w1 w2 n) cfg nb.
Proof.
  unfold load_entry. rewrite bind_run.
  destruct (generate_prefix WORD_LIST rng s) as [[p|] s1] eqn:Eg; [|done].
  apply generate_prefix_inv in Eg as (w1 & w2 & ? & ? & -> & Hd).
  intros (? & -> & Hd')%check_entry_inv.
  split; [done|]. split; [congruence|]. by exists w1, w2.
Qed.

Lemma load_loop_valid items nb s nb' s' :
  load_loop WORD_LIST rng items nb s = (Ok nb', s') →
  Forall (λ nc, valid_entry nc.2 = true) items.
Proof.
  revert nb s. induction items as [|[n c] items IH]; intros nb s; [done|].
  rewrite load_loop_cons.
  destruct (load_entry WORD_LIST rng n c nb s) as [[nb1|] s1] eqn:E; [|done].
  apply load_entry_inv in E as (Hv & _). intros H.
  constructor; [done|]. by eapply IH.
Qed.

Lemma load_config_inv file bots s nb s' :
  load_config WORD_LIST rng file bots s = (Ok nb, s') →
  ∃ items s1,
    bots = JObj items ∧
    load_loop WORD_LIST rng items []
      (set_trace (λ t, t ++ [Log INFO ("Loading configuration from "
                                        +:+ file)]) s) = (Ok nb, s1) ∧
    draws s' = draws s1.
Proof.
  destruct bots as [| | | | | |items]; try done.
  rewrite load_config_run.
  destruct (load_loop _ _ _ _ _) as [[nb1|] s1] eqn:E; [|done].
  intros [= <- <-]. by exists items, s1.
Qed.

(** X2. With a non-empty word list [load_config] returns normally
    exactly when the document is an object all of whose entries are
    acceptable: objects that hold [source], [run] and [env] and whose
    [source] is a string starting with [http]. *)
Theorem load_config_accepts_iff_valid file bots s :
  WORD_LIST ≠ [] →
  (∃ nb s', load_config WORD_LIST rng file bots s = (Ok nb, s')) ↔
  (∃ items, bots = JObj items ∧
            Forall (λ nc, valid_entry nc.2 = true) items).
Proof.
  intros Hne. split.
  - intros (nb & s' & (items & s1 & -> & Hl & _)%load_config_inv).
    exists items. split; [done|]. by eapply load_loop_valid.
  - intros (items & -> & Hv). rewrite load_config_run.
    destruct (load_loop_through WORD_LIST rng Hne items [] []
                (set_trace (λ t, t ++ [Log INFO
                   ("Loading configuration from " +:+ file)]) s) Hv)
      as (nb & s1 & E).
    rewrite app_nil_r in E. rewrite E. simpl. eauto.
Qed.

Lemma load_loop_result items nb s nb' s' :
  load_loop WORD_LIST rng items nb s = (Ok nb', s') →
  NoDup (dict_keys nb) →
  NoDup (dict_keys nb') ∧
  (length nb' ≤ length nb + length items)%nat ∧
  draws s' = draws s + 2 * length items ∧
  ∀ k c, (k, c) ∈ nb' →
    (k, c) ∈ nb ∨
    ∃ n w1 w2, (n, c) ∈ items ∧ w1 ∈ WORD_LIST ∧ w2 ∈ WORD_LIST ∧
               k = prefixed w1 w2 n.
Proof.
  revert nb s. induction items as [|[n c] items IH]; intros nb s.
  { intros [= <- <-] Hnd. split; [done|]. split; [simpl; lia|].
    split; [simpl; lia|]. auto. }
  rewrite load_loop_cons.
  destruct (load_entry WORD_LIST rng n c nb s) as [[nb1|] s1] eqn:E; [|done].
  apply load_entry_inv in E as (_ & Hd & w1 & w2 & Hw1 & Hw2 & ->).
  intros Hl Hnd.
  destruct (IH _ _ Hl) as (Hnd' & Hlen & Hdr & Hin).
  { by apply dict_set_NoDup. }
  split; [done|]. split.
  { rewrite dict_set_length in Hlen. simpl length.
    destruct (dict_has _ nb); lia. }
  split; [simpl length; lia|].
  intros k c' Hk. destruct (Hin k c' Hk) as [Hs|(n' & v1 & v2 & ? & ? & ? & ->)].
  - apply dict_set_elem in Hs as [[= -> ->]|?]; [|by left].
    right. exists n, w1, w2. split; [by left|]. done.
  - right. exists n', v1, v2. split; [by right|]. done.
Qed.

(** X3. What [load_config] returns: a dict (no key twice) with at most
    one workload per entry of the manifest, each under a key made of
    two words of the list, a space and the name of an entry, with the
    configuration of that entry unchanged.  Two random draws were made
    per entry. *)
Theorem load_config_result file items s nb s' :
  load_config WORD_LIST rng file (JObj items) s = (Ok nb, s') →
  NoDup (dict_keys nb) ∧
  (length nb ≤ length items)%nat ∧
  draws s' = draws s + 2 * length items ∧
  ∀ k c, (k, c) ∈ nb →
    ∃ n w1 w2, (n, c) ∈ items ∧ w1 ∈ WORD_LIST ∧ w2 ∈ WORD_LIST ∧
               k = (w1 +:+ " " +:+ w2) +:+ " " +:+ n.
Proof.
  intros (items' & s1 & [= <-] & Hl & Hd)%load_config_inv.
  destruct (load_loop_result _ _ _ _ _ Hl) as (Hnd & Hlen & Hdr & Hin).
  { apply NoDup_nil_2. }
  split; [done|]. split; [simpl in Hlen; lia|]. split; [by rewrite Hd, Hdr|].
  intros k c Hk. destruct (Hin k c Hk) as [?%elem_of_nil|?]; done.
Qed.

Lemma load_loop_keeps_all items names nb s nb' s' :
  (∀ w, w ∈ WORD_LIST → has_char " " w = false) →
  named nb names →
  NoDup (names ++ items.*1) →
  load_loop WORD_LIST rng items nb s = (Ok nb', s') →
  named nb' (names ++ items.*1) ∧ nb'.*2 = nb.*2 ++ items.*2.
Proof.
  intros Hws. revert names nb s.
  induction items as [|[n c] items IH]; intros names nb s Hnamed Hnd.
  { intros [= <- <-]. by rewrite !app_nil_r. }
  rewrite load_loop_cons.
  destruct (load_entry WORD_LIST rng n c nb s) as [[nb1|] s1] eqn:E; [|done].
  apply load_entry_inv in E as (_ & _ & w1 & w2 & Hw1 & Hw2 & ->).
  assert (Hfresh : dict_has (prefixed w1 w2 n) nb = false).
  { destruct (dict_has _ nb) eqn:Eh; [|done]. exfalso.
    apply dict_has_elem in Eh. unfold dict_keys in Eh.
    apply list_elem_of_fmap in Eh as ([k c0] & Hk & Hin). simpl in Hk.
    unfold named in Hnamed.
    apply list_elem_of_lookup in Hin as [i Hi].
    destruct (Forall2_lookup_l _ _ _ _ _ Hnamed Hi)
      as (n0 & Hn0 & v1 & v2 & ? & ? & Hk0).
    simpl in Hk0. rewrite Hk0 in Hk.
    apply prefixed_inj in Hk; [|by auto..]. subst n0.
    rewrite fmap_cons in Hnd. apply NoDup_app in Hnd as (_ & Hd & _).
    apply (Hd n); [by eapply list_elem_of_lookup_2|]. by left. }
  rewrite (dict_set_fresh _ _ _ Hfresh). intros Hl.
  destruct (IH (names ++ [n]) (nb ++ [(prefixed w1 w2 n, c)]) s1)
    as (Hn' & Hv); [..|exact Hl|].
  - apply Forall2_app; [done|]. constructor; [|done].
    exists w1, w2. auto.
  - rewrite fmap_cons in Hnd. simpl in Hnd. by rewrite <- app_assoc.
  - rewrite fmap_cons. simpl. split.
    + by rewrite <- app_assoc in Hn'.
    + rewrite Hv, fmap_app. simpl. by rewrite <- app_assoc.
Qed.

(** X4. When no word of the list holds a space, a manifest of N
    acceptable entries (a dict: no name twice) gives N workloads: no
    two entries get the same prefixed name, the configurations come
    back in the order of the manifest, and each key is the name of its
    entry behind two words of the list. *)
Theorem load_config_keeps_all file items s nb s' :
  (∀ w, w ∈ WORD_LIST → has_char " " w = false) →
  NoDup (dict_keys items) →
  load_config WORD_LIST rng file (JObj items) s = (Ok nb, s') →
  length nb = length items ∧ nb.*2 = items.*2 ∧
  Forall2 (λ kc nc, ∃ w1 w2, kc.1 = (w1 +:+ " " +:+ w2) +:+ " " +:+ nc.1)
          nb items.
Proof.
  intros Hws Hnd (items' & s1 & [= <-] & Hl & _)%load_config_inv.
  assert (H0 : named [] []) by constructor.
  destruct (load_loop_keeps_all items [] [] _ nb s1 Hws H0 Hnd Hl)
    as (Hn & Hv).
  simpl in Hn, Hv. split; [|split; [done|]].
  - rewrite <- (length_fmap snd nb), Hv. by rewrite length_fmap.
  - unfold named in Hn. apply Forall2_fmap_r in Hn.
    eapply Forall2_impl; [exact Hn|].
    intros kc nc (w1 & w2 & _ & _ & ?). by exists w1, w2.
Qed.

End Loaded.

(** ** The order of the commands *)

Lemma wp_fs_open_w_exact file s (Q : result unit → state → Prop) :
  (∀ t, open_w (fs s) (parts (parse_path file)) = Ok t →
        Q (Ok ()) (set_fs t s)) →
  (∀ o, open_w (fs s) (parts (parse_path file)) = Raise (OSError o) →
        Q (Raise (OSError o)) s) →
  wp (fs_open_w file) s Q.
Proof.
  intros HOk HRaise. unfold wp, fs_open_w.
  destruct (open_w _ _) as [t|e] eqn:E; [by apply HOk|].
  destruct (open_w_raises _ _ _ E) as [o ->]. by apply HRaise.
Qed.

(** As [wp_step], keeping what the opening of the log file gave. *)
Ltac wp_step_open :=
  lazymatch goal with
  | |- wp (fs_open_w _) _ _ =>
      apply wp_fs_open_w_exact; [intros ?t ?Hopen|intros ?o ?Hopen];
      cbv beta iota zeta; try done
  | _ => wp_step
  end.

Ltac order_unopened :=
  split; [first [eassumption|done]|];
  eexists; split; [eassumption|]; split; reflexivity.

Ltac order_shape :=
  first
    [ left; reflexivity
    | right; do 2 eexists; split; [reflexivity|]; split; [eassumption|];
      first
        [ left; eexists; split; [reflexivity|];
          intros; simplify_eq; first [done|order_unopened]
        | right; left; do 3 eexists; split; [reflexivity|];
          split; [eassumption|];
          intros; simplify_eq;
          first [done|eexists; split; [eassumption|]; split; reflexivity]
        | right; right; left; do 3 eexists; split; [reflexivity|];
          split; [eassumption|]; eexists; eassumption
        | right; right; right; do 5 eexists; split; [reflexivity|];
          split; [eassumption|]; eexists; eassumption
        ] ].

Lemma as_str_raises_not v e :
  as_str v = Raise e → e = TypeError ∧ ∀ b, v ≠ JStr b.
Proof. destruct v; naive_solver. Qed.

Ltac order_facts :=
  repeat match goal with
    | H : context [true && _] |- _ => rewrite andb_true_l in H
    | H : context [false && _] |- _ => rewrite andb_false_l in H
    | H : context [(_, _).1] |- _ => cbn [fst] in H
    | H : context [(_, _).2] |- _ => cbn [snd] in H
    | H : as_str _ = Raise _ |- _ => apply as_str_raises_not in H as [-> ?]
    | H : as_str _ = Ok _ |- _ => apply as_str_ok in H
    | H : negb _ = true |- _ => apply negb_true_iff in H
    | H : negb _ = false |- _ => apply negb_false_iff in H
    | H : (_ =? _)%Z = true |- _ => apply Z.eqb_eq in H
    | H : (_ =? _)%Z = false |- _ => apply Z.eqb_neq in H
    end.

Section Order.
Variable float_repr : float → string.
Variable str_repr : string → string.
Variable exn_str : exn → string.
Variable run_process : list event → run_args → node → proc_outcome.

Lemma start_bot_try_order bot_name bot_config bot_env bot_dir bot_file
    branch s :
  wp (try_except
        (start_bot_try float_repr str_repr run_process bot_name bot_config
           bot_env bot_dir (path_join bot_dir "requirements.txt") bot_file
           branch)
        start_bot_catches (start_bot_handler exn_str bot_name)) s
     (λ r s', ∃ evs, emitted s s' evs ∧
        start_bot_order exn_str bot_name bot_config branch bot_dir
          (path_join bot_dir "requirements.txt") bot_file bot_env r evs).
Proof.
  unfold start_bot_try. repeat wp_step_open.
  all: (eexists; split; [solve_emitted|]); cbn [app].
  all: order_facts; subst.
  all: unfold start_bot_order, launch_cmd, install_cmd, clone_cmd,
         interpreter_of, log_file_of.
  all: repeat match goal with H : String.eqb _ _ = _ |- _ => rewrite H end.
  all: cbv zeta.
  all: (split; [order_shape|]).
  all: try (split; [intros; in_cases; simplify_eq; done|]).
  all: try (split; [intros; simplify_eq; try done; eauto|]).
  all: try (intros; simplify_eq; try done; eauto; fail).
  all: try (intros; simplify_eq; naive_solver).
  all: intros Hr; right; intros src Hs;
       match goal with
       | H : py_getitem _ _ = Raise _ |- _ => rewrite Hs in H; discriminate H
       | H : py_getitem _ _ = Ok ?a, H' : ∀ b, ?a ≠ JStr b |- _ =>
           rewrite Hs in H; injection H as <-; by destruct (H' src)
       end.
Qed.

Lemma outcomes_of_app t1 t2 :
  outcomes_of (t1 ++ t2) = outcomes_of t1 ++ outcomes_of t2.
Proof. apply omap_app. Qed.

Lemma runs_of_outcomes t : runs_of t = (outcomes_of t).*1.
Proof.
  induction t as [|e t IH]; [done|].
  destruct e; simpl; try done. by rewrite IH.
Qed.

Lemma outcomes_of_quiet t : runs_of t = [] → outcomes_of t = [].
Proof.
  rewrite runs_of_outcomes. by destruct (outcomes_of t).
Qed.

Lemma start_bot_order_prefix bot_name cfg branch dir req file bot_env r
    pre evs :
  runs_of pre = [] →
  start_bot_order exn_str bot_name cfg branch dir req file bot_env r evs →
  start_bot_order exn_str bot_name cfg branch dir req file bot_env r
    (pre ++ evs).
Proof.
  intros Hpre (Hshape & Hlaunch & Hkey & Htype).
  unfold start_bot_order.
  rewrite outcomes_of_app, (outcomes_of_quiet pre Hpre). simpl.
  split; [|split; [|done]].
  - destruct Hshape as [?|(b & src & Hb & Hs & Hcases)]; [by left|].
    right. exists b, src. split; [done|]. split; [done|].
    destruct Hcases as [(o & Ho & Hun)|[(err & t & o & Ho & Hreq & Hun)|H]].
    + left. exists o. split; [done|]. intros err t Heq.
      destruct (Hun err t Heq) as (Hreq & e & Hop & Hr & Hl).
      split; [done|]. exists e. split; [done|]. split; [done|].
      by apply last_app_Some.
    + right. left. exists err, t, o. split; [done|]. split; [done|].
      intros err' t' Heq.
      destruct (Hun err' t' Heq) as (e & Hop & Hr & Hl).
      exists e. split; [done|]. split; [done|]. by apply last_app_Some.
    + right. right. exact H.
  - intros rc err t [Hin|Hin]%elem_of_app; [|by eapply Hlaunch].
    apply run_in_runs_of in Hin. rewrite Hpre in Hin.
    by apply elem_of_nil in Hin.
Qed.

End Order.

Section OrderOfStart.
Variable os_environ : gmap string string.
Variable float_repr : float → string.
Variable str_repr : string → string.
Variable exn_str : exn → string.
Variable run_process : list event → run_args → node → proc_outcome.

Lemma start_bot_try_both bot_name bot_config bot_env bot_dir bot_file
    branch s :
  wp (try_except
        (start_bot_try float_repr str_repr run_process bot_name bot_config
           bot_env bot_dir (path_join bot_dir "requirements.txt") bot_file
           branch)
        start_bot_catches (start_bot_handler exn_str bot_name)) s
     (λ r s', ∃ evs, emitted s s' evs ∧
        start_bot_post exn_str bot_name bot_config branch bot_dir
          (path_join bot_dir "requirements.txt") bot_file bot_env r evs ∧
        start_bot_order exn_str bot_name bot_config branch bot_dir
          (path_join bot_dir "requirements.txt") bot_file bot_env r evs).
Proof.
  pose proof (start_bot_try_post float_repr str_repr exn_str run_process
                bot_name bot_config bot_env bot_dir bot_file branch s) as H1.
  pose proof (start_bot_try_order float_repr str_repr exn_str run_process
                bot_name bot_config bot_env bot_dir bot_file branch s) as H2.
  unfold wp in *.
  destruct H1 as (evs & Hem & _ & Hpost). destruct H2 as (evs' & Hem' & Hord).
  exists evs. split; [done|]. split; [done|].
  unfold emitted in *. rewrite Hem in Hem'.
  by apply app_inv_head in Hem' as <-.
Qed.

(** What [start_bot] leaves behind, in full, for a workload whose [env]
    is an object and whose [run] is a string. *)
Lemma start_bot_full bot_name d items run s :
  dict_get "env" d = Some (JObj items) →
  dict_get "run" d = Some (JStr run) →
  wp (start_bot os_environ float_repr str_repr exn_str run_process bot_name
        (JObj d)) s
     (λ r s', ∃ evs, emitted s s' evs ∧
        start_bot_post exn_str bot_name (JObj d)
          (default (JStr "main") (dict_get "branch" d))
          (bot_dir_of bot_name)
          (path_join (bot_dir_of bot_name) "requirements.txt")
          (path_join (bot_dir_of bot_name) run)
          (bot_env_of (py_str float_repr str_repr) items os_environ) r evs ∧
        start_bot_order exn_str bot_name (JObj d)
          (default (JStr "main") (dict_get "branch" d))
          (bot_dir_of bot_name)
          (path_join (bot_dir_of bot_name) "requirements.txt")
          (path_join (bot_dir_of bot_name) run)
          (bot_env_of (py_str float_repr str_repr) items os_environ) r evs).
Proof.
  intros Henv Hrun. unfold start_bot. simpl py_getitem. simpl py_get.
  rewrite Henv, Hrun.
  do 6 wp_step. simpl py_items. do 3 wp_step.
  apply wp_set_env. intros s1 logs Hem Hruns Hbp.
  do 7 wp_step. injection Heqr as <-.
  eapply wp_mono; [apply start_bot_try_both|].
  intros r s' (evs & Hem' & Hpost & Hord).
  exists (([Log INFO ("Starting bot: " +:+ bot_name); Sleep 5] ++ logs)
          ++ evs).
  split; [|split].
  - eapply emitted_trans; [|done]. eapply emitted_trans; [|done].
    unfold emitted. simpl. by rewrite <- app_assoc.
  - apply start_bot_post_prefix; [|done]. by rewrite runs_of_app, Hruns.
  - apply start_bot_order_prefix; [|done]. by rewrite runs_of_app, Hruns.
Qed.

End OrderOfStart.
Lemma py_getitem_obj d k v :
  py_getitem (JObj d) k = Ok v → dict_get k d = Some v.
Proof. simpl. destruct (dict_get k d); naive_solver. Qed.

Lemma outcomes_of_logs evs :
  Forall (λ e, is_log e = true) evs → outcomes_of evs = [].
Proof.
  induction 1 as [|e evs He _ IH]; [done|]. by destruct e.
Qed.

Section QuietEnvironment.
Variable float_repr : float → string.
Variable str_repr : string → string.

Lemma set_env_only_logs bot_name items base s :
  only_logs s (set_env float_repr str_repr bot_name items base s).2.
Proof.
  revert base s. induction items as [|[k v] items IH]; intros base s.
  { apply only_logs_refl. }
  destruct v; simpl; first [apply IH|idtac].
  all: eapply only_logs_trans; [|apply IH].
  all: apply only_logs_log, only_logs_refl.
Qed.

Lemma wp_set_env_quiet bot_name items base s
    (Q : result (gmap string string) → state → Prop) :
  (∀ s', only_logs s s' →
     Q (Ok (bot_env_of (py_str float_repr str_repr) items base)) s') →
  wp (set_env float_repr str_repr bot_name items base) s Q.
Proof.
  intros H. unfold wp.
  pose proof (set_env_only_logs bot_name items base s) as Hq.
  destruct (set_env_run float_repr str_repr bot_name items base s)
    as (s' & logs & E & _).
  rewrite E in *. simpl in *. by apply H.
Qed.

End QuietEnvironment.

Section MoreWorkloads.
Variable os_environ : gmap string string.
Variable float_repr : float → string.
Variable str_repr : string → string.
Variable exn_str : exn → string.
Variable run_process : list event → run_args → node → proc_outcome.

Local Abbreviation run_bot :=
  (start_bot os_environ float_repr str_repr exn_str run_process).
Local Abbreviation str := (py_str float_repr str_repr).


(** X9. The exit status of the workload is not looked at.  For a
    workload whose [env] is an object and whose [run] is a string, once
    the launch of the entry point has run to its end, with whatever
    exit status, [start_bot] returns the log file and its last record
    says that the workload started successfully. *)
Theorem workload_status_ignored bot_name d items run s :
  dict_get "env" d = Some (JObj items) →
  dict_get "run" d = Some (JStr run) →
  let bot_dir := bot_dir_of bot_name in
  let bot_file := path_join bot_dir run in
  let launch :=
    launch_cmd (interpreter_of bot_file) bot_dir bot_file
               (bot_env_of str items os_environ) (log_file_of bot_name) in
  ∃ evs, emitted s (run_bot bot_name (JObj d) s).2 evs ∧
    ∀ rc err t, Run launch (Completed rc err t) ∈ evs →
      (run_bot bot_name (JObj d) s).1 = Ok (Some (log_file_of bot_name)) ∧
      last evs = Some (Log INFO
                         (bot_name +:+
                          " started successfully. Logs can be found in " +:+
                          log_file_of bot_name)).
Proof.
  intros Henv Hrun bot_dir bot_file launch.
  pose proof (start_bot_full os_environ float_repr str_repr exn_str
                run_process bot_name d items run s Henv Hrun) as H.
  unfold wp in H.
  destruct H as (evs & Hem & (_ & _ & _ & _ & Hres) & _ & Hlaunch & _).
  exists evs. split; [done|].
  intros rc err t Hin. specialize (Hlaunch rc err t Hin).
  split; [done|]. rewrite Hlaunch in Hres. by destruct Hres as (_ & _ & ?).
Qed.

(** X10. What is fetched.  For a workload whose [env] is an object and
    whose [run] is a string, the one command [start_bot] runs with its
    output captured is [git clone -b <branch> --single-branch <source>
    <directory>], where the source is the string under [source], the
    directory is the working directory of the workload, and the branch
    is the value under [branch], which is then a string, or ["main"]
    when the entry has no such key. *)
Theorem fetch_uses_branch bot_name d items run s :
  dict_get "env" d = Some (JObj items) →
  dict_get "run" d = Some (JStr run) →
  ∃ evs, emitted s (run_bot bot_name (JObj d) s).2 evs ∧
    ∀ a o, Run a o ∈ evs → capture_output a = true →
      ∃ b src,
        argv a = ["git"; "clone"; "-b"; b; "--single-branch"; src;
                  path_str (bot_dir_of bot_name)] ∧
        cwd a = None ∧ env a = None ∧
        dict_get "source" d = Some (JStr src) ∧
        (dict_get "branch" d = None → b = "main") ∧
        (∀ v, dict_get "branch" d = Some v → v = JStr b).
Proof.
  intros Henv Hrun.
  pose proof (start_bot_full os_environ float_repr str_repr exn_str
                run_process bot_name d items run s Henv Hrun) as H.
  unfold wp in H. destruct H as (evs & Hem & (Hcmd & _) & _).
  exists evs. split; [done|].
  intros a o Hin Hcap.
  destruct (Hcmd a o Hin) as [(b & src & Hb & Hsrc & ->)|[-> | ->]];
    [|discriminate Hcap..].
  exists b, src. apply py_getitem_obj in Hsrc.
  repeat split; try done.
  - intros Hnone. rewrite Hnone in Hb. by injection Hb.
  - intros v Hv. by rewrite Hv in Hb.
Qed.

(** X11. A branch that is not a string.  For a workload whose [env] is
    an object and whose [run] is a string, with a [source], and whose
    [branch] is there but is not a string (null, a number, ...),
    [start_bot] runs no command at all: either the preparation of the
    directory failed, and it returns [None] after an error record, or
    it raises [TypeError], which none of its handlers catches. *)
Theorem branch_not_a_string bot_name d items run src v s :
  dict_get "env" d = Some (JObj items) →
  dict_get "run" d = Some (JStr run) →
  dict_get "source" d = Some src →
  dict_get "branch" d = Some v →
  (∀ b, v ≠ JStr b) →
  ∃ evs, emitted s (run_bot bot_name (JObj d) s).2 evs ∧
    outcomes_of evs = [] ∧
    ((run_bot bot_name (JObj d) s).1 = Raise TypeError ∨
     (run_bot bot_name (JObj d) s).1 = Ok None ∧
     ∃ msg, last evs = Some (Log ERROR msg)).
Proof.
  intros Henv Hrun Hsrc Hv Hnot.
  pose proof (start_bot_full os_environ float_repr str_repr exn_str
                run_process bot_name d items run s Henv Hrun) as H.
  unfold wp in H.
  destruct H as (evs & Hem & (_ & _ & _ & _ & Hres) & Hshape & _ & Hkey & _).
  rewrite Hv in Hshape. simpl default in Hshape.
  exists evs. split; [done|].
  assert (Hnone : outcomes_of evs = []).
  { destruct Hshape as [?|(b & ? & -> & _)]; [done|]. by destruct (Hnot b). }
  split; [done|].
  destruct (run_bot bot_name (JObj d) s).1 as [[lf|]|e] eqn:Hr.
  - destruct Hres as (_ & Hlast & _).
    rewrite runs_of_outcomes, Hnone in Hlast. discriminate Hlast.
  - right. done.
  - left. destruct Hres as [->| ->]; [done|].
    specialize (Hkey "source" eq_refl). simpl in Hkey.
    rewrite Hsrc in Hkey. discriminate Hkey.
Qed.

(** An [env] that is not an object: [.items()] fails. *)
Lemma start_bot_bad_env bot_name d v s :
  dict_get "env" d = Some v → (∀ items, v ≠ JObj items) →
  wp (run_bot bot_name (JObj d)) s
     (λ r s', r = Raise AttributeError ∧ fs s' = fs s ∧
        emitted s s' [Log INFO ("Starting bot: " +:+ bot_name); Sleep 5]).
Proof.
  intros Henv Hnot.
  assert (Hitems : py_items v = Raise AttributeError).
  { destruct v as [|b|z|f|x|l|its]; try done. by destruct (Hnot its). }
  unfold start_bot. simpl py_getitem. rewrite Henv.
  do 6 wp_step. rewrite Hitems. repeat wp_step.
  split; [done|]. split; [done|].
  unfold emitted. simpl. by rewrite <- app_assoc.
Qed.

(** X12. An entry that [load_config] lets through and [start_bot]
    cannot use.  When the value under [env] is not an object,
    [start_bot] raises [AttributeError] after its first record and its
    pause of five seconds, and nothing else has happened; when [env] is
    an object and the value under [run] is not a string, it raises
    [TypeError] without having run a command or touched the file
    system. *)
Theorem malformed_entry_raises bot_name d s :
  let out := run_bot bot_name (JObj d) s in
  (∀ v, dict_get "env" d = Some v → (∀ items, v ≠ JObj items) →
     out.1 = Raise AttributeError ∧ fs out.2 = fs s ∧
     emitted s out.2 [Log INFO ("Starting bot: " +:+ bot_name); Sleep 5])
  ∧ (∀ items v, dict_get "env" d = Some (JObj items) →
       dict_get "run" d = Some v → (∀ run, v ≠ JStr run) →
       out.1 = Raise TypeError ∧ fs out.2 = fs s ∧
       ∃ evs, emitted s out.2 evs ∧ outcomes_of evs = []).
Proof.
  intros out. split.
  - intros v Henv Hnot. by apply (start_bot_bad_env bot_name d v s).
  - intros items v Henv Hrun Hnot.
    assert (Hstr : as_str v = Raise TypeError).
    { destruct v as [|b|z|f|x|l|its]; try done. by destruct (Hnot x). }
    assert (Hwp : wp (run_bot bot_name (JObj d)) s
              (λ r s', r = Raise TypeError ∧ fs s' = fs s ∧
                 ∃ evs, emitted s s' evs ∧ outcomes_of evs = [])).
    { unfold start_bot. simpl py_getitem. rewrite Henv, Hrun.
      do 6 wp_step. simpl py_items. do 3 wp_step.
      apply wp_set_env_quiet.
      intros s1 (Hfs & _ & _ & _ & logs & Hem & Hlogs).
      do 4 wp_step. rewrite Hstr.
      split; [done|]. split; [by rewrite Hfs|].
      exists ([Log INFO ("Starting bot: " +:+ bot_name); Sleep 5] ++ logs).
      split.
      + eapply emitted_trans; [|done].
        unfold emitted. simpl. by rewrite <- app_assoc.
      + rewrite outcomes_of_app. simpl. by apply outcomes_of_logs. }
    exact Hwp.
Qed.


End MoreWorkloads.

(** ** The script as a whole *)

Lemma dict_set_nonempty {V} k (v : V) d : dict_set k v d ≠ [].
Proof.
  intros H. pose proof (dict_set_length k v d) as Hl. rewrite H in Hl.
  destruct (dict_has k d) eqn:E; [|done].
  destruct d; [done|]. done.
Qed.

Section MoreScript.
Variable WORD_LIST : list string.
Variable rng : nat → nat.
Variable os_environ : gmap string string.
Variable float_repr : float → string.
Variable str_repr : string → string.
Variable exn_str : exn → string.
Variable run_process : list event → run_args → node → proc_outcome.

Lemma load_entry_exception name cfg nb s e :
  (load_entry WORD_LIST rng name cfg nb s).1 = Raise e →
  is_Exception e = true.
Proof.
  change (wp (load_entry WORD_LIST rng name cfg nb) s
            (λ r _, r = Raise e → is_Exception e = true)).
  unfold load_entry, generate_prefix, check_entry.
  repeat first [ apply wp_random_choice; [intros ?w|] | wp_step ];
    cbv beta iota.
  all: intros He; simplify_eq; try done.
  all: repeat match goal with
         | H : py_startswith _ _ = Raise _ |- _ =>
             apply py_startswith_raises in H
         | H : py_getitem _ _ = Raise _ |- _ =>
             apply py_getitem_raises in H as [?|?]
         | H : all_in _ _ = Raise _ |- _ => apply all_in_raises in H
         end; by subst.
Qed.

Lemma load_loop_exception items nb s e :
  (load_loop WORD_LIST rng items nb s).1 = Raise e → is_Exception e = true.
Proof.
  revert nb s. induction items as [|[n c] items IH]; intros nb s; [done|].
  rewrite load_loop_cons.
  pose proof (load_entry_exception n c nb s) as H.
  destruct (load_entry WORD_LIST rng n c nb s) as [[nb'|e'] s'].
  - apply IH.
  - simpl in *. intros [= <-]. by apply H.
Qed.

Lemma load_config_exception file document s e :
  (load_config WORD_LIST rng file document s).1 = Raise e →
  is_Exception e = true.
Proof.
  destruct document as [| | | | | |items]; try (by intros [= <-]).
  rewrite load_config_run.
  pose proof (load_loop_exception items []
    (set_trace (λ t, t ++ [Log INFO ("Loading configuration from " +:+ file)])
               s) e) as H.
  destruct (load_loop _ _ _ _ _) as [[nb|e'] s']; [done|]. exact H.
Qed.

Lemma load_loop_nonempty items nb s nb' s' :
  load_loop WORD_LIST rng items nb s = (Ok nb', s') →
  nb ≠ [] ∨ items ≠ [] → nb' ≠ [].
Proof.
  revert nb s. induction items as [|[n c] items IH]; intros nb s.
  { intros [= <- <-] [?|?]; done. }
  rewrite load_loop_cons.
  destruct (load_entry WORD_LIST rng n c nb s) as [[nb1|] s1] eqn:E; [|done].
  apply load_entry_inv in E as (_ & _ & w1 & w2 & _ & _ & ->).
  intros Hl _. eapply IH; [exact Hl|]. left. apply dict_set_nonempty.
Qed.

Lemma exit_status_exception {A} e :
  is_Exception e = true → exit_status (Raise e : result A) = 1%Z.
Proof. by destruct e. Qed.

End MoreScript.

(** ** The collection of the results *)

Section MoreFanOut.
Variable os_environ : gmap string string.
Variable float_repr : float → string.
Variable str_repr : string → string.
Variable exn_str : exn → string.
Variable run_process : list event → run_args → node → proc_outcome.

Local Abbreviation run_bot :=
  (start_bot os_environ float_repr str_repr exn_str run_process).

(** The future of a workload holds what [start_bot] raised. *)
Lemma submit_all_holds bots n c e s futures s' :
  (n, c) ∈ bots →
  (∀ s0, (run_bot n c s0).1 = Raise e) →
  submit_all os_environ float_repr str_repr exn_str run_process bots s
    = (Ok futures, s') →
  (Raise e, n) ∈ futures.
Proof.
  intros Hin Hraise. revert s futures s' Hin.
  induction bots as [|[n0 c0] bots IH]; intros s futures s' Hin;
    [by apply elem_of_nil in Hin|].
  simpl. rewrite bind_run. unfold submit at 1.
  pose proof (Hraise s) as Hr.
  destruct (run_bot n0 c0 s) as [r s1] eqn:E. rewrite bind_run.
  destruct (submit_all _ _ _ _ _ bots s1) as [[fs1|e1] s2] eqn:E2; [|done].
  intros [= <- <-].
  apply elem_of_cons in Hin as [[= <- <-]|Hin].
  - rewrite E in Hr. simpl in Hr. subst r. apply elem_of_cons. by left.
  - apply elem_of_cons. right. by eapply IH.
Qed.

(** X13. A workload that [start_bot] cannot use is reported, and the
    others go on.  When the manifest holds a workload whose [env] is
    not an object, [main] still returns normally, and its log holds the
    record [Error in executing bot: ...] with the [AttributeError] that
    [start_bot] raised, next to the start of every workload. *)
Theorem malformed_entry_is_reported bots n d v s :
  (n, JObj d) ∈ bots →
  dict_get "env" d = Some v →
  (∀ items, v ≠ JObj items) →
  let out := main os_environ float_repr str_repr exn_str run_process bots s in
  out.1 = Ok () ∧
  ∃ evs, emitted s out.2 evs ∧
    Log ERROR ("Error in executing bot: " +:+ exn_str AttributeError) ∈ evs ∧
    ∀ n' c', (n', c') ∈ bots → Log INFO ("Starting bot: " +:+ n') ∈ evs.
Proof.
  intros Hin Henv Hnot out.
  assert (Hraise : ∀ s0, (run_bot n (JObj d) s0).1 = Raise AttributeError).
  { intros s0.
    by destruct (start_bot_bad_env os_environ float_repr str_repr exn_str
                   run_process n d v s0 Henv Hnot) as (? & _). }
  assert (Hwp : wp (main os_environ float_repr str_repr exn_str run_process
                      bots) s
            (λ r s', r = Ok () ∧ ∃ evs, emitted s s' evs ∧
               Log ERROR ("Error in executing bot: " +:+
                          exn_str AttributeError) ∈ evs ∧
               ∀ n' c', (n', c') ∈ bots →
                 Log INFO ("Starting bot: " +:+ n') ∈ evs)).
  { unfold main. do 3 wp_step.
    assert (Nat.eqb (length bots) 0 = false) as ->.
    { destruct bots; [by apply elem_of_nil in Hin|done]. }
    wp_step. cbv beta iota. wp_step.
    pose proof (submit_all_spec os_environ float_repr str_repr exn_str
                  run_process bots
                  (set_trace (λ t, t ++ [Log INFO "Starting bot manager..."])
                             s)) as Hsub.
    unfold wp at 1. unfold wp in Hsub.
    destruct (submit_all _ _ _ _ _ bots _) as [r s1] eqn:E.
    cbn [fst snd] in *.
    destruct Hsub as (_ & futures & evs1 & -> & Hem1 & _ & Hcatch & Hstart).
    pose proof (submit_all_holds _ _ _ _ _ _ _ Hin Hraise E) as Hfut.
    wp_step.
    eapply wp_mono; [by apply collect_all_spec|].
    intros r s2 (-> & _ & evs2 & Hem2 & _ & Hlog).
    wp_step. split; [done|].
    eexists. split.
    - apply emitted_set_trace. eapply emitted_trans; [|done].
      eapply emitted_trans; [|done]. solve_emitted.
    - split.
      + rewrite !elem_of_app. left. right. by apply (Hlog _ _ Hfut).
      + intros n' c' Hin'. rewrite !elem_of_app. left. left. right.
        by eapply Hstart. }
  exact Hwp.
Qed.

End MoreFanOut.

(** ** The working directory *)

Lemma apart_nil_l (q : list string) : ¬ apart [] q.
Proof. intros [H _]. apply H, prefix_nil. Qed.

Lemma apart_nil_r (p : list string) : ¬ apart p [].
Proof. intros [_ H]. apply H, prefix_nil. Qed.

Lemma apart_cons (c : string) p q : apart (c :: p) (c :: q) → apart p q.
Proof.
  intros [H1 H2]. split; intros H; [apply H1|apply H2]; by apply prefix_cons.
Qed.

Lemma apart_single (c : string) q : ¬ apart [c] (c :: q).
Proof. intros [H _]. apply H, prefix_cons, prefix_nil. Qed.

Lemma mkdir_parents_apart t p t' q :
  mkdir_parents t p = Ok t' → apart p q →
  lookup_path t' q = lookup_path t q.
Proof.
  revert t t' q. induction p as [|c p IH]; intros t t' q Hmk Hap.
  { by destruct (apart_nil_l q). }
  destruct q as [|c' q]; [by destruct (apart_nil_r (c :: p))|].
  destruct t as [|ch]; [done|]. simpl in Hmk.
  destruct (mkdir_parents (default (Dir ∅) (ch !! c)) p) as [t1|] eqn:E;
    [|done].
  injection Hmk as <-. simpl.
  destruct (decide (c = c')) as [<-|Hne].
  - rewrite lookup_insert_eq. apply apart_cons in Hap.
    rewrite (IH _ _ q E Hap).
    destruct (ch !! c) as [t0|]; [done|]. simpl.
    destruct q as [|c2 q]; [by destruct (apart_nil_r p)|].
    simpl. by rewrite lookup_empty.
  - by rewrite lookup_insert_ne.
Qed.

Lemma rmtree_below_apart t p t' q :
  rmtree_below t p = Ok t' → apart p q →
  lookup_path t' q = lookup_path t q.
Proof.
  revert t t' q. induction p as [|c p IH]; intros t t' q Hrm Hap.
  { by destruct (apart_nil_l q). }
  destruct q as [|c' q]; [by destruct (apart_nil_r (c :: p))|].
  destruct t as [|ch]; [done|]. simpl in Hrm.
  destruct (ch !! c) as [t0|] eqn:Ec; [|done].
  destruct p as [|c2 p].
  - destruct t0 as [|ch0]; [done|]. injection Hrm as <-. simpl.
    destruct (decide (c = c')) as [<-|Hne]; [by destruct (apart_single c q)|].
    by rewrite lookup_delete_ne.
  - destruct (rmtree_below t0 (c2 :: p)) as [t2|] eqn:E; [|done].
    injection Hrm as <-. simpl.
    destruct (decide (c = c')) as [<-|Hne].
    + rewrite lookup_insert_eq, Ec. apply apart_cons in Hap. by eapply IH.
    + by rewrite lookup_insert_ne.
Qed.

Lemma rmtree_apart t p q :
  apart p q → lookup_path (rmtree t p).2 q = lookup_path t q.
Proof.
  intros Hap. destruct p as [|c p]; [by destruct (apart_nil_l q)|].
  rewrite rmtree_cons.
  destruct (rmtree_below t (c :: p)) as [t'|] eqn:E; [|done].
  by eapply rmtree_below_apart.
Qed.

Lemma prepare_fs_apart t p q :
  apart p q → lookup_path (prepare_fs t p).2 q = lookup_path t q.
Proof.
  intros Hap. unfold prepare_fs.
  destruct (path_exists t p) eqn:Hex.
  - rewrite Hex. by apply rmtree_apart.
  - destruct (mkdir_parents t p) as [t1|] eqn:Hmk; [|done].
    rewrite <- (mkdir_parents_apart t p t1 q Hmk Hap).
    destruct (path_exists t1 p); [by apply rmtree_apart|done].
Qed.

(** The directories on the way to a removed directory are still there. *)
Lemma rmtree_below_parents t p t' q rest :
  rmtree_below t p = Ok t' → p = q ++ rest → rest ≠ [] →
  ∃ ch, lookup_path t' q = Some (Dir ch).
Proof.
  revert t t' q. induction p as [|c p IH]; intros t t' q Hrm Hp Hrest.
  { by destruct q, rest. }
  destruct t as [|ch]; [done|]. simpl in Hrm.
  destruct (ch !! c) as [t0|] eqn:Ec; [|done].
  destruct p as [|c2 p].
  - destruct t0 as [|ch0]; [done|]. injection Hrm as <-.
    destruct q as [|c' q]; [by eexists|].
    injection Hp as -> Hp. by destruct q, rest.
  - destruct (rmtree_below t0 (c2 :: p)) as [t2|] eqn:E; [|done].
    injection Hrm as <-.
    destruct q as [|c' q]; [by eexists|].
    injection Hp as <- Hp. simpl. rewrite lookup_insert_eq.
    by eapply IH.
Qed.

Lemma prepare_fs_parents t p t1 q rest :
  prepare_fs t p = (Ok (), t1) → p = q ++ rest → rest ≠ [] →
  ∃ ch, lookup_path t1 q = Some (Dir ch).
Proof.
  unfold prepare_fs. intros H Hp Hrest.
  assert (Hrm : ∀ t', path_exists t' p = true → rmtree t' p = (Ok (), t1) →
                  ∃ ch, lookup_path t1 q = Some (Dir ch)).
  { intros t' _ Hr. destruct p as [|c p]; [by destruct q, rest|].
    rewrite rmtree_cons in Hr.
    destruct (rmtree_below t' (c :: p)) as [t2|] eqn:E; [|done].
    injection Hr as <-. by eapply rmtree_below_parents. }
  destruct (path_exists t p) eqn:Hex.
  - rewrite Hex in H. by eapply Hrm.
  - destruct (mkdir_parents t p) as [t'|] eqn:Hmk; [|done].
    rewrite (mkdir_parents_exists _ _ _ Hmk) in H. eapply Hrm; [|done].
    by eapply mkdir_parents_exists.
Qed.

(** ** The name of the working directory *)

Lemma has_char_replace c old new s :
  c ≠ old → c ≠ new →
  has_char c (replace_char old new s) = has_char c s.
Proof.
  intros Ho Hn. induction s as [|a s IH]; [done|]. simpl. rewrite IH.
  f_equal. destruct (Ascii.eqb_spec a old) as [->|_].
  - destruct (Ascii.eqb_spec new c) as [->|_]; [done|].
    by destruct (Ascii.eqb_spec old c) as [->|_].
  - done.
Qed.

Lemma replace_char_idem old new s :
  replace_char old new (replace_char old new s) = replace_char old new s.
Proof.
  induction s as [|a s IH]; [done|]. simpl. rewrite IH. f_equal.
  destruct (Ascii.eqb_spec a old) as [->|Hne];
    [|by destruct (Ascii.eqb_spec a old)].
  by destruct (Ascii.eqb_spec new old).
Qed.

Lemma replace_char_clears old new s :
  old ≠ new → has_char old (replace_char old new s) = false.
Proof.
  intros Hne. induction s as [|a s IH]; [done|]. simpl. rewrite IH.
  destruct (Ascii.eqb_spec a old) as [->|Ha].
  - by destruct (Ascii.eqb_spec new old) as [->|_].
  - by destruct (Ascii.eqb_spec a old).
Qed.

Lemma split_on_plain sep s : has_char sep s = false → split_on sep s = [s].
Proof.
  induction s as [|a s IH]; [done|]. simpl.
  destruct (Ascii.eqb a sep); [done|]. simpl. by intros ->%IH.
Qed.

Lemma startswith_plain c s p :
  has_char c s = false → startswith s (String c p) = false.
Proof.
  destruct s as [|a s]; [done|]. simpl.
  destruct (Ascii.eqb_spec a c) as [->|Hne]; [done|].
  intros _. by destruct (ascii_dec c a) as [->|].
Qed.

Lemma replace_char_empty old new s :
  replace_char old new s = "" → s = "".
Proof. by destruct s. Qed.

Lemma replace_char_dot s : replace_char " " "_" s = "." → s = ".".
Proof.
  destruct s as [|a [|b s]]; try done. simpl.
  destruct (Ascii.eqb_spec a " ") as [->|_]; [done|]. by intros [= ->].
Qed.

(** X15. The working directory of a workload.  For a name that holds no
    [/] and is neither empty nor a single dot, the working directory is
    the directory of that name, with every space replaced by an
    underscore, directly in [/app]; its path holds no space in its last
    component.  Names that differ only in spaces against underscores
    share their working directory. *)
Theorem bot_dir_of_plain bot_name :
  has_char "/" bot_name = false → bot_name ≠ "" → bot_name ≠ "." →
  let dir := replace_char " " "_" bot_name in
  bot_dir_of bot_name = mkPath "/" ["app"; dir]
  ∧ path_str (bot_dir_of bot_name) = "/app/" +:+ dir
  ∧ has_char " " dir = false
  ∧ bot_dir_of dir = bot_dir_of bot_name.
Proof.
  intros Hslash Hne Hdot dir.
  assert (Hd : has_char "/" dir = false).
  { unfold dir. by rewrite has_char_replace. }
  assert (Hparse : parse_path dir = mkPath "" [dir]).
  { unfold parse_path. rewrite (startswith_plain "/" dir "") by done.
    rewrite split_on_plain by done. simpl. unfold is_component.
    destruct (String.eqb_spec dir "") as [E|_].
    { by apply replace_char_empty in E. }
    destruct (String.eqb_spec dir ".") as [E|_].
    { by apply replace_char_dot in E. }
    done. }
  assert (Hdir : bot_dir_of bot_name = mkPath "/" ["app"; dir]).
  { unfold bot_dir_of, path_join. fold dir. by rewrite Hparse. }
  split; [done|]. split; [by rewrite Hdir|].
  split; [by apply replace_char_clears|].
  unfold bot_dir_of. unfold dir. by rewrite replace_char_idem.
Qed.

(** ** Stopping *)

Lemma signalled_app t1 t2 : signalled (t1 ++ t2) = signalled t1 ++ signalled t2.
Proof. apply omap_app. Qed.

(** [stop_bot] for a process that outlives the wait. *)
Lemma stop_bot_stubborn n h p s :
  dict_get n (bot_processes s) = Some h →
  procs s !! h = Some p → outlives p 5 = true →
  ∃ s1 evs,
    stop_bot n s = (Ok (), s1) ∧ clock s1 = clock s + 5 ∧
    bot_processes s1 = bot_processes s ∧
    emitted s s1 evs ∧ signalled evs = [h; h; h] ∧
    (∀ h', h' ≠ h → procs s1 !! h' = procs s !! h') ∧
    alive <$> procs s1 !! h = Some false.
Proof.
  intros E Ep Ho. rewrite (stop_bot_tracked n h s E). cbv zeta.
  rewrite proc_wait_after_terminate. simpl procs. rewrite Ep, Ho. simpl.
  eexists _, [Log INFO ("Stopping bot: " +:+ n); Terminate h; Wait h 5;
              Log WARNING ("Bot " +:+ n +:+
                           " did not terminate in time; force killing...");
              Kill h].
  split; [reflexivity|]. simpl. split; [done|]. split; [done|].
  split; [unfold emitted; simpl; by rewrite <- !app_assoc|].
  split; [done|]. split.
  - intros h' Hne. by rewrite !lookup_alter_ne.
  - by rewrite !lookup_alter_eq, Ep.
Qed.

(** X16. [stop_bot] touches one process only.  Whatever the name, it
    leaves the file system as it was, signals no process but the one
    tracked under that name, and leaves every other process as it was;
    for a name that is not tracked it does nothing but write two log
    records, the second a warning. *)
Theorem stop_bot_touches_one bot_name s :
  let out := stop_bot bot_name s in
  let evs := drop (length (trace s)) (trace out.2) in
  fs out.2 = fs s
  ∧ (∀ h, h ∈ signalled evs →
       dict_get bot_name (bot_processes s) = Some h)
  ∧ (∀ h, dict_get bot_name (bot_processes s) ≠ Some h →
       procs out.2 !! h = procs s !! h)
  ∧ (dict_get bot_name (bot_processes s) = None →
     out.1 = Ok () ∧ only_logs s out.2 ∧
     evs = [Log INFO ("Stopping bot: " +:+ bot_name);
            Log WARNING ("No running process found for bot: " +:+ bot_name)]).
Proof.
  intros out evs. unfold evs, out. clear out evs.
  destruct (dict_get bot_name (bot_processes s)) as [h0|] eqn:E.
  - rewrite (stop_bot_tracked bot_name h0 s E). cbv zeta.
    rewrite proc_wait_after_terminate. simpl procs.
    destruct (procs s !! h0) as [p|] eqn:Ep;
      [destruct (outlives p 5); [|destruct (alive p)]|]; simpl.
    all: rewrite <- ?app_assoc, drop_app_length; simpl.
    all: split; [done|]; split;
      [intros h Hin; repeat (apply elem_of_cons in Hin as [->|Hin]; [done|]);
       by apply elem_of_nil in Hin|].
    all: split; [|done].
    all: intros h Hne; assert (h0 ≠ h) by congruence.
    all: by rewrite ?lookup_insert_ne, ?lookup_alter_ne.
  - rewrite (stop_bot_untracked bot_name s E). simpl.
    rewrite <- app_assoc, drop_app_length. simpl.
    split; [done|]. split; [by intros h []%elem_of_nil|]. split; [done|].
    intros _. split; [done|]. split; [|done].
    apply only_logs_log, only_logs_log, only_logs_refl.
Qed.

Lemma dict_get_elem {V} k (v : V) d : dict_get k d = Some v → (k, v) ∈ d.
Proof.
  induction d as [|[k' v'] d IH]; [done|]. rewrite dict_get_cons.
  destruct (String.eqb_spec k k') as [->|_].
  - intros [= ->]. apply elem_of_cons. by left.
  - intros H. apply elem_of_cons. right. by apply IH.
Qed.

Lemma stop_all_stubborn (l : dict handle) s :
  (∀ n h, (n, h) ∈ l → dict_get n (bot_processes s) = Some h) →
  NoDup l.*2 →
  (∀ n h, (n, h) ∈ l → ∃ p, procs s !! h = Some p ∧ outlives p 5 = true) →
  ∃ s' evs,
    for_each l.*1 stop_bot s = (Ok (), s') ∧
    clock s' = clock s + 5 * length l ∧
    bot_processes s' = bot_processes s ∧
    emitted s s' evs ∧
    signalled evs = flat_map (λ h, [h; h; h]) l.*2 ∧
    (∀ h, h ∉ l.*2 → procs s' !! h = procs s !! h) ∧
    (∀ h, h ∈ l.*2 → alive <$> procs s' !! h = Some false).
Proof.
  revert s. induction l as [|[n h] l IH]; intros s Hget Hnd Hst.
  { exists s, []. split; [done|]. split; [simpl; lia|]. split; [done|].
    split; [apply emitted_refl|]. split; [done|]. split; [done|].
    by intros h []%elem_of_nil. }
  rewrite fmap_cons in Hnd. apply NoDup_cons in Hnd as [Hnin Hnd].
  destruct (Hst n h) as (p & Ep & Ho); [by left|].
  destruct (stop_bot_stubborn n h p s (Hget n h ltac:(by left)) Ep Ho)
    as (s1 & evs1 & E1 & Hc1 & Hbp1 & Hem1 & Hsig1 & Hfr1 & Hal1).
  destruct (IH s1) as (s' & evs & E & Hc & Hbp & Hem & Hsig & Hfr & Hal);
    [| done |..].
  { intros n' h' Hin. rewrite Hbp1. apply Hget. by right. }
  { intros n' h' Hin.
    destruct (Hst n' h') as (p' & Ep' & Ho'); [by right|].
    exists p'. split; [|done]. rewrite Hfr1; [done|].
    intros ->. apply Hnin. apply list_elem_of_fmap. by exists (n', h). }
  exists s', (evs1 ++ evs).
  rewrite fmap_cons. cbn [for_each fst]. rewrite bind_run, E1.
  split; [done|]. split; [simpl length; lia|]. split; [congruence|].
  split; [by eapply emitted_trans|].
  split; [by rewrite signalled_app, Hsig1, Hsig|].
  rewrite fmap_cons. cbn [snd]. split.
  - intros h' Hh'. rewrite not_elem_of_cons in Hh'. destruct Hh' as [? ?].
    rewrite Hfr by done. by apply Hfr1.
  - intros h' [->|Hin]%elem_of_cons.
    + by rewrite Hfr.
    + by apply Hal.
Qed.

(** X17. Shutdown is serial.  When the tracking table is a dict (no
    name twice) of distinct processes each of which outlives a wait of
    5, the signal handler asks the first to terminate, waits, kills it,
    and only then turns to the next: the signals are three per process
    in the order of the table, the time spent waiting is 5 for each of
    them, none of them is running afterwards, and the handler exits
    with status 0.  With an empty table it signals nothing and spends
    no time. *)
Theorem shutdown_is_serial s :
  NoDup (dict_keys (bot_processes s)) →
  NoDup (bot_processes s).*2 →
  (∀ n h, (n, h) ∈ bot_processes s →
     ∃ p, procs s !! h = Some p ∧ outlives p 5 = true) →
  let out := signal_handler s in
  out.1 = Raise (SystemExit 0)
  ∧ clock out.2 = clock s + 5 * length (bot_processes s)
  ∧ signalled (drop (length (trace s)) (trace out.2)) =
      flat_map (λ h, [h; h; h]) (bot_processes s).*2
  ∧ ∀ n h, (n, h) ∈ bot_processes s →
      alive <$> procs out.2 !! h = Some false.
Proof.
  intros Hk Hnd Hst out. unfold out, signal_handler. clear out.
  rewrite bind_run. simpl. rewrite bind_run. simpl. rewrite bind_run.
  destruct (stop_all_stubborn (bot_processes s)
              (set_trace (λ t, t ++ [Log INFO "Shutting down..."]) s))
    as (s' & evs & E & Hc & Hbp & Hem & Hsig & Hfr & Hal); [|done|done|].
  { intros n h Hin. simpl. by apply dict_get_in. }
  unfold dict_keys. rewrite E. simpl.
  split; [done|]. split; [done|]. split.
  - unfold emitted in Hem. simpl in Hem. rewrite Hem.
    rewrite <- !app_assoc, drop_app_length. simpl.
    rewrite signalled_app, Hsig. simpl. by rewrite app_nil_r.
  - intros n h Hin. apply Hal. apply list_elem_of_fmap. by exists (n, h).
Qed.

(** ** The further properties at the sample data *)

Lemma generate_prefix_two_words_witness :
  sample_words ≠ []
  ∧ ∃ s', generate_prefix sample_words sample_rng (initial_state sample_fs)
            = (Ok "brave otter", s')
          ∧ draws s' = 2.
Proof.
  assert (Hw : sample_words ≠ []) by discriminate.
  split; [exact Hw|].
  destruct (generate_prefix_two_words sample_words sample_rng
              (initial_state sample_fs) Hw)
    as (w1 & w2 & s' & H1 & H2 & E & Hd & _).
  vm_compute in H1. vm_compute in H2.
  injection H1 as <-. injection H2 as <-.
  exists s'. split; [exact E|exact Hd].
Defined.

Lemma load_config_accepts_iff_valid_witness :
  sample_words ≠ []
  ∧ ∃ nb s', load_config sample_words sample_rng "config.json"
               (JObj sample_document) (initial_state sample_fs) = (Ok nb, s').
Proof.
  assert (Hw : sample_words ≠ []) by discriminate.
  split; [exact Hw|].
  apply (proj2 (load_config_accepts_iff_valid sample_words sample_rng
                  "config.json" (JObj sample_document)
                  (initial_state sample_fs) Hw)).
  exists sample_document. split; [reflexivity|].
  apply Forall_cons. split; [reflexivity|apply Forall_nil_2].
Defined.

Lemma load_config_result_witness :
  ∃ nb s', load_config sample_words sample_rng "config.json"
             (JObj sample_document) (initial_state sample_fs) = (Ok nb, s')
           ∧ NoDup (dict_keys nb) ∧ draws s' = 2.
Proof.
  destruct (load_config sample_words sample_rng "config.json"
              (JObj sample_document) (initial_state sample_fs))
    as [[nb|e] s'] eqn:E.
  - exists nb, s'. split; [reflexivity|].
    destruct (load_config_result sample_words sample_rng "config.json"
                sample_document (initial_state sample_fs) nb s' E)
      as (Hnd & _ & Hd & _).
    split; [exact Hnd|exact Hd].
  - vm_compute in E. discriminate E.
Defined.

Lemma load_config_keeps_all_witness :
  (∀ w, w ∈ sample_words → has_char " " w = false)
  ∧ NoDup (dict_keys sample_document)
  ∧ ∃ nb s', load_config sample_words sample_rng "config.json"
               (JObj sample_document) (initial_state sample_fs) = (Ok nb, s')
             ∧ length nb = 1 ∧ nb.*2 = [JObj sample_config].
Proof.
  assert (Hw : ∀ w, w ∈ sample_words → has_char " " w = false).
  { intros w Hin.
    apply elem_of_cons in Hin as [->|Hin]; [reflexivity|].
    apply elem_of_cons in Hin as [->|Hin]; [reflexivity|].
    by apply elem_of_nil in Hin. }
  assert (Hnd : NoDup (dict_keys sample_document)).
  { apply NoDup_cons. split; [|apply NoDup_nil_2].
    intros H. by apply elem_of_nil in H. }
  split; [exact Hw|]. split; [exact Hnd|].
  destruct (load_config sample_words sample_rng "config.json"
              (JObj sample_document) (initial_state sample_fs))
    as [[nb|e] s'] eqn:E.
  - exists nb, s'. split; [reflexivity|].
    destruct (load_config_keeps_all sample_words sample_rng "config.json"
                sample_document (initial_state sample_fs) nb s' Hw Hnd E)
      as (Hlen & Hcfg & _).
    split; [exact Hlen|exact Hcfg].
  - vm_compute in E. discriminate E.
Defined.


Lemma workload_status_ignored_witness :
  dict_get "env" sample_config = Some (JObj sample_env)
  ∧ dict_get "run" sample_config = Some (JStr "echo.py")
  ∧ (start_bot sample_environ sample_float_repr sample_str_repr
       sample_exn_str all_succeed "brave otter echo" (JObj sample_config)
       (initial_state sample_fs)).1 = Ok (Some "/app/logs/brave otter echo.log").
Proof.
  assert (He : dict_get "env" sample_config = Some (JObj sample_env))
    by reflexivity.
  assert (Hr : dict_get "run" sample_config = Some (JStr "echo.py"))
    by reflexivity.
  split; [exact He|]. split; [exact Hr|].
  destruct (workload_status_ignored sample_environ sample_float_repr
              sample_str_repr sample_exn_str all_succeed "brave otter echo"
              sample_config sample_env "echo.py" (initial_state sample_fs)
              He Hr) as (evs & Hem & Hlaunch).
  change (trace (start_bot sample_environ sample_float_repr sample_str_repr
                   sample_exn_str all_succeed "brave otter echo"
                   (JObj sample_config) (initial_state sample_fs)).2 = evs)
    in Hem.
  refine (proj1 (Hlaunch 0%Z EmptyString _ _)).
  rewrite <- Hem. apply list_elem_of_In. vm_compute.
  repeat first [left; reflexivity | right].
Defined.

Lemma fetch_uses_branch_witness :
  dict_get "env" sample_config = Some (JObj sample_env)
  ∧ dict_get "run" sample_config = Some (JStr "echo.py")
  ∧ ∃ a, head (runs_of (trace (start_bot sample_environ sample_float_repr
                                 sample_str_repr sample_exn_str all_succeed
                                 "brave otter echo" (JObj sample_config)
                                 (initial_state sample_fs)).2)) = Some a
         ∧ ∃ b src, argv a = ["git"; "clone"; "-b"; b; "--single-branch"; src;
                              "/app/brave_otter_echo"]
                    ∧ b = "main".
Proof.
  assert (He : dict_get "env" sample_config = Some (JObj sample_env))
    by reflexivity.
  assert (Hr : dict_get "run" sample_config = Some (JStr "echo.py"))
    by reflexivity.
  split; [exact He|]. split; [exact Hr|].
  destruct (fetch_uses_branch sample_environ sample_float_repr
              sample_str_repr sample_exn_str all_succeed "brave otter echo"
              sample_config sample_env "echo.py" (initial_state sample_fs)
              He Hr) as (evs & Hem & Hfetch).
  change (trace (start_bot sample_environ sample_float_repr sample_str_repr
                   sample_exn_str all_succeed "brave otter echo"
                   (JObj sample_config) (initial_state sample_fs)).2 = evs)
    in Hem.
  assert (Hin : ∃ o, Run (clone_cmd "main" "https://example.test/repo.git"
                            (bot_dir_of "brave otter echo")) o ∈ evs).
  { rewrite <- Hem. eexists. apply list_elem_of_In. vm_compute.
    do 6 right. left. reflexivity. }
  destruct Hin as [o Hin].
  destruct (Hfetch _ o Hin eq_refl) as (b & src & Ha & _ & _ & _ & Hmain & _).
  exists (clone_cmd "main" "https://example.test/repo.git"
            (bot_dir_of "brave otter echo")).
  split; [vm_compute; reflexivity|].
  exists b, src. split; [exact Ha|]. apply Hmain. reflexivity.
Defined.

Lemma branch_not_a_string_witness :
  dict_get "env" null_branch_config = Some (JObj sample_env)
  ∧ dict_get "run" null_branch_config = Some (JStr "echo.py")
  ∧ dict_get "source" null_branch_config =
      Some (JStr "https://example.test/repo.git")
  ∧ dict_get "branch" null_branch_config = Some JNull
  ∧ (∀ b, JNull ≠ JStr b)
  ∧ runs_of (trace (start_bot sample_environ sample_float_repr
                      sample_str_repr sample_exn_str all_succeed
                      "brave otter echo" (JObj null_branch_config)
                      (initial_state sample_fs)).2) = [].
Proof.
  assert (He : dict_get "env" null_branch_config = Some (JObj sample_env))
    by reflexivity.
  assert (Hr : dict_get "run" null_branch_config = Some (JStr "echo.py"))
    by reflexivity.
  assert (Hs : dict_get "source" null_branch_config =
               Some (JStr "https://example.test/repo.git")) by reflexivity.
  assert (Hb : dict_get "branch" null_branch_config = Some JNull)
    by reflexivity.
  assert (Hn : ∀ b, JNull ≠ JStr b) by discriminate.
  split; [exact He|]. split; [exact Hr|]. split; [exact Hs|].
  split; [exact Hb|]. split; [exact Hn|].
  destruct (branch_not_a_string sample_environ sample_float_repr
              sample_str_repr sample_exn_str all_succeed "brave otter echo"
              null_branch_config sample_env "echo.py" _ JNull
              (initial_state sample_fs) He Hr Hs Hb Hn)
    as (evs & Hem & Hnone & _).
  change (trace (start_bot sample_environ sample_float_repr sample_str_repr
                   sample_exn_str all_succeed "brave otter echo"
                   (JObj null_branch_config) (initial_state sample_fs)).2
          = evs) in Hem.
  rewrite Hem, runs_of_outcomes, Hnone. reflexivity.
Defined.

Lemma malformed_entry_is_reported_witness :
  ("void", JObj null_env_config) ∈ null_env_document
  ∧ dict_get "env" null_env_config = Some JNull
  ∧ (∀ items, JNull ≠ JObj items)
  ∧ (main sample_environ sample_float_repr sample_str_repr sample_exn_str
       all_succeed null_env_document (initial_state sample_fs)).1 = Ok ().
Proof.
  assert (Hin : ("void", JObj null_env_config) ∈ null_env_document).
  { apply list_elem_of_further, list_elem_of_here. }
  assert (He : dict_get "env" null_env_config = Some JNull) by reflexivity.
  assert (Hn : ∀ items, JNull ≠ JObj items) by discriminate.
  split; [exact Hin|]. split; [exact He|]. split; [exact Hn|].
  exact (proj1 (malformed_entry_is_reported sample_environ sample_float_repr
                  sample_str_repr sample_exn_str all_succeed
                  null_env_document "void" null_env_config JNull
                  (initial_state sample_fs) Hin He Hn)).
Defined.

Lemma bot_dir_of_plain_witness :
  has_char "/" "brave otter echo" = false
  ∧ "brave otter echo" ≠ "" ∧ "brave otter echo" ≠ "."
  ∧ path_str (bot_dir_of "brave otter echo") = "/app/brave_otter_echo"
  ∧ bot_dir_of "brave_otter_echo" = bot_dir_of "brave otter echo".
Proof.
  assert (H1 : has_char "/" "brave otter echo" = false) by reflexivity.
  assert (H2 : "brave otter echo" ≠ "") by discriminate.
  assert (H3 : "brave otter echo" ≠ ".") by discriminate.
  split; [exact H1|]. split; [exact H2|]. split; [exact H3|].
  destruct (bot_dir_of_plain "brave otter echo" H1 H2 H3)
    as (_ & Hstr & _ & Hsame).
  split; [exact Hstr|exact Hsame].
Defined.

Lemma shutdown_is_serial_witness :
  NoDup (dict_keys (bot_processes stubborn_state))
  ∧ NoDup (bot_processes stubborn_state).*2
  ∧ (∀ n h, (n, h) ∈ bot_processes stubborn_state →
       ∃ p, procs stubborn_state !! h = Some p ∧ outlives p 5 = true)
  ∧ (signal_handler stubborn_state).1 = Raise (SystemExit 0)
  ∧ clock (signal_handler stubborn_state).2 = 5
  ∧ signalled (trace (signal_handler stubborn_state).2) = [7; 7; 7].
Proof.
  assert (Hk : NoDup (dict_keys (bot_processes stubborn_state))).
  { apply NoDup_cons. split; [|apply NoDup_nil_2].
    intros H. by apply elem_of_nil in H. }
  assert (Hh : NoDup (bot_processes stubborn_state).*2).
  { apply NoDup_cons. split; [|apply NoDup_nil_2].
    intros H. by apply elem_of_nil in H. }
  assert (Hst : ∀ n h, (n, h) ∈ bot_processes stubborn_state →
            ∃ p, procs stubborn_state !! h = Some p ∧ outlives p 5 = true).
  { intros n h Hin. apply elem_of_cons in Hin as [Heq|Hin].
    - injection Heq as -> ->. eexists. split; reflexivity.
    - by apply elem_of_nil in Hin. }
  split; [exact Hk|]. split; [exact Hh|]. split; [exact Hst|].
  destruct (shutdown_is_serial stubborn_state Hk Hh Hst)
    as (Hr & Hc & Hsig & _).
  split; [exact Hr|]. split; [exact Hc|exact Hsig].
Defined.


(** * The script, its failures and the tracking table *)

(** ** The start of the module *)

Lemma startup_run cwd s :
  startup cwd s =
    match open_w (fs s) (parts (path_join cwd LOG_FILE)) with
    | Raise e => (Raise e, s)
    | Ok t1 =>
        if path_exists t1 (parts logs_dir) then (Ok (), set_fs t1 s)
        else match mkdir_parents t1 (parts logs_dir) with
             | Ok t2 => (Ok (), set_fs t2 s)
             | Raise e => (Raise e, set_fs t1 s)
             end
    end.
Proof.
  unfold startup, fs_open_a. rewrite bind_run.
  destruct (open_w _ _) as [t1|e]; [|done].
  rewrite bind_run. unfold fs_exists. cbn [fs set_fs].
  destruct (path_exists t1 (parts logs_dir)); cbn [negb when_]; [done|].
  unfold fs_mkdir. cbn [fs set_fs].
  by destruct (mkdir_parents t1 (parts logs_dir)).
Qed.

(** The start of the module touches the file system and nothing else. *)
Lemma startup_quiet cwd s :
  trace (startup cwd s).2 = trace s ∧ draws (startup cwd s).2 = draws s ∧
  bot_processes (startup cwd s).2 = bot_processes s ∧
  procs (startup cwd s).2 = procs s ∧ clock (startup cwd s).2 = clock s.
Proof.
  rewrite startup_run.
  destruct (open_w _ _) as [t1|e]; [|done].
  destruct (path_exists t1 _); [done|].
  by destruct (mkdir_parents t1 _).
Qed.

Lemma startup_raises cwd s e :
  (startup cwd s).1 = Raise e → ∃ o, e = OSError o.
Proof.
  rewrite startup_run.
  destruct (open_w _ _) as [t1|e1] eqn:E1.
  - destruct (path_exists t1 _); [done|].
    destruct (mkdir_parents t1 _) as [t2|e2] eqn:E2; [done|].
    intros [= <-]. by eapply mkdir_parents_raises.
  - intros [= <-]. by eapply open_w_raises.
Qed.

Lemma startup_succeeds cwd s :
  (startup cwd s).1 = Ok () ↔ startup_ok cwd (fs s).
Proof.
  rewrite startup_run. unfold startup_ok.
  destruct (open_w _ _) as [t1|e1] eqn:E1.
  - destruct (path_exists t1 _) eqn:Hex.
    + split; [|done]. intros _. exists t1. split; [done|]. by left.
    + destruct (mkdir_parents t1 _) as [t2|e2] eqn:E2.
      * split; [|done]. intros _. exists t1. split; [done|]. right. by exists t2.
      * split; [done|]. intros (t1' & [= <-] & [H|[t2 H]]); congruence.
  - split; [done|]. by intros (t1' & ? & _).
Qed.

Section WholeScript.
Variable WORD_LIST : list string.
Variable rng : nat → nat.
Variable os_environ : gmap string string.
Variable float_repr : float → string.
Variable str_repr : string → string.
Variable exn_str : exn → string.
Variable run_process : list event → run_args → node → proc_outcome.

Lemma script_run cwd document s :
  script WORD_LIST rng os_environ float_repr str_repr exn_str run_process
    cwd document s =
  match startup cwd s with
  | (Raise e, s0) => (Raise e, s0)
  | (Ok _, s0) =>
      match load_config WORD_LIST rng "config.json" document s0 with
      | (Ok bots, s1) =>
          main os_environ float_repr str_repr exn_str run_process bots
            (set_bot_processes [] s1)
      | (Raise e, s1) => (Raise e, s1)
      end
  end.
Proof.
  unfold script. rewrite bind_run.
  destruct (startup cwd s) as [[[]|e] s0]; [|done].
  rewrite bind_run.
  by destruct (load_config _ _ _ _ _) as [[bots|e] s1].
Qed.

(** X6. One entry that [load_config] refuses stops everything.  When
    some entry of the manifest is not an object holding the three
    required keys with a source that is a string starting with [http],
    the script ends in an exception, with exit status 1, and no
    workload is started, not even those whose entries come first and
    are in order: since it began, the script has written log records
    and nothing else (no pause, no command), and the file system is as
    the start of the module left it (the log file of the supervisor
    and the log directory, where they were missing). *)
Theorem bad_entry_stops_everything cwd items s :
  Exists (λ nc, valid_entry nc.2 = false) items →
  let out := script WORD_LIST rng os_environ float_repr str_repr exn_str
               run_process cwd (JObj items) s in
  (∃ e, out.1 = Raise e ∧ is_Exception e = true)
  ∧ exit_status out.1 = 1%Z
  ∧ fs out.2 = fs (startup cwd s).2
  ∧ bot_processes out.2 = bot_processes s
  ∧ procs out.2 = procs s
  ∧ clock out.2 = clock s
  ∧ ∃ evs, emitted s out.2 evs ∧ Forall (λ e, is_log e = true) evs.
Proof.
  intros Hbad out. unfold out. rewrite script_run.
  destruct (startup_quiet cwd s) as (Ht & _ & Hbp & Hp & Hc).
  pose proof (startup_raises cwd s) as Hup.
  destruct (startup cwd s) as [[[]|e] s0]; cbn [fst snd] in *.
  - pose proof (load_config_quiet WORD_LIST rng "config.json" (JObj items)
                  s0) as Hq.
    pose proof (load_config_exception WORD_LIST rng "config.json"
                  (JObj items) s0) as He.
    destruct (load_config WORD_LIST rng "config.json" (JObj items) s0)
      as [[nb|e] s1] eqn:E.
    + apply load_config_inv in E as (items' & s2 & [= <-] & Hl & _).
      apply load_loop_valid in Hl.
      apply Exists_exists in Hbad as ([n c] & Hin & Hc').
      rewrite Forall_forall in Hl. specialize (Hl _ Hin).
      simpl in *. congruence.
    + cbn [fst snd] in *. specialize (He e eq_refl).
      destruct Hq as (Hfs & Hbp' & Hp' & Hc' & evs & Hem & Hlogs).
      split; [by exists e|]. split; [by apply exit_status_exception|].
      split; [done|]. split; [congruence|]. split; [congruence|].
      split; [congruence|]. exists evs. split; [|done].
      unfold emitted in *. by rewrite Hem, Ht.
  - destruct (Hup e eq_refl) as [o ->].
    split; [by eexists|]. split; [done|]. split; [done|].
    split; [done|]. split; [done|]. split; [done|].
    exists []. split; [|done]. unfold emitted. by rewrite Ht, app_nil_r.
Qed.

(** X7. The exit status of the script.  With a non-empty word list, the
    script ends with status 0 exactly when the start of the module
    succeeds (the log file of the supervisor can be opened in the
    working directory and the log directory exists or can be created)
    and the manifest is an object with at least one entry, all entries
    of which [load_config] accepts.  (A manifest without entries makes
    the thread pool refuse its size of zero.) *)
Theorem script_exit_status cwd document s :
  WORD_LIST ≠ [] →
  exit_status (script WORD_LIST rng os_environ float_repr str_repr exn_str
                 run_process cwd document s).1 = 0%Z ↔
  startup_ok cwd (fs s) ∧
  ∃ items, document = JObj items ∧ items ≠ [] ∧
           Forall (λ nc, valid_entry nc.2 = true) items.
Proof.
  intros Hne. rewrite script_run, <- startup_succeeds.
  pose proof (startup_raises cwd s) as Hup.
  destruct (startup cwd s) as [[[]|e0] s0]; cbn [fst snd] in *.
  2: { destruct (Hup e0 eq_refl) as [o ->]. split; [done|]. by intros [? _]. }
  split.
  - pose proof (load_config_exception WORD_LIST rng "config.json" document s0)
      as He.
    destruct (load_config WORD_LIST rng "config.json" document s0)
      as [[nb|e] s1] eqn:E.
    + apply load_config_inv in E as (items & s2 & -> & Hl & _).
      intros Hst. split; [done|]. exists items. split; [done|].
      split; [|by eapply load_loop_valid].
      intros ->. injection Hl as <- <-. by vm_compute in Hst.
    + simpl in *. rewrite exit_status_exception by by apply He. done.
  - intros (_ & items & -> & Hitems & Hv). rewrite load_config_run.
    destruct (load_loop_through WORD_LIST rng Hne items [] []
                (set_trace (λ t, t ++ [Log INFO
                   ("Loading configuration from " +:+ "config.json")]) s0) Hv)
      as (nb & s1 & E).
    rewrite app_nil_r in E.
    change (load_loop WORD_LIST rng [] nb s1) with (Ok nb, s1) in E.
    assert (Hnb : nb ≠ []).
    { eapply load_loop_nonempty; [exact E|]. by right. }
    rewrite E.
    pose proof (main_spec os_environ float_repr str_repr exn_str run_process
                  nb (set_bot_processes []
                        (set_trace (λ t, t ++ [Log INFO
                           "Configuration loading complete."]) s1)) Hnb)
      as Hmain.
    unfold wp in Hmain. destruct Hmain as (-> & _). done.
Qed.

End WholeScript.

(** ** What a workload leaves of the state *)

Ltac take_prefix :=
  lazymatch goal with
  | |- ∃ pre, ?l = pre ++ _ ∧ _ =>
      first [ exists (take 1 l); split; reflexivity
            | exists (take 2 l); split; reflexivity
            | exists (take 3 l); split; reflexivity
            | exists (take 4 l); split; reflexivity ]
  end.

Lemma set_env_draws float_repr str_repr bot_name items base s :
  draws (set_env float_repr str_repr bot_name items base s).2 = draws s.
Proof.
  revert base s. induction items as [|[k v] items IH]; intros base s; [done|].
  destruct v; simpl; try apply IH.
  all: rewrite bind_run; simpl; by rewrite IH.
Qed.

Lemma wp_set_env_frame float_repr str_repr bot_name items base s
    (Q : result (gmap string string) → state → Prop) :
  (∀ s', only_logs s s' → draws s' = draws s →
     Q (Ok (bot_env_of (py_str float_repr str_repr) items base)) s') →
  wp (set_env float_repr str_repr bot_name items base) s Q.
Proof.
  intros H. unfold wp.
  pose proof (set_env_only_logs float_repr str_repr bot_name items base s)
    as Hq.
  pose proof (set_env_draws float_repr str_repr bot_name items base s) as Hd.
  destruct (set_env_run float_repr str_repr bot_name items base s)
    as (s' & logs & E & _).
  rewrite E in *. simpl in *. by apply H.
Qed.

Section Frame.
Variable os_environ : gmap string string.
Variable float_repr : float → string.
Variable str_repr : string → string.
Variable exn_str : exn → string.
Variable run_process : list event → run_args → node → proc_outcome.

Lemma start_bot_try_frame bot_name bot_config bot_env bot_dir bot_file
    branch s :
  wp (try_except
        (start_bot_try float_repr str_repr run_process bot_name bot_config
           bot_env bot_dir (path_join bot_dir "requirements.txt") bot_file
           branch)
        start_bot_catches (start_bot_handler exn_str bot_name)) s
     (λ r s', ∃ evs, emitted s s' evs ∧ clock s' = clock s ∧
                     start_bot_frame bot_name s s' evs).
Proof.
  unfold start_bot_try. wp_run.
  all: (eexists; split; [solve_emitted|]); cbn [app].
  all: split; [reflexivity|].
  all: unfold start_bot_frame.
  all: do 3 (split; [reflexivity|]).
  all: intros a' rc' err' t' Hin Hcap Hrc.
  all: pure_facts.
  all: in_cases; simplify_eq; try done.
  all: split; [reflexivity|take_prefix].
Qed.

Lemma start_bot_framed bot_name d items run s :
  dict_get "env" d = Some (JObj items) →
  dict_get "run" d = Some (JStr run) →
  wp (start_bot os_environ float_repr str_repr exn_str run_process bot_name
        (JObj d)) s
     (λ r s', ∃ evs, emitted s s' evs ∧ clock s' = clock s + 5 ∧
                     start_bot_frame bot_name s s' evs).
Proof.
  intros Henv Hrun. unfold start_bot. simpl py_getitem. simpl py_get.
  rewrite Henv, Hrun.
  do 6 wp_step. simpl py_items. do 3 wp_step.
  apply wp_set_env_frame.
  intros s1 (Hfs & Hbp & Hp & Hc & logs & Hem & Hlogs) Hd.
  assert (Hruns : runs_of logs = []).
  { rewrite runs_of_outcomes. by rewrite outcomes_of_logs. }
  cbn [bot_processes procs clock draws set_clock set_trace] in Hbp, Hp, Hc, Hd.
  do 7 wp_step. injection Heqr as <-.
  eapply wp_mono; [apply start_bot_try_frame|].
  intros r s' (evs & Hem' & Hc' & Hbp' & Hp' & Hd' & Hfail).
  exists (([Log INFO ("Starting bot: " +:+ bot_name); Sleep 5] ++ logs)
          ++ evs).
  split.
  { eapply emitted_trans; [|done]. eapply emitted_trans; [|done].
    unfold emitted. simpl. by rewrite <- app_assoc. }
  split; [by rewrite Hc', Hc|].
  split; [by rewrite Hbp', Hbp|]. split; [by rewrite Hp', Hp|].
  split; [by rewrite Hd', Hd|].
  intros a rc err t Hin Hcap Hrc.
  apply elem_of_app in Hin as [Hin|Hin].
  { apply run_in_runs_of in Hin. rewrite runs_of_app, Hruns in Hin.
    by apply elem_of_nil in Hin. }
  destruct (Hfail a rc err t Hin Hcap Hrc) as (Hfs' & pre & -> & Hpre).
  split; [done|].
  exists (([Log INFO ("Starting bot: " +:+ bot_name); Sleep 5] ++ logs)
          ++ pre).
  split; [apply app_assoc|].
  by rewrite !runs_of_app, Hruns, Hpre.
Qed.

End Frame.

(** ** A stop request while the workload runs *)

Lemma wp_run_while_stopping run_process bot_name a check s
    (Q : result (Z * string) → state → Prop) :
  dict_get bot_name (bot_processes s) = None →
  (∀ o,
     match o with
     | SpawnFailed e =>
         Q (Raise (OSError e)) (set_trace (λ t, t ++ [Run a o]) s)
     | Completed rc err t' =>
         let s1 :=
           set_trace (λ t, t ++ [Run a o])
             (set_trace (λ t, t ++ [Log WARNING
                           ("No running process found for bot: "
                            +:+ bot_name)])
                (set_trace (λ t, t ++ [Log INFO ("Stopping bot: "
                                                 +:+ bot_name)]) s)) in
         if check && negb (rc =? 0)%Z
         then Q (Raise (CalledProcessError rc (argv a))) (set_fs t' s1)
         else Q (Ok (rc, err)) (set_fs t' s1)
     end) →
  wp (subprocess_run_meanwhile run_process (stop_bot bot_name) a check) s Q.
Proof.
  intros Hnone H. unfold wp, subprocess_run_meanwhile.
  specialize (H (run_process (trace s) a (fs s))). cbv zeta in *.
  destruct (run_process _ _ _) as [e|rc err t']; [done|].
  rewrite (stop_bot_untracked bot_name s Hnone). cbn [snd].
  by destruct (check && negb (rc =? 0)%Z).
Qed.

Ltac wp_step_stop :=
  lazymatch goal with
  | |- wp (subprocess_run_meanwhile _ (stop_bot _) _ _) _ _ =>
      apply wp_run_while_stopping; [assumption|intros [?e|?rc ?err ?t]];
      cbv beta iota zeta; try done
  | |- wp (launch_with _ _ _ _ _ _) _ _ => unfold launch_with
  | _ => wp_step
  end.

Ltac split_around :=
  lazymatch goal with
  | |- ∃ pre post, ?l = _ =>
      first [ exists (take 1 l), (drop 4 l); reflexivity
            | exists (take 2 l), (drop 5 l); reflexivity
            | exists (take 3 l), (drop 6 l); reflexivity
            | exists (take 4 l), (drop 7 l); reflexivity
            | exists (take 5 l), (drop 8 l); reflexivity
            | exists (take 6 l), (drop 9 l); reflexivity
            | exists (take 7 l), (drop 10 l); reflexivity
            | exists (take 8 l), (drop 11 l); reflexivity
            | exists (take 9 l), (drop 12 l); reflexivity
            | exists (take 10 l), (drop 13 l); reflexivity
            | exists (take 11 l), (drop 14 l); reflexivity
            | exists (take 12 l), (drop 15 l); reflexivity ]
  end.

Lemma found_nothing_prefix bot_name pre evs :
  Forall (λ e, is_log e = true ∨ ∃ n, e = Sleep n) pre →
  found_nothing bot_name evs → found_nothing bot_name (pre ++ evs).
Proof.
  intros Hpre [Hsig Hrun].
  assert (Hs : signalled pre = []).
  { clear -Hpre. induction Hpre as [|e pre [He|[n ->]] _ IH]; [done| |done].
    by destruct e. }
  split; [by rewrite signalled_app, Hs, Hsig|].
  intros a rc err t [Hin|Hin]%elem_of_app.
  - exfalso. rewrite Forall_forall in Hpre.
    destruct (Hpre _ Hin) as [He|[n He]]; done.
  - destruct (Hrun a rc err t Hin) as (p1 & p2 & ->).
    exists (pre ++ p1), p2. by rewrite <- app_assoc.
Qed.

Section WhileRunning.
Variable os_environ : gmap string string.
Variable float_repr : float → string.
Variable str_repr : string → string.
Variable exn_str : exn → string.
Variable run_process : list event → run_args → node → proc_outcome.

Lemma start_bot_try_while_stopping bot_name bot_config bot_env bot_dir
    bot_file branch s :
  dict_get bot_name (bot_processes s) = None →
  wp (try_except
        (start_bot_try_with float_repr str_repr
           (subprocess_run_meanwhile run_process (stop_bot bot_name))
           bot_name bot_config bot_env bot_dir
           (path_join bot_dir "requirements.txt") bot_file branch)
        start_bot_catches (start_bot_handler exn_str bot_name)) s
     (λ r s', ∃ evs, emitted s s' evs ∧ found_nothing bot_name evs).
Proof.
  intros Hnone. unfold start_bot_try_with. repeat wp_step_stop.
  all: (eexists; split; [solve_emitted|]); cbn [app].
  all: split; [reflexivity|].
  all: intros a' rc' err' t' Hin.
  all: unfold stopped_in_vain.
  all: in_cases; simplify_eq; split_around.
Qed.

Lemma start_bot_while_stopping bot_name d items run s :
  dict_get "env" d = Some (JObj items) →
  dict_get "run" d = Some (JStr run) →
  dict_get bot_name (bot_processes s) = None →
  wp (start_bot_with os_environ float_repr str_repr exn_str
        (subprocess_run_meanwhile run_process (stop_bot bot_name))
        bot_name (JObj d)) s
     (λ r s', ∃ evs, emitted s s' evs ∧ found_nothing bot_name evs).
Proof.
  intros Henv Hrun Hnone. unfold start_bot_with.
  simpl py_getitem. simpl py_get. rewrite Henv, Hrun.
  do 6 wp_step. simpl py_items. do 3 wp_step.
  apply wp_set_env_frame.
  intros s1 (_ & Hbp & _ & _ & logs & Hem & Hlogs) _.
  cbn [bot_processes set_clock set_trace] in Hbp.
  do 7 wp_step. injection Heqr as <-.
  eapply wp_mono; [apply start_bot_try_while_stopping; by rewrite Hbp|].
  intros r s' (evs & Hem' & Hfound).
  exists (([Log INFO ("Starting bot: " +:+ bot_name); Sleep 5] ++ logs)
          ++ evs).
  split.
  { eapply emitted_trans; [|done]. eapply emitted_trans; [|done].
    unfold emitted. simpl. by rewrite <- app_assoc. }
  apply found_nothing_prefix; [|done].
  apply Forall_app. split.
  - apply Forall_cons. split; [by left|].
    apply Forall_cons. split; [right; by eexists|apply Forall_nil_2].
  - eapply Forall_impl; [exact Hlogs|]. by left.
Qed.

End WhileRunning.

Section TrackingTable.
Variable WORD_LIST : list string.
Variable rng : nat → nat.
Variable os_environ : gmap string string.
Variable float_repr : float → string.
Variable str_repr : string → string.
Variable exn_str : exn → string.
Variable run_process : list event → run_args → node → proc_outcome.

Lemma script_table cwd document s :
  bot_processes s = [] →
  bot_processes (script WORD_LIST rng os_environ float_repr str_repr exn_str
                   run_process cwd document s).2 = [].
Proof.
  intros Hs. rewrite script_run.
  destruct (startup_quiet cwd s) as (_ & _ & Hbp & _).
  destruct (startup cwd s) as [[[]|e] s0]; cbn [fst snd] in *;
    [|congruence].
  pose proof (load_config_table WORD_LIST rng "config.json" document s0)
    as Hload.
  destruct (load_config _ _ _ _ _) as [[bots|e] s1]; cbn [fst snd] in *;
    [|congruence].
  destruct bots as [|b bots]; [done|].
  pose proof (main_spec os_environ float_repr str_repr exn_str run_process
                (b :: bots) (set_bot_processes [] s1)) as Hmain.
  unfold wp in Hmain. by destruct Hmain as (_ & -> & _).
Qed.

(** C1 (as the code has it).  Nothing in the program fills the tracking
    table, and it is empty while the workloads run.  For a workload
    whose [env] is an object and whose [run] is a string, started when
    the table has no entry for it (as in the script, whose line 56 sets
    the table to the empty dict): a request to stop the workload made
    while any of its commands runs, the launched entry point included,
    finds no process and signals nothing; its two records, the second
    the warning [No running process found], come right before the
    record of the command.  ([start_bot_with], at the primitive that
    runs a command and nothing meanwhile, is [start_bot] itself.)
    Whatever the state and the workload, [start_bot] leaves the table
    as it found it.  When the script ends the table is empty; with
    N > 0 workloads loaded and started it does not hold N entries. *)
Theorem tracking_table_is_never_filled bot_name d items run s :
  dict_get "env" d = Some (JObj items) →
  dict_get "run" d = Some (JStr run) →
  dict_get bot_name (bot_processes s) = None →
  let out :=
    start_bot_with os_environ float_repr str_repr exn_str
      (subprocess_run_meanwhile run_process (stop_bot bot_name))
      bot_name (JObj d) s in
  start_bot_with os_environ float_repr str_repr exn_str
    (subprocess_run run_process) =
  start_bot os_environ float_repr str_repr exn_str run_process
  ∧ (∃ evs, emitted s out.2 evs ∧ signalled evs = [] ∧
       ∀ a rc err t, Run a (Completed rc err t) ∈ evs →
         ∃ pre post,
           evs = pre ++
                 [Log INFO ("Stopping bot: " +:+ bot_name);
                  Log WARNING ("No running process found for bot: " +:+
                               bot_name);
                  Run a (Completed rc err t)] ++ post)
  ∧ (∀ bot_config s0,
       bot_processes (start_bot os_environ float_repr str_repr exn_str
                        run_process bot_name bot_config s0).2
       = bot_processes s0)
  ∧ (∀ cwd document t,
       let whole := script WORD_LIST rng os_environ float_repr str_repr
                      exn_str run_process cwd document (initial_state t) in
       bot_processes whole.2 = []
       ∧ ∀ s1 bots s2,
           startup cwd (initial_state t) = (Ok (), s1) →
           load_config WORD_LIST rng "config.json" document s1
             = (Ok bots, s2) →
           bots ≠ [] →
           whole.1 = Ok ()
           ∧ (∃ evs, emitted s2 whole.2 evs ∧
                ∀ n c, (n, c) ∈ bots →
                       Log INFO ("Starting bot: " +:+ n) ∈ evs)
           ∧ length (bot_processes whole.2) ≠ length bots).
Proof.
  intros Henv Hrun Hnone out. split; [reflexivity|]. split; [|split].
  - pose proof (start_bot_while_stopping os_environ float_repr str_repr
                  exn_str run_process bot_name d items run s Henv Hrun Hnone)
      as H.
    unfold wp in H. destruct H as (evs & Hem & Hsig & Hfound).
    exists evs. split; [done|]. split; [done|]. exact Hfound.
  - intros bot_config s0.
    pose proof (start_bot_result os_environ float_repr str_repr exn_str
                  run_process bot_name bot_config s0) as H.
    unfold wp in H. by destruct H as (? & _).
  - intros cwd document t whole.
    assert (Htab : bot_processes whole.2 = []) by by apply script_table.
    split; [done|].
    intros s1 bots s2 Eup Eload Hne. rewrite Htab.
    unfold whole. rewrite script_run, Eup, Eload.
    pose proof (main_spec os_environ float_repr str_repr exn_str run_process
                  bots (set_bot_processes [] s2) Hne) as Hmain.
    unfold wp in Hmain. destruct Hmain as (Hr & _ & evs & Hem & Hstart).
    split; [done|]. split; [by exists evs|]. by destruct bots.
Qed.

End TrackingTable.

(** ** Failures of a workload *)

Section Containment.
Variable WORD_LIST : list string.
Variable rng : nat → nat.
Variable os_environ : gmap string string.
Variable float_repr : float → string.
Variable str_repr : string → string.
Variable exn_str : exn → string.
Variable run_process : list event → run_args → node → proc_outcome.



End Containment.



(** ** A fetch that fails *)

Section Fetching.
Variable os_environ : gmap string string.
Variable float_repr : float → string.
Variable str_repr : string → string.
Variable exn_str : exn → string.
Variable run_process : list event → run_args → node → proc_outcome.

Local Abbreviation run_bot :=
  (start_bot os_environ float_repr str_repr exn_str run_process).
Local Abbreviation run_all :=
  (submit_all os_environ float_repr str_repr exn_str run_process).

Lemma submit_all_cons n c rest s :
  run_all ((n, c) :: rest) s =
    match run_all rest (run_bot n c s).2 with
    | (Ok futures, s2) => (Ok (((run_bot n c s).1, n) :: futures), s2)
    | (Raise e, s2) => (Raise e, s2)
    end.
Proof.
  simpl. rewrite bind_run. unfold submit at 1.
  destruct (run_bot n c s) as [r s1]. rewrite bind_run. cbn [fst snd].
  by destruct (run_all rest s1) as [[futures|e] s2].
Qed.

Lemma submit_all_returns bots s :
  ∃ futures s', run_all bots s = (Ok futures, s').
Proof.
  pose proof (submit_all_spec os_environ float_repr str_repr exn_str
                run_process bots s) as H.
  unfold wp in H. destruct (run_all bots s) as [r s'].
  cbn [fst snd] in H.
  destruct H as (_ & futures & _ & -> & _). by exists futures, s'.
Qed.

(** The workloads submitted after a given one are run from the state
    that one left, whatever its result. *)
Lemma submit_all_app before n c after s futures s1 :
  run_all before s = (Ok futures, s1) →
  ∃ rest s2,
    run_all after (run_bot n c s1).2 = (Ok rest, s2) ∧
    run_all (before ++ (n, c) :: after) s =
      (Ok (futures ++ ((run_bot n c s1).1, n) :: rest), s2).
Proof.
  revert s futures. induction before as [|[n0 c0] before IH];
    intros s futures.
  - intros [= <- <-].
    destruct (submit_all_returns after (run_bot n c s).2) as (rest & s2 & E).
    exists rest, s2. split; [done|]. simpl app.
    by rewrite submit_all_cons, E.
  - rewrite submit_all_cons.
    destruct (run_all before (run_bot n0 c0 s).2) as [[fs0|e0] s0] eqn:E0;
      [|done].
    intros [= <- <-].
    destruct (IH _ _ E0) as (rest & s2 & Er & Eall).
    exists rest, s2. split; [done|].
    rewrite <- app_comm_cons, submit_all_cons, Eall. done.
Qed.

(** C8. A fetch that exits with a status other than zero: [start_bot]
    returns [None] and raises nothing; the fetch is the only command it
    ran (no second attempt, no installation, no launch); after the
    fetch it did one thing, which was to log, as an error, the captured
    error output of the fetch; the file system is left as the fetch
    left it, the tracking table and the processes as they were, and
    nothing but the pause of 5 was spent.  The other workloads are
    unaffected: [main] starts every one of them and returns normally,
    and those submitted after the failed one are run from the state it
    left, its result being kept in its own future. *)
Theorem fetch_failure_is_isolated bot_name d items run s :
  dict_get "env" d = Some (JObj items) →
  dict_get "run" d = Some (JStr run) →
  let bot_dir := bot_dir_of bot_name in
  let out := run_bot bot_name (JObj d) s in
  (∃ evs, emitted s out.2 evs ∧
     ∀ branch source rc err t,
       Run (clone_cmd branch source bot_dir) (Completed rc err t) ∈ evs →
       rc ≠ 0%Z →
       out.1 = Ok None ∧
       runs_of evs = [clone_cmd branch source bot_dir] ∧
       (∃ pre,
          evs = pre ++ [Run (clone_cmd branch source bot_dir)
                            (Completed rc err t);
                        Log ERROR ("Error while cloning " +:+ bot_name +:+
                                   ": " +:+ err)] ∧
          runs_of pre = []) ∧
       fs out.2 = t ∧
       bot_processes out.2 = bot_processes s ∧
       procs out.2 = procs s ∧
       clock out.2 = clock s + 5)
  ∧ (∀ bots s0,
       (bot_name, JObj d) ∈ bots →
       let all := main os_environ float_repr str_repr exn_str run_process
                    bots s0 in
       all.1 = Ok () ∧
       ∃ evs, emitted s0 all.2 evs ∧
         ∀ n c, (n, c) ∈ bots → Log INFO ("Starting bot: " +:+ n) ∈ evs)
  ∧ (∀ before after s0 futures s1,
       run_all before s0 = (Ok futures, s1) →
       let mine := run_bot bot_name (JObj d) s1 in
       ∃ rest s2,
         run_all after mine.2 = (Ok rest, s2) ∧
         run_all (before ++ (bot_name, JObj d) :: after) s0 =
           (Ok (futures ++ (mine.1, bot_name) :: rest), s2)).
Proof.
  intros Henv Hrun bot_dir out. split; [|split].
  - pose proof (start_bot_outcome os_environ float_repr str_repr exn_str
                  run_process bot_name d items run s Henv Hrun) as H.
    pose proof (start_bot_framed os_environ float_repr str_repr exn_str
                  run_process bot_name d items run s Henv Hrun) as H'.
    unfold wp in H, H'. fold out in H, H'.
    destruct H as (evs & Hem & _ & _ & Hfetch & _).
    destruct H' as (evs' & Hem' & Hclock & Hbp & Hp & _ & Hfail).
    assert (evs' = evs) as ->.
    { unfold emitted in *. rewrite Hem in Hem'. by apply app_inv_head in Hem'. }
    exists evs. split; [done|].
    intros branch source rc err t Hin Hrc.
    destruct (Hfetch _ rc err t Hin eq_refl Hrc) as (Hr & Hruns & _).
    destruct (Hfail _ rc err t Hin eq_refl Hrc) as (Hfs & pre & Hevs & Hpre).
    split; [done|]. split; [done|]. split; [by exists pre|].
    repeat split; done.
  - intros bots s0 Hin all.
    pose proof (main_spec os_environ float_repr str_repr exn_str run_process
                  bots s0) as Hmain.
    unfold wp in Hmain.
    destruct Hmain as (Hr & _ & evs & Hem & Hstart).
    { intros ->. by apply elem_of_nil in Hin. }
    split; [done|]. by exists evs.
  - intros before after s0 futures s1 E mine. by apply submit_all_app.
Qed.

End Fetching.

Lemma fetch_failure_is_isolated_witness :
  dict_get "env" sample_config = Some (JObj sample_env)
  ∧ dict_get "run" sample_config = Some (JStr "echo.py")
  ∧ (start_bot sample_environ sample_float_repr sample_str_repr
       sample_exn_str fetch_fails "brave otter echo" (JObj sample_config)
       (initial_state stale_fs)).1 = Ok None
  ∧ runs_of (trace (start_bot sample_environ sample_float_repr
                      sample_str_repr sample_exn_str fetch_fails
                      "brave otter echo" (JObj sample_config)
                      (initial_state stale_fs)).2) =
      [clone_cmd "main" "https://example.test/repo.git"
         (bot_dir_of "brave otter echo")]
  ∧ fs (start_bot sample_environ sample_float_repr sample_str_repr
          sample_exn_str fetch_fails "brave otter echo" (JObj sample_config)
          (initial_state stale_fs)).2 =
      Dir {["app" := Dir {["logs" := Dir ∅]}]}.
Proof.
  assert (He : dict_get "env" sample_config = Some (JObj sample_env))
    by reflexivity.
  assert (Hr : dict_get "run" sample_config = Some (JStr "echo.py"))
    by reflexivity.
  split; [exact He|]. split; [exact Hr|].
  pose proof (fetch_failure_is_isolated sample_environ sample_float_repr
                sample_str_repr sample_exn_str fetch_fails "brave otter echo"
                sample_config sample_env "echo.py" (initial_state stale_fs)
                He Hr) as ((evs & Hem & Hfail) & _).
  change (trace (start_bot sample_environ sample_float_repr sample_str_repr
                   sample_exn_str fetch_fails "brave otter echo"
                   (JObj sample_config) (initial_state stale_fs)).2 = evs)
    in Hem.
  rewrite Hem.
  destruct (Hfail "main" "https://example.test/repo.git" 128%Z
              "fatal: repository not found"
              (Dir {["app" := Dir {["logs" := Dir ∅]}]}))
    as (H1 & H2 & _ & H3 & _).
  - rewrite <- Hem. apply list_elem_of_In. vm_compute.
    repeat first [left; reflexivity | right].
  - discriminate.
  - split; [exact H1|]. split; [exact H2|exact H3].
Defined.

(** ** Preparing the working directory *)

Lemma lookup_path_empty c q : lookup_path (Dir ∅) (c :: q) = None.
Proof. simpl. by rewrite lookup_empty. Qed.

(** Whatever exists on the way to a directory that could be created or
    removed is a directory. *)
Lemma mkdir_parents_dirs t p t' q rest n :
  mkdir_parents t p = Ok t' → p = q ++ rest → lookup_path t q = Some n →
  ∃ ch, n = Dir ch.
Proof.
  revert t t' q. induction p as [|c p IH]; intros t t' q Hmk Hp Hl.
  - destruct q; [|done]. injection Hl as <-. destruct t; [done|by eexists].
  - destruct t as [|ch]; [done|]. simpl in Hmk.
    destruct (mkdir_parents (default (Dir ∅) (ch !! c)) p) as [t1|] eqn:E;
      [|done].
    destruct q as [|c' q]; [injection Hl as <-; by eexists|].
    injection Hp as <- Hp. simpl in Hl.
    destruct (ch !! c) as [t0|] eqn:Ec; [|done].
    by eapply IH.
Qed.

Lemma rmtree_below_dirs t p t' q rest n :
  p ≠ [] →
  rmtree_below t p = Ok t' → p = q ++ rest → lookup_path t q = Some n →
  ∃ ch, n = Dir ch.
Proof.
  revert t t' q. induction p as [|c p IH]; intros t t' q Hne Hrm Hp Hl;
    [done|].
  destruct t as [|ch]; [done|]. simpl in Hrm.
  destruct (ch !! c) as [t0|] eqn:Ec; [|done].
  destruct q as [|c' q]; [injection Hl as <-; by eexists|].
  injection Hp as <- Hp. simpl in Hl. rewrite Ec in Hl.
  destruct p as [|c2 p].
  - destruct t0 as [|ch0]; [done|].
    destruct q; [|done]. injection Hl as <-. by eexists.
  - destruct (rmtree_below t0 (c2 :: p)) as [t2|] eqn:E; [|done].
    by eapply IH.
Qed.

Lemma mkdir_parents_ok t p :
  (∀ q rest n, p = q ++ rest → lookup_path t q = Some n → ∃ ch, n = Dir ch) →
  ∃ t', mkdir_parents t p = Ok t'.
Proof.
  revert t. induction p as [|c p IH]; intros t H.
  - destruct (H [] [] t eq_refl eq_refl) as [ch ->]. by eexists.
  - destruct (H [] (c :: p) t eq_refl eq_refl) as [ch ->]. simpl.
    destruct (IH (default (Dir ∅) (ch !! c))) as [t1 ->]; [|by eexists].
    intros q rest n -> Hl.
    destruct (ch !! c) as [t0|] eqn:Ec; simpl in Hl.
    + apply (H (c :: q) rest n eq_refl). simpl. by rewrite Ec.
    + destruct q as [|c' q]; [injection Hl as <-; by eexists|].
      by rewrite lookup_path_empty in Hl.
Qed.

Lemma mkdir_parents_dir t p t' :
  mkdir_parents t p = Ok t' → ∃ ch, lookup_path t' p = Some (Dir ch).
Proof.
  revert t t'. induction p as [|c p IH]; intros t t'.
  - destruct t; [done|]. intros [= <-]. by eexists.
  - destruct t as [|ch]; [done|]. simpl.
    destruct (mkdir_parents _ p) as [t1|] eqn:E; [|done].
    intros [= <-]. simpl. rewrite lookup_insert_eq. by eapply IH.
Qed.

Lemma rmtree_below_ok t p ch :
  p ≠ [] → lookup_path t p = Some (Dir ch) → ∃ t', rmtree_below t p = Ok t'.
Proof.
  revert t. induction p as [|c p IH]; intros t Hne Hl; [done|].
  destruct t as [|ch0]; [done|]. simpl in *.
  destruct (ch0 !! c) as [t0|]; [|done].
  destruct p as [|c2 p].
  - injection Hl as ->. by eexists.
  - destruct (IH t0) as [t2 E]; [done|done|]. rewrite E. by eexists.
Qed.

Lemma prepare_fs_succeeds t p :
  (prepare_fs t p).1 = Ok () ↔ preparable t p.
Proof.
  unfold preparable. split.
  - destruct p as [|c p].
    { unfold prepare_fs. simpl. by destruct t. }
    intros H. split; [done|]. revert H.
    destruct (path_exists t (c :: p)) eqn:Hex.
    + rewrite prepare_fs_there, rmtree_cons by done.
      destruct (rmtree_below t (c :: p)) as [t'|] eqn:E; [|done].
      intros _ q rest n Hp Hl.
      by apply (rmtree_below_dirs t (c :: p) t' q rest n).
    + rewrite prepare_fs_missing by done.
      destruct (mkdir_parents t (c :: p)) as [t'|] eqn:E; [|done].
      intros _ q rest n Hp Hl.
      by apply (mkdir_parents_dirs t (c :: p) t' q rest n).
  - intros [Hne H]. destruct p as [|c p]; [done|].
    destruct (path_exists t (c :: p)) eqn:Hex.
    + rewrite prepare_fs_there, rmtree_cons by done.
      unfold path_exists in Hex.
      destruct (lookup_path t (c :: p)) as [n|] eqn:Hl; [|done].
      destruct (H (c :: p) [] n) as [ch ->]; [by rewrite app_nil_r|done|].
      destruct (rmtree_below_ok t (c :: p) ch) as [t' ->]; done.
    + rewrite prepare_fs_missing by done.
      destruct (mkdir_parents_ok t (c :: p) H) as [t1 E]. rewrite E.
      destruct (mkdir_parents_dir _ _ _ E) as [ch Hl].
      rewrite rmtree_cons.
      destruct (rmtree_below_ok t1 (c :: p) ch) as [t' ->]; done.
Qed.

(** C9. The preparation of the working directory is idempotent.  For a
    directory whose path is made of ordinary components: run a second
    time right after the first, it ends the same way and leaves the
    same file system; it succeeds exactly when the way to the
    directory is free (the directory is not the root, and whatever
    exists on the way to it, the directory included, is a directory);
    and when it has succeeded the state is clean: the directory does
    not exist, nothing is left below it, whatever an earlier run has
    put there, and every directory on the way to it exists, so that a
    fetch can create it afresh. *)
Theorem prepare_dir_idempotent bot_name bot_dir s :
  ordinary_path (parts bot_dir) →
  let once := prepare_dir bot_name bot_dir s in
  let twice := prepare_dir bot_name bot_dir once.2 in
  fs twice.2 = fs once.2 ∧ twice.1 = once.1
  ∧ (once.1 = Ok () ↔ preparable (fs s) (parts bot_dir))
  ∧ (once.1 = Ok () →
     path_exists (fs once.2) (parts bot_dir) = false
     ∧ (∀ rest, lookup_path (fs once.2) (parts bot_dir ++ rest) = None)
     ∧ (∀ q rest, parts bot_dir = q ++ rest → rest ≠ [] →
          ∃ ch, lookup_path (fs once.2) q = Some (Dir ch))).
Proof.
  intros _ once twice.
  pose proof (prepare_dir_fs bot_name bot_dir s) as H1.
  pose proof (prepare_dir_fs bot_name bot_dir once.2) as H2.
  fold once in H1. fold twice in H2.
  pose proof (prepare_fs_idempotent (fs s) (parts bot_dir)) as Hid.
  rewrite <- H1 in Hid. simpl in Hid. rewrite <- H2, H1 in Hid.
  rewrite <- H1 in Hid. injection Hid as Hr Hfs.
  split; [done|]. split; [done|]. split.
  - rewrite <- prepare_fs_succeeds, <- H1. done.
  - intros Hok. rewrite Hok in H1. symmetry in H1.
    pose proof (prepare_fs_clean _ _ _ H1) as Hclean.
    split; [unfold path_exists; by rewrite Hclean|].
    split; [intros rest; by apply lookup_path_app_None|].
    intros q rest Hp Hrest. by eapply prepare_fs_parents.
Qed.

(** X14. What the preparation of the working directory leaves alone.
    For a working directory whose path is made of ordinary components:
    every path of ordinary components that neither leads to the
    directory nor lies in it denotes after the preparation what it
    denoted before, however the preparation ends; and after a
    preparation that succeeded every directory on the way to the
    working directory exists (those that were missing have been
    created and stay), while the working directory itself does not. *)
Theorem prepare_dir_frame bot_name bot_dir s :
  ordinary_path (parts bot_dir) →
  let out := prepare_dir bot_name bot_dir s in
  (∀ q, ordinary_path q → apart (parts bot_dir) q →
     lookup_path (fs out.2) q = lookup_path (fs s) q)
  ∧ (out.1 = Ok () →
     lookup_path (fs out.2) (parts bot_dir) = None ∧
     ∀ q rest, parts bot_dir = q ++ rest → rest ≠ [] →
       ∃ ch, lookup_path (fs out.2) q = Some (Dir ch)).
Proof.
  intros _ out. pose proof (prepare_dir_fs bot_name bot_dir s) as H.
  fold out in H. split.
  - intros q _ Hap.
    pose proof (prepare_fs_apart (fs s) (parts bot_dir) q Hap) as Hq.
    by rewrite <- H in Hq.
  - intros Hok. rewrite Hok in H. symmetry in H. split.
    + by eapply prepare_fs_clean.
    + intros q rest Hp Hrest. by eapply prepare_fs_parents.
Qed.

Lemma replace_char_dots s : replace_char " " "_" s = ".." → s = "..".
Proof.
  destruct s as [|a [|b [|c s]]]; try done. simpl.
  destruct (Ascii.eqb_spec a " ") as [->|_]; [done|].
  destruct (Ascii.eqb_spec b " ") as [->|_]; [done|].
  by intros [= -> ->].
Qed.

(** The working directory of a workload has a path of ordinary
    components as soon as the name of the workload holds no slash and
    no NUL character and is not one of the three names that are no
    names of a child; the names [load_config] makes, a prefix of two
    words, a space and the key of the entry, are of this kind when the
    key and the words hold no slash and no NUL character. *)
Lemma bot_dir_of_ordinary bot_name :
  has_char "/" bot_name = false → has_char Ascii.zero bot_name = false →
  bot_name ≠ "" → bot_name ≠ "." → bot_name ≠ ".." →
  ordinary_path (parts (bot_dir_of bot_name)).
Proof.
  intros Hslash Hnul Hne Hdot Hdots.
  set (dir := replace_char " " "_" bot_name).
  assert (Hd : has_char "/" dir = false).
  { unfold dir. by rewrite has_char_replace. }
  assert (Hz : has_char Ascii.zero dir = false).
  { unfold dir. by rewrite has_char_replace. }
  assert (Hc : is_component dir = true).
  { unfold is_component.
    destruct (String.eqb_spec dir "") as [E|_].
    { by apply replace_char_empty in E. }
    destruct (String.eqb_spec dir ".") as [E|_].
    { by apply replace_char_dot in E. }
    done. }
  assert (Hparse : parse_path dir = mkPath "" [dir]).
  { unfold parse_path. rewrite (startswith_plain "/" dir "") by done.
    rewrite split_on_plain by done. simpl. by rewrite Hc. }
  unfold bot_dir_of, path_join. fold dir. rewrite Hparse. simpl.
  apply Forall_cons. split; [reflexivity|].
  apply Forall_cons. split; [|apply Forall_nil_2].
  unfold ordinary. rewrite Hc, Hd, Hz. simpl.
  destruct (String.eqb_spec dir "..") as [E|_]; [|done].
  by apply replace_char_dots in E.
Qed.

Lemma ordinary_sample_dir :
  ordinary_path (parts (bot_dir_of "brave otter echo")).
Proof.
  apply Forall_cons. split; [reflexivity|].
  apply Forall_cons. split; [reflexivity|apply Forall_nil_2].
Defined.

Lemma prepare_dir_idempotent_witness :
  ordinary_path (parts (bot_dir_of "brave otter echo"))
  ∧ lookup_path stale_fs ["app"; "brave_otter_echo"; "old.txt"] = Some File
  ∧ (prepare_dir "brave otter echo" (bot_dir_of "brave otter echo")
       (initial_state stale_fs)).1 = Ok ()
  ∧ lookup_path
      (fs (prepare_dir "brave otter echo" (bot_dir_of "brave otter echo")
             (initial_state stale_fs)).2)
      ["app"; "brave_otter_echo"; "old.txt"] = None
  ∧ ∃ ch, lookup_path
            (fs (prepare_dir "brave otter echo"
                   (bot_dir_of "brave otter echo")
                   (initial_state stale_fs)).2) ["app"] = Some (Dir ch).
Proof.
  split; [exact ordinary_sample_dir|]. split; [reflexivity|].
  destruct (prepare_dir_idempotent "brave otter echo"
              (bot_dir_of "brave otter echo") (initial_state stale_fs)
              ordinary_sample_dir) as (_ & _ & Hiff & Hafter).
  assert (Hok : (prepare_dir "brave otter echo"
                   (bot_dir_of "brave otter echo")
                   (initial_state stale_fs)).1 = Ok ()).
  { apply Hiff. split; [discriminate|].
    intros q rest n Hp Hl.
    destruct q as [|c1 [|c2 [|c3 q]]].
    - injection Hl as <-. by eexists.
    - injection Hp as <- _. vm_compute in Hl. injection Hl as <-.
      by eexists.
    - injection Hp as <- <- _. vm_compute in Hl. injection Hl as <-.
      by eexists.
    - discriminate Hp. }
  split; [exact Hok|].
  destruct (Hafter Hok) as (_ & Hbelow & Hparents).
  split; [exact (Hbelow ["old.txt"])|].
  exact (Hparents ["app"] ["brave_otter_echo"] eq_refl ltac:(discriminate)).
Defined.

Lemma prepare_dir_frame_witness :
  ordinary_path (parts (bot_dir_of "brave otter echo"))
  ∧ ordinary_path ["app"; "logs"]
  ∧ apart (parts (bot_dir_of "brave otter echo")) ["app"; "logs"]
  ∧ lookup_path
      (fs (prepare_dir "brave otter echo" (bot_dir_of "brave otter echo")
             (initial_state stale_fs)).2) ["app"; "logs"] = Some (Dir ∅).
Proof.
  assert (Hq : ordinary_path ["app"; "logs"]).
  { apply Forall_cons. split; [reflexivity|].
    apply Forall_cons. split; [reflexivity|apply Forall_nil_2]. }
  assert (Hap : apart (parts (bot_dir_of "brave otter echo"))
                  ["app"; "logs"]).
  { split; intros [k Hk]; vm_compute in Hk; discriminate Hk. }
  split; [exact ordinary_sample_dir|]. split; [exact Hq|].
  split; [exact Hap|].
  destruct (prepare_dir_frame "brave otter echo"
              (bot_dir_of "brave otter echo") (initial_state stale_fs)
              ordinary_sample_dir) as (Hframe & _).
  rewrite (Hframe ["app"; "logs"] Hq Hap). reflexivity.
Defined.

(** ** The program on the sample data, as a script *)

(** The end-to-end scenario: one workload, every command succeeds.  The
    script ends normally, the log file of the supervisor is in the
    working directory, the workload was launched with its output in
    its own log file, and the tracking table holds nothing. *)
Example script_sample :
  let out := script sample_words sample_rng sample_environ sample_float_repr
               sample_str_repr sample_exn_str all_succeed sample_cwd
               (JObj sample_document) (initial_state sample_fs) in
  out.1 = Ok ()
  ∧ last (runs_of (trace out.2)) =
      Some (launch_cmd "python3" (bot_dir_of "brave otter echo")
              (path_join (bot_dir_of "brave otter echo") "echo.py")
              (<["A" := "1"]> sample_environ)
              "/app/logs/brave otter echo.log")
  ∧ lookup_path (fs out.2) ["app"; "bot_manager.log"] = Some File
  ∧ lookup_path (fs out.2) ["app"; "logs"; "brave otter echo.log"] = Some File
  ∧ bot_processes out.2 = [].
Proof. vm_compute. repeat split; reflexivity. Qed.

(** The start of the module creates what is missing. *)
Example startup_sample :
  (startup (parse_path "/srv") (initial_state (Dir {["srv" := Dir ∅]}))).1
    = Ok ()
  ∧ lookup_path
      (fs (startup (parse_path "/srv")
             (initial_state (Dir {["srv" := Dir ∅]}))).2)
      ["srv"; "bot_manager.log"] = Some File
  ∧ lookup_path
      (fs (startup (parse_path "/srv")
             (initial_state (Dir {["srv" := Dir ∅]}))).2)
      ["app"; "logs"] = Some (Dir ∅)
  ∧ (startup (parse_path "/srv") (initial_state blocked_fs)).1
    = Raise (OSError NotADirectoryError).
Proof. vm_compute. repeat split; reflexivity. Qed.

(** C4 as the specification words it fails both ways: the prefix
    [http] is not the network schemes, a source with the scheme [ssh]
    is refused, and a relative path that happens to start
    with [http] is accepted. *)
Lemma source_scheme_counterexample :
  has_network_scheme "ssh://git@example.test/repo.git" = true
  ∧ (load_config sample_words sample_rng "config.json"
       (JObj [("mirror", JObj ssh_config)]) (initial_state sample_fs)).1
    = Raise (ValueError "Invalid source URL for brave otter mirror.")
  ∧ has_network_scheme "httpd-data/repo" = false
  ∧ (load_config sample_words sample_rng "config.json"
       (JObj [("local", JObj httpd_config)]) (initial_state sample_fs)).1
    = Ok [("brave otter local", JObj httpd_config)].
Proof. repeat split; reflexivity. Qed.

Lemma tracking_table_is_never_filled_witness :
  dict_get "env" sample_config = Some (JObj sample_env)
  ∧ dict_get "run" sample_config = Some (JStr "echo.py")
  ∧ dict_get "brave otter echo" (bot_processes (initial_state sample_fs))
    = None
  ∧ ∃ pre post t,
      trace (start_bot_with sample_environ sample_float_repr sample_str_repr
               sample_exn_str
               (subprocess_run_meanwhile all_succeed
                  (stop_bot "brave otter echo"))
               "brave otter echo" (JObj sample_config)
               (initial_state sample_fs)).2 =
      pre ++
      [Log INFO "Stopping bot: brave otter echo";
       Log WARNING "No running process found for bot: brave otter echo";
       Run (launch_cmd "python3" (bot_dir_of "brave otter echo")
              (path_join (bot_dir_of "brave otter echo") "echo.py")
              (<["A" := "1"]> sample_environ)
              "/app/logs/brave otter echo.log")
           (Completed 0 "" t)] ++ post.
Proof.
  assert (He : dict_get "env" sample_config = Some (JObj sample_env))
    by reflexivity.
  assert (Hr : dict_get "run" sample_config = Some (JStr "echo.py"))
    by reflexivity.
  assert (Hn : dict_get "brave otter echo"
                 (bot_processes (initial_state sample_fs)) = None)
    by reflexivity.
  split; [exact He|]. split; [exact Hr|]. split; [exact Hn|].
  destruct (tracking_table_is_never_filled sample_words sample_rng
              sample_environ sample_float_repr sample_str_repr sample_exn_str
              all_succeed "brave otter echo" sample_config sample_env
              "echo.py" (initial_state sample_fs) He Hr Hn)
    as (_ & (evs & Hem & _ & Hfound) & _).
  change (trace (start_bot_with sample_environ sample_float_repr
                   sample_str_repr sample_exn_str
                   (subprocess_run_meanwhile all_succeed
                      (stop_bot "brave otter echo"))
                   "brave otter echo" (JObj sample_config)
                   (initial_state sample_fs)).2 = evs) in Hem.
  assert (Hin : ∃ t,
            Run (launch_cmd "python3" (bot_dir_of "brave otter echo")
                   (path_join (bot_dir_of "brave otter echo") "echo.py")
                   (<["A" := "1"]> sample_environ)
                   "/app/logs/brave otter echo.log")
                (Completed 0 "" t) ∈ evs).
  { rewrite <- Hem. eexists. apply list_elem_of_In. vm_compute.
    repeat first [left; reflexivity | right]. }
  destruct Hin as [t Hin].
  destruct (Hfound _ _ _ _ Hin) as (pre & post & Hevs).
  exists pre, post, t. rewrite Hem. exact Hevs.
Defined.

Lemma bad_entry_stops_everything_witness :
  Exists (λ nc, valid_entry nc.2 = false) two_entries
  ∧ exit_status (script sample_words sample_rng sample_environ
                   sample_float_repr sample_str_repr sample_exn_str
                   all_succeed sample_cwd (JObj two_entries)
                   (initial_state sample_fs)).1 = 1%Z
  ∧ clock (script sample_words sample_rng sample_environ sample_float_repr
             sample_str_repr sample_exn_str all_succeed sample_cwd
             (JObj two_entries) (initial_state sample_fs)).2 = 0.
Proof.
  assert (Hbad : Exists (λ nc, valid_entry nc.2 = false) two_entries).
  { apply Exists_cons_tl, Exists_cons_hd. reflexivity. }
  split; [exact Hbad|].
  destruct (bad_entry_stops_everything sample_words sample_rng sample_environ
              sample_float_repr sample_str_repr sample_exn_str all_succeed
              sample_cwd two_entries (initial_state sample_fs) Hbad)
    as (_ & Hst & _ & _ & _ & Hc & _).
  split; [exact Hst|exact Hc].
Defined.

Lemma script_exit_status_witness :
  sample_words ≠ []
  ∧ exit_status (script sample_words sample_rng sample_environ
                   sample_float_repr sample_str_repr sample_exn_str
                   all_succeed sample_cwd (JObj sample_document)
                   (initial_state sample_fs)).1 = 0%Z
  ∧ exit_status (script sample_words sample_rng sample_environ
                   sample_float_repr sample_str_repr sample_exn_str
                   all_succeed (parse_path "/srv") (JObj sample_document)
                   (initial_state blocked_fs)).1 ≠ 0%Z.
Proof.
  assert (Hw : sample_words ≠ []) by discriminate.
  split; [exact Hw|]. split.
  - apply (proj2 (script_exit_status sample_words sample_rng sample_environ
                    sample_float_repr sample_str_repr sample_exn_str
                    all_succeed sample_cwd (JObj sample_document)
                    (initial_state sample_fs) Hw)).
    split.
    + eexists. split; [vm_compute; reflexivity|]. left. reflexivity.
    + exists sample_document. split; [reflexivity|]. split; [discriminate|].
      apply Forall_cons. split; [reflexivity|apply Forall_nil_2].
  - intros H0.
    destruct (proj1 (script_exit_status sample_words sample_rng
                       sample_environ sample_float_repr sample_str_repr
                       sample_exn_str all_succeed (parse_path "/srv")
                       (JObj sample_document) (initial_state blocked_fs) Hw)
                H0)
      as ((t1 & Hopen & Hdir) & _).
    vm_compute in Hopen. injection Hopen as <-.
    destruct Hdir as [Hex|[t2 Hmk]].
    + vm_compute in Hex. discriminate Hex.
    + vm_compute in Hmk. discriminate Hmk.
Defined.
